(** * MCP-SUPERSERVER: tool dispatch, note store, graph adapter and memory
      orchestrator

    A shallow embedding of the JavaScript sources

      - [mcp/index.js]               (the tools/call request handler),
      - [mcp/tools/obsidian-tools.js] (note store adapter),
      - [mcp/tools/neo4j-tools.js]    (graph adapter),
      - [mcp/tools/memory-tools.js]   (memory orchestrator),

    together with the properties of the specification that concern them.

    Conventions.  An [async] function that may reject is a computation in
    the monad [M W A := W -> Res A * W]: it threads the state [W] of the
    outside world and either fulfils with a value ([Ok]) or rejects with a
    JavaScript error ([Throw]).  [try]/[catch]/[finally] are combinators of
    that monad.  Calls to [logger] return nothing and touch none of the
    modelled state; they are left out.  JavaScript strings are modelled by
    [string] (sequences of 8-bit code units). *)

From Stdlib Require Import Ascii String ZArith QArith Qcanon.
From stdpp Require Import gmap strings list sorting pretty.

Local Open Scope string_scope.
Local Open Scope list_scope.

(** ** JavaScript errors and the rejection monad *)

Module Js.

(** The [code] property that Node's [fs] sets on its errors. *)
Inductive errcode := ENOENT | ENOTDIR | EISDIR | EACCES | EEXIST.

(** An [Error] object: its constructor name, [message] and, for system
    errors, [code]. *)
Record error := mkError {
  err_name : string;
  message : string;
  code : option errcode
}.

(** [new Error(msg)] *)
Definition Error (msg : string) : error := mkError "Error" msg None.
(** The [TypeError] the engine raises by itself. *)
Definition TypeError (msg : string) : error := mkError "TypeError" msg None.

Global Instance errcode_eq_dec : EqDecision errcode.
Proof. solve_decision. Defined.
Global Instance error_eq_dec : EqDecision error.
Proof. solve_decision. Defined.

Inductive Res (A : Type) :=
| Ok (a : A)
| Throw (e : error).
Global Arguments Ok {A} a.
Global Arguments Throw {A} e.

Definition M (W A : Type) : Type := W -> Res A * W.

Definition ret {W A} (a : A) : M W A := fun w => (Ok a, w).
Definition throw {W A} (e : error) : M W A := fun w => (Throw e, w).
Definition bind {W A B} (m : M W A) (k : A -> M W B) : M W B :=
  fun w => match m w with
           | (Ok a, w') => k a w'
           | (Throw e, w') => (Throw e, w')
           end.
(** [try { m } catch (e) { h e }] *)
Definition try_catch {W A} (m : M W A) (h : error -> M W A) : M W A :=
  fun w => match m w with
           | (Ok a, w') => (Ok a, w')
           | (Throw e, w') => h e w'
           end.
(** [try { m } finally { f }], for a [finally] block that cannot fail. *)
Definition try_finally {W A} (m : M W A) (f : W -> W) : M W A :=
  fun w => let '(r, w') := m w in (r, f w').

Definition get {W} : M W W := fun w => (Ok w, w).
Definition put {W} (w : W) : M W unit := fun _ => (Ok tt, w).

Definition is_ok {A} (r : Res A) : bool :=
  match r with Ok _ => true | Throw _ => false end.

End Js.
Import Js.

Declare Scope js_scope.
Delimit Scope js_scope with js.
Notation "x <- m ;; k" := (Js.bind m (fun x => k))
  (at level 100, m at next level, right associativity) : js_scope.
Notation "m ;;; k" := (Js.bind m (fun _ => k))
  (at level 100, right associativity) : js_scope.
Local Open Scope js_scope.

(** ** The Dispatch Server: [CallToolRequestSchema] handler (mcp/index.js) *)

Module Dispatch.

(** The names every JavaScript object literal inherits from
    [Object.prototype].  [allTools] is an object literal, so
    [allTools[name]] finds these when [name] is no own property. *)
Definition object_prototype_keys : list string :=
  [ "constructor"; "__defineGetter__"; "__defineSetter__";
    "hasOwnProperty"; "__lookupGetter__"; "__lookupSetter__";
    "isPrototypeOf"; "propertyIsEnumerable"; "toString"; "valueOf";
    "__proto__"; "toLocaleString" ].

Section Server.
(** The arguments object of a call, the value a handler resolves to and
    the state of the backends are whatever the registered tools use. *)
Context {Args Result W : Type}.

(** A tool descriptor; [handler] is the property attached by
    [Object.keys(tools).forEach(key => tools[key].handler = handlers[key])],
    which is [undefined] when [handlers] has no such key. *)
Record Tool := mkTool {
  tool_name : string;
  description : string;
  handler : option (Args -> M W Result)
}.

(** What the property read [allTools[name]] evaluates to. *)
Inductive property :=
| OwnTool (t : Tool)
| Inherited          (* a member of Object.prototype: truthy, no handler *)
| Undefined.

Definition get_property (allTools : gmap string Tool) (name : string)
  : property :=
  match allTools !! name with
  | Some t => OwnTool t
  | None => if bool_decide (name ∈ object_prototype_keys)
            then Inherited else Undefined
  end.

(** [JSON.stringify(result, null, 2)] and
    [JSON.stringify({ error: error.message }, null, 2)], kept
    structured. *)
Inductive payload :=
| JsonResult (r : Result)
| JsonError (msg : string).

(** [{ content: [{ type: 'text', text }], isError }] *)
Record Envelope := mkEnvelope {
  text : payload;
  isError : bool
}.

(** The state of a call: the backends, and the names of the tools whose
    handler has been entered (a ghost record used to state that no
    handler ran). *)
Definition St : Type := W * list string.

(** [!tool] is false for every object and function. *)
Definition truthy (p : property) : bool :=
  match p with Undefined => false | _ => true end.

(** [tool.handler]: the attached function of a descriptor, [undefined] on
    the members of [Object.prototype]. *)
Definition handler_of (p : property) : option (Args -> M W Result) :=
  match p with OwnTool t => handler t | _ => None end.

(** [tool.handler(args)]; calling [undefined] raises a [TypeError]. *)
Definition invoke (tool : property) (name : string) (args : Args)
  : M St Result :=
  fun '(w, tr) =>
    match handler_of tool with
    | Some h => let '(r, w') := h args w in (r, (w', tr ++ [name]))
    | None => (Throw (TypeError "tool.handler is not a function"), (w, tr))
    end.

Definition success_envelope (r : Result) : Envelope :=
  mkEnvelope (JsonResult r) false.
Definition error_envelope (e : error) : Envelope :=
  mkEnvelope (JsonError (message e)) true.

Definition CallToolRequest (allTools : gmap string Tool)
    (name : string) (args : Args) : M St Envelope :=
  let tool := get_property allTools name in
  if negb (truthy tool) then
    throw (Error ("Unknown tool: " +:+ name))
  else
    try_catch
      (result <- invoke tool name args ;;
       ret (success_envelope result))
      (fun error => ret (error_envelope error)).

(** [const allTools = { ...neo4jTools, ...obsidianTools, ...ollamaTools,
    ...memoryTools }]: later spreads overwrite earlier ones. *)
Definition spread (ts : list (gmap string Tool)) : gmap string Tool :=
  foldl (fun acc m => m ∪ acc) ∅ ts.

End Server.
Global Arguments Tool : clear implicits.
Global Arguments Envelope : clear implicits.
Global Arguments property : clear implicits.

(** A two-tool registry over a counter, used to run the handler. *)
Definition demo_tools : gmap string (Tool unit nat nat) :=
  spread
    [ {[ "bump" := mkTool "bump" "adds one" (Some (fun _ n => (Ok n, S n))) ]};
      {[ "fail" := mkTool "fail" "always rejects"
                     (Some (fun _ n => (Throw (Error "boom"), S n))) ]} ].

End Dispatch.


(** ** JavaScript string methods *)

Module Str.

Definition LF : string := String "010"%char "".
Definition QUOTE : ascii := "034"%char.

Definition length (s : string) : Z := Z.of_nat (String.length s).

(** White space in the sense of [String.prototype.trim], among the 8-bit
    code units: TAB, LF, VT, FF, CR, SPACE and NBSP. *)
Definition is_white (c : ascii) : bool :=
  let n := nat_of_ascii c in
  (((9 <=? n) && (n <=? 13)) || (n =? 32) || (n =? 160))%nat.

Fixpoint drop (n : nat) (s : string) : string :=
  match n, s with
  | S n', String _ s' => drop n' s'
  | _, _ => s
  end.

Fixpoint take (n : nat) (s : string) : string :=
  match n, s with
  | S n', String c s' => String c (take n' s')
  | _, _ => ""
  end.

(** [s.startsWith(p)] *)
Fixpoint startsWith (s p : string) : bool :=
  match p with
  | "" => true
  | String a p' =>
      match s with
      | "" => false
      | String b s' => bool_decide (a = b) && startsWith s' p'
      end
  end.

(** [s.endsWith(p)] *)
Definition endsWith (s p : string) : bool :=
  (String.length p <=? String.length s)%nat
  && bool_decide (drop (String.length s - String.length p) s = p).

(** [s.indexOf(p)]: the first index at which [p] occurs, [-1] if none. *)
Fixpoint indexOf (s p : string) : Z :=
  if startsWith s p then 0
  else match s with
       | "" => -1
       | String _ s' => let i := indexOf s' p in
                        if (i <? 0)%Z then -1 else i + 1
       end.

(** [s.includes(p)] *)
Definition includes (s p : string) : bool := (0 <=? indexOf s p)%Z.

Definition clamp (len i : Z) : nat := Z.to_nat (Z.max 0 (Z.min i len)).

(** [s.substring(a, b)]: both indices are clamped to [0, length] and
    swapped when [a > b]. *)
Definition substring (s : string) (a b : Z) : string :=
  let a' := clamp (length s) a in
  let b' := clamp (length s) b in
  let lo := Nat.min a' b' in
  let hi := Nat.max a' b' in
  take (hi - lo) (drop lo s).

(** [s.substring(a)] *)
Definition substring_from (s : string) (a : Z) : string :=
  substring s a (length s).

(** A negative argument of [slice] counts from the end. *)
Definition from_end (len i : Z) : nat :=
  if (i <? 0)%Z then Z.to_nat (Z.max 0 (len + i)) else Z.to_nat (Z.min i len).

(** [s.slice(a, b)] *)
Definition slice (s : string) (a b : Z) : string :=
  let a' := from_end (length s) a in
  let b' := from_end (length s) b in
  take (b' - a') (drop a' s).

(** [s.slice(a)] *)
Definition slice_from (s : string) (a : Z) : string :=
  slice s a (length s).

Fixpoint trimStart (s : string) : string :=
  match s with
  | "" => ""
  | String c s' => if is_white c then trimStart s' else s
  end.

Fixpoint trimEnd (s : string) : string :=
  match s with
  | "" => ""
  | String c s' =>
      match trimEnd s' with
      | "" => if is_white c then "" else String c ""
      | t => String c t
      end
  end.

(** [s.trim()] *)
Definition trim (s : string) : string := trimEnd (trimStart s).

(** [s.split(c)] for a separator of one character: the pieces between the
    occurrences of [c]; the empty string splits into one empty piece. *)
Fixpoint split (s : string) (c : ascii) : list string :=
  match s with
  | "" => [""]
  | String a s' =>
      if bool_decide (a = c) then "" :: split s' c
      else match split s' c with
           | piece :: rest => String a piece :: rest
           | [] => [String a ""]
           end
  end.

(** [pieces.join(sep)] *)
Definition join (pieces : list string) (sep : string) : string :=
  String.concat sep pieces.

(** [s.replace(re, '')] for the global regex [re] of a double quote at
    the start or at the end: a double quote at the start is removed, and
    so is one at the end of what remains. *)
Definition strip_quotes (s : string) : string :=
  let s1 := match s with
            | String c s' => if bool_decide (c = QUOTE) then s' else s
            | "" => ""
            end in
  if endsWith s1 (String QUOTE "")
  then take (String.length s1 - 1) s1 else s1.

(** [c.toUpperCase()] and [c.toLowerCase()] on the letters a-z, A-Z.
    Every other code unit is left as it is, which is what JavaScript does
    with those of ASCII; the letters beyond ASCII are not folded. *)
Definition upper_char (c : ascii) : ascii :=
  let n := nat_of_ascii c in
  if ((97 <=? n) && (n <=? 122))%nat then ascii_of_nat (n - 32) else c.
Definition lower_char (c : ascii) : ascii :=
  let n := nat_of_ascii c in
  if ((65 <=? n) && (n <=? 90))%nat then ascii_of_nat (n + 32) else c.

Fixpoint map_chars (f : ascii -> ascii) (s : string) : string :=
  match s with
  | "" => ""
  | String c s' => String (f c) (map_chars f s')
  end.

Definition toUpperCase : string -> string := map_chars upper_char.
Definition toLowerCase : string -> string := map_chars lower_char.

(** [s.charAt(i)] *)
Definition charAt (s : string) (i : nat) : string := take 1 (drop i s).

End Str.


(** ** The file system behind [fs.promises]

    A tree of directories and regular files.  A path is the list of names
    that leads from the root to an entry.  Each operation answers as the
    POSIX call behind it does: with its result or with an error code.  Of
    the permissions one flag is kept for each entry: whether a directory
    can be searched and listed, and whether a file can be read and
    written; the permission to change the entries of a directory is not
    told apart from these. *)

Module Fs.

#[warnings="-register-all"]
Inductive node :=
| File (readable : bool) (content : string)
| Dir (readable : bool) (entries : list (string * node)).

Definition path := list string.

Definition result (A : Type) : Type := errcode + A.

(** The entry called [name] in a directory listing. *)
Fixpoint entry (name : string) (es : list (string * node)) : option node :=
  match es with
  | [] => None
  | (n, x) :: es' => if bool_decide (n = name) then Some x else entry name es'
  end.

(** The listing with the entry [name] set to [x] (added when new). *)
Fixpoint set_entry (name : string) (x : node) (es : list (string * node))
  : list (string * node) :=
  match es with
  | [] => [(name, x)]
  | (n, y) :: es' =>
      if bool_decide (n = name) then (n, x) :: es'
      else (n, y) :: set_entry name x es'
  end.

(** The listing without the entry [name]. *)
Fixpoint remove_entry (name : string) (es : list (string * node))
  : list (string * node) :=
  match es with
  | [] => []
  | (n, y) :: es' =>
      if bool_decide (n = name) then es' else (n, y) :: remove_entry name es'
  end.

(** Path resolution ([stat]): every name but the last must lead into a
    directory that may be searched. *)
Fixpoint lookup (p : path) (n : node) : result node :=
  match p with
  | [] => inr n
  | name :: p' =>
      match n with
      | File _ _ => inl ENOTDIR
      | Dir false _ => inl EACCES
      | Dir true es =>
          match entry name es with
          | None => inl ENOENT
          | Some x => lookup p' x
          end
      end
  end.

(** Replace what is at [p] (an entry or its absence) by what [f] makes of
    it; [f] may refuse with an error code.  The root itself is a
    directory and is never replaced. *)
Fixpoint update (p : path) (f : option node -> result (option node))
    (n : node) : result node :=
  match p with
  | [] => inl EISDIR
  | name :: p' =>
      match n with
      | File _ _ => inl ENOTDIR
      | Dir false _ => inl EACCES
      | Dir true es =>
          match p' with
          | [] =>
              match f (entry name es) with
              | inl e => inl e
              | inr (Some x) => inr (Dir true (set_entry name x es))
              | inr None => inr (Dir true (remove_entry name es))
              end
          | _ :: _ =>
              match entry name es with
              | None => inl ENOENT
              | Some x =>
                  match update p' f x with
                  | inl e => inl e
                  | inr x' => inr (Dir true (set_entry name x' es))
                  end
              end
          end
      end
  end.

(** [fs.access(p)] *)
Definition access (p : path) (root : node) : result unit :=
  match lookup p root with
  | inl e => inl e
  | inr _ => inr tt
  end.

(** Reading the entry that has been reached. *)
Definition read_node (n : node) : result string :=
  match n with
  | File true c => inr c
  | File false _ => inl EACCES
  | Dir _ _ => inl EISDIR
  end.

(** [fs.readFile(p, 'utf-8')] *)
Definition readFile (p : path) (root : node) : result string :=
  match lookup p root with
  | inl e => inl e
  | inr n => read_node n
  end.

(** [fs.writeFile(p, data, 'utf-8')]: creates the file or replaces its
    content; the directory that holds it must exist. *)
Definition writeFile (p : path) (data : string) (root : node) : result node :=
  update p (fun old => match old with
                       | None => inr (Some (File true data))
                       | Some (File true _) => inr (Some (File true data))
                       | Some (File false _) => inl EACCES
                       | Some (Dir _ _) => inl EISDIR
                       end) root.

(** [fs.unlink(p)] *)
Definition unlink (p : path) (root : node) : result node :=
  update p (fun old => match old with
                       | None => inl ENOENT
                       | Some (File _ _) => inr None
                       | Some (Dir _ _) => inl EISDIR
                       end) root.

(** [fs.mkdir(p, { recursive: true })]: every missing directory on the way
    is created; an existing directory is left as it is. *)
Fixpoint mkdir_p (p : path) (n : node) : result node :=
  match p with
  | [] => match n with
          | Dir _ _ => inr n
          | File _ _ => inl EEXIST
          end
  | name :: p' =>
      match n with
      | File _ _ => inl ENOTDIR
      | Dir false _ => inl EACCES
      | Dir true es =>
          let child := match entry name es with
                       | Some x => x
                       | None => Dir true []
                       end in
          match mkdir_p p' child with
          | inl e => inl e
          | inr x' => inr (Dir true (set_entry name x' es))
          end
      end
  end.

(** [fs.readdir(dir, { withFileTypes: true })] on the node found at [dir]. *)
Definition readdir (n : node) : result (list (string * node)) :=
  match n with
  | File _ _ => inl ENOTDIR
  | Dir false _ => inl EACCES
  | Dir true es => inr es
  end.

(** [entry.isDirectory()] *)
Definition isDirectory (n : node) : bool :=
  match n with Dir _ _ => true | File _ _ => false end.
(** [entry.isFile()] *)
Definition isFile (n : node) : bool :=
  match n with File _ _ => true | Dir _ _ => false end.

(** The error object [fs] rejects with. *)
Definition error_of (e : errcode) (syscall : string) : error :=
  mkError "Error" (syscall +:+ " failed") (Some e).

(** The path does not exist: resolution ends at a missing name. *)
Definition absent (p : path) (root : node) : Prop :=
  lookup p root = inl ENOENT.

End Fs.


(** ** The property graph behind the Neo4j session *)

Module Graph.

(** A property value. *)
Inductive value :=
| VNull
| VBool (b : bool)
| VNum (q : Qc)
| VStr (s : string).

Global Instance value_eq_dec : EqDecision value.
Proof. solve_decision. Defined.

Abbreviation props := (gmap string value).

(** Element ids are opaque to the sources; they are numbers here. *)
Record Node := mkNode {
  elementId : nat;
  labels : list string;
  properties : props
}.

Record Rel := mkRel {
  rel_elementId : nat;
  type : string;
  startNode : nat;
  endNode : nat;
  rel_properties : props
}.

(** The database: its nodes and relationships in order of creation, the
    next free element id, and whether the server can be reached. *)
Record t := mkGraph {
  nodes : list Node;
  rels : list Rel;
  next_id : nat;
  online : bool;
  (** the sessions that are open *)
  sessions : nat
}.

(** A property read [n.key]; a missing property reads as [null]. *)
Definition prop (key : string) (n : Node) : value :=
  default VNull (properties n !! key).

(** A node pattern [(:label {name: $name})]. *)
Definition has_label (label : string) (n : Node) : bool :=
  bool_decide (label ∈ labels n).
Definition has_name (name : string) (n : Node) : bool :=
  bool_decide (prop "name" n = VStr name).
Definition matches (label name : string) (n : Node) : bool :=
  has_label label n && has_name name n.

(** [null] is never stored: a property set to [null] is a property
    removed. *)
Definition stored (m : props) : props :=
  filter (fun kv => kv.2 <> VNull) m.

(** [SET x += $props]: the new properties are laid over the old ones. *)
Definition set_props (new old : props) : props := stored (new ∪ old).

(** The order of values under [ORDER BY]: strings come before booleans,
    booleans before numbers, and [null] comes last. *)
Definition rank (v : value) : nat :=
  match v with
  | VStr _ => 0
  | VBool _ => 1
  | VNum _ => 2
  | VNull => 3
  end.

Definition value_leb (a b : value) : bool :=
  match a, b with
  | VStr x, VStr y => String.leb x y
  | VBool x, VBool y => implb x y
  | VNum x, VNum y => Qle_bool (this x) (this y)
  | _, _ => (rank a <=? rank b)%nat
  end.

(** [a] may stand before [b] under [ORDER BY m.importance DESC]. *)
Definition importance_desc (a b : Node) : Prop :=
  value_leb (prop "importance" b) (prop "importance" a) = true.

Global Instance importance_desc_dec : RelDecision importance_desc.
Proof. intros a b. unfold importance_desc. apply _. Defined.

End Graph.

(** ** The environment of the process and the state of the world *)

(** What the sources take from Node's [path] module, from [process.env],
    from the clock and from [Math.random]. *)
Class Env := {
  (** [process.env.OBSIDIAN_VAULT || '/vault'] *)
  VAULT_PATH : string;
  path_join : string -> string -> string;
  path_relative : string -> string -> string;
  path_dirname : string -> string;
  (** the names an absolute path goes through, from the root *)
  resolve : string -> Fs.path;
  (** [new Date().toISOString()], [toLocaleDateString()], [toLocaleString()]
      and [Date.now()] at the n-th reading of the clock *)
  toISOString : nat -> string;
  toLocaleDateString : nat -> string;
  toLocaleString : nat -> string;
  date_now : nat -> string;
  (** [Math.random().toString(36).substr(2, 9)] at the n-th draw *)
  random_suffix : nat -> string
}.

Record World := mkWorld {
  fs : Fs.node;
  graph : Graph.t;
  clock : nat;
  draws : nat
}.

Definition set_fs (root : Fs.node) (w : World) : World :=
  mkWorld root (graph w) (clock w) (draws w).
Definition set_graph (g : Graph.t) (w : World) : World :=
  mkWorld (fs w) g (clock w) (draws w).

(** [new Date()]: reads the clock, which then moves on. *)
Definition new_Date : M World nat :=
  fun w => (Ok (clock w), mkWorld (fs w) (graph w) (S (clock w)) (draws w)).
(** [Math.random()] *)
Definition Math_random : M World nat :=
  fun w => (Ok (draws w), mkWorld (fs w) (graph w) (clock w) (S (draws w))).


(** ** The Note Store Adapter (mcp/tools/obsidian-tools.js) *)

Module Obsidian.
Import Str.

(** A front-matter value: an array of strings, a boolean or a string. *)
Inductive fmvalue :=
| FmArray (vs : list string)
| FmBool (b : bool)
| FmString (s : string).

Global Instance fmvalue_eq_dec : EqDecision fmvalue.
Proof. solve_decision. Defined.

(** The object built by the parser, read by its keys. *)
Abbreviation fmobject := (gmap string fmvalue).

(** [frontmatter[key] = value] on an object literal: an own property is
    set, except that the key [__proto__] reaches the inherited setter and
    leaves the own properties as they are. *)
Definition obj_set (key : string) (value : fmvalue) (o : fmobject)
  : fmobject :=
  if bool_decide (key = "__proto__") then o else <[key := value]> o.

(** The shortest [g] with [s = g ++ sep ++ rest], and that [rest]: what a
    lazy group of arbitrary characters followed by the literal [sep]
    captures. *)
Fixpoint lazy_until (sep s : string) : option (string * string) :=
  if startsWith s sep then Some ("", drop (String.length sep) s)
  else match s with
       | "" => None
       | String c s' =>
           match lazy_until sep s' with
           | Some (g, rest) => Some (String c g, rest)
           | None => None
           end
       end.

(** [content.match(frontmatterRegex)]: the text opens with a line of
    three dashes; the first group is the shortest text up to a further
    line of three dashes, the second group is all that follows that
    line. *)
Definition frontmatterRegex (content : string) : option (string * string) :=
  if startsWith content ("---" +:+ LF)
  then lazy_until (LF +:+ "---" +:+ LF) (drop 4 content)
  else None.

(** The value of one [key: value] line. *)
Definition parse_value (value : string) : fmvalue :=
  if startsWith value "[" && endsWith value "]" then
    FmArray (map (fun v => strip_quotes (trim v)) (split (slice value 1 (-1)) ","))
  else if bool_decide (value = "true") then FmBool true
  else if bool_decide (value = "false") then FmBool false
  else if startsWith value (String QUOTE "") && endsWith value (String QUOTE "")
       then FmString (slice value 1 (-1))
  else FmString value.

(** The body of the [for (const line of lines)] loop. *)
Definition parse_line (frontmatter : fmobject) (line : string) : fmobject :=
  let colonIndex := indexOf line ":" in
  if (colonIndex >? 0)%Z then
    let key := trim (substring line 0 colonIndex) in
    let value := trim (substring_from line (colonIndex + 1)) in
    obj_set key (parse_value value) frontmatter
  else frontmatter.

Record Parsed := mkParsed {
  frontmatter : option fmobject;
  body : string
}.

(** The statements of the [try] block raise nothing, so its [catch] is
    never entered. *)
Definition parseFrontmatter (content : string) : Parsed :=
  match frontmatterRegex content with
  | None => mkParsed None content
  | Some (m1, m2) =>
      let lines := split m1 "010"%char in
      mkParsed (Some (foldl parse_line ∅ lines)) (trim m2)
  end.

(** One line of the block written for an entry. *)
Definition build_line (kv : string * fmvalue) : string :=
  let '(key, value) := kv in
  match value with
  | FmArray vs =>
      key +:+ ": [" +:+
      join (map (fun v => String QUOTE v +:+ String QUOTE "") vs) ", " +:+ "]"
  | FmBool b => key +:+ ": " +:+ (if b then "true" else "false")
  | FmString v => key +:+ ": " +:+ String QUOTE v +:+ String QUOTE ""
  end.

(** [frontmatter] is given by its [Object.entries]; [None] is an absent
    argument. *)
Definition buildFrontmatter (frontmatter : option (list (string * fmvalue)))
  : string :=
  match frontmatter with
  | None | Some [] => ""
  | Some entries =>
      join (["---"] ++ map build_line entries ++ ["---"; ""]) LF
  end.

Definition normalizeFilename (filename : string) : string :=
  if negb (endsWith filename ".md") then filename +:+ ".md" else filename.

(** [Buffer.byteLength(s)]: a unit below 128 takes one byte in UTF-8, any
    other 8-bit unit takes two. *)
Fixpoint byteLength (s : string) : nat :=
  match s with
  | "" => 0
  | String c s' => (if (nat_of_ascii c <? 128)%nat then 1 else 2) + byteLength s'
  end.

Record SearchSnippet := mkSnippet {
  lineNumber : nat;
  snippet_text : string
}.

Record SearchHit := mkHit {
  hit_filename : string;
  hit_path : string;
  matchCount : nat;
  snippets : option (list SearchSnippet)
}.

(** The [i] flag compares letters regardless of case. *)
Definition same_char (ignoreCase : bool) (a b : ascii) : bool :=
  if ignoreCase then bool_decide (upper_char a = upper_char b)
  else bool_decide (a = b).

(** Does the escaped pattern, i.e. the literal text [q], match at the
    start of [s]? *)
Fixpoint matches_here (ignoreCase : bool) (q s : string) : bool :=
  match q with
  | "" => true
  | String a q' =>
      match s with
      | "" => false
      | String b s' => same_char ignoreCase a b && matches_here ignoreCase q' s'
      end
  end.

(** [content.match(searchRegex).length] for the global regex of the
    literal [q], zero standing for [null]: the matches are taken from left
    to right without overlap; [skip] units of the last match are still to
    be passed. *)
Fixpoint count_matches (ignoreCase : bool) (q s : string) (skip : nat) : nat :=
  match skip with
  | S k => match s with
           | "" => 0
           | String _ s' => count_matches ignoreCase q s' k
           end
  | 0 =>
      if matches_here ignoreCase q s then
        S (match s with
           | "" => 0
           | String _ s' => count_matches ignoreCase q s' (String.length q - 1)
           end)
      else match s with
           | "" => 0
           | String _ s' => count_matches ignoreCase q s' 0
           end
  end.

(** The index of the first match in [s], counted from [i]. *)
Fixpoint first_match (ignoreCase : bool) (q s : string) (i : nat) : option nat :=
  if matches_here ignoreCase q s then Some i
  else match s with
       | "" => None
       | String _ s' => first_match ignoreCase q s' (S i)
       end.

(** [searchRegex.test(line)] for a global regex: the search starts at
    [lastIndex], which is left after the match, or at zero when there is
    none. *)
Definition regex_test (ignoreCase : bool) (q line : string) (lastIndex : nat)
  : bool * nat :=
  if (String.length line <? lastIndex)%nat then (false, 0)
  else match first_match ignoreCase q (drop lastIndex line) lastIndex with
       | Some i => (true, i + String.length q)
       | None => (false, 0)
       end.

(** [.map((line, index) => ({ line, index })).filter(({ line }) =>
    searchRegex.test(line))], with the [lastIndex] of the regex carried
    from one line to the next. *)
Fixpoint matching_lines (ignoreCase : bool) (q : string)
    (lines : list string) (index lastIndex : nat) : list (string * nat) :=
  match lines with
  | [] => []
  | line :: rest =>
      let '(found, lastIndex') := regex_test ignoreCase q line lastIndex in
      let tail := matching_lines ignoreCase q rest (S index) lastIndex' in
      if found then (line, index) :: tail else tail
  end.

Section Handlers.
Context `{Env}.

Definition getFilePath (filename : string) : string :=
  let normalized := normalizeFilename filename in
  let cleanName := if startsWith normalized "/"
                   then slice_from normalized 1 else normalized in
  path_join VAULT_PATH cleanName.

(** The [fs.promises] calls, on the file system of the world. *)
Definition lift_fs {A} (syscall : string) (r : Fs.result A) : M World A :=
  match r with
  | inl e => throw (Fs.error_of e syscall)
  | inr a => ret a
  end.

Definition fs_access (p : string) : M World unit :=
  w <- get ;; lift_fs "access" (Fs.access (resolve p) (fs w)).
Definition fs_mkdir_recursive (p : string) : M World unit :=
  w <- get ;;
  root <- lift_fs "mkdir" (Fs.mkdir_p (resolve p) (fs w)) ;;
  put (set_fs root w).
Definition fs_readFile (p : string) : M World string :=
  w <- get ;; lift_fs "open" (Fs.readFile (resolve p) (fs w)).
Definition fs_writeFile (p data : string) : M World unit :=
  w <- get ;;
  root <- lift_fs "open" (Fs.writeFile (resolve p) data (fs w)) ;;
  put (set_fs root w).
Definition fs_unlink (p : string) : M World unit :=
  w <- get ;;
  root <- lift_fs "unlink" (Fs.unlink (resolve p) (fs w)) ;;
  put (set_fs root w).

Definition ensureDir (filePath : string) : M World unit :=
  let dir := path_dirname filePath in
  try_catch (fs_access dir) (fun _ => fs_mkdir_recursive dir).

Record ReadNoteArgs := mkReadNoteArgs {
  rn_filename : string;
  rn_parse_frontmatter : option bool
}.

(** [frontmatter] is [None] when the property is not set, [Some None] when
    it is [null]. *)
Record ReadNoteResult := mkReadNoteResult {
  rr_success : bool;
  rr_filename : string;
  rr_path : string;
  rr_frontmatter : option (option fmobject);
  rr_content : string
}.

Definition read_note (args : ReadNoteArgs) : M World ReadNoteResult :=
  let filename := rn_filename args in
  let parse_frontmatter := default true (rn_parse_frontmatter args) in
  let filePath := getFilePath filename in
  try_catch
    (content <- fs_readFile filePath ;;
     if parse_frontmatter then
       let parsed := parseFrontmatter content in
       ret (mkReadNoteResult true filename filePath
              (Some (frontmatter parsed)) (body parsed))
     else
       ret (mkReadNoteResult true filename filePath None content))
    (fun error =>
       if bool_decide (code error = Some ENOENT)
       then throw (Error ("Note not found: " +:+ filename))
       else throw error).

Record WriteNoteArgs := mkWriteNoteArgs {
  wn_filename : string;
  wn_content : string;
  wn_frontmatter : option (list (string * fmvalue));
  wn_create_dirs : option bool
}.

Record WriteNoteResult := mkWriteNoteResult {
  wr_success : bool;
  wr_filename : string;
  wr_path : string;
  wr_size : nat
}.

Definition write_note (args : WriteNoteArgs) : M World WriteNoteResult :=
  let filename := wn_filename args in
  let content := wn_content args in
  let create_dirs := default true (wn_create_dirs args) in
  let filePath := getFilePath filename in
  (if create_dirs then ensureDir filePath else ret tt) ;;;
  let fullContent :=
    match wn_frontmatter args with
    | Some entries => buildFrontmatter (Some entries) +:+ LF +:+ content
    | None => content
    end in
  fs_writeFile filePath fullContent ;;;
  ret (mkWriteNoteResult true filename filePath (byteLength fullContent)).

Record CreateNoteArgs := mkCreateNoteArgs {
  cn_filename : string;
  cn_title : option string;
  cn_content : string;
  cn_tags : option (list string);
  cn_template : option string
}.

(** [if (title)] and [title || alternative]: an absent and an empty title
    are both falsy. *)
Definition truthy (title : option string) : option string :=
  match title with
  | Some "" | None => None
  | Some t => Some t
  end.

Definition create_note (args : CreateNoteArgs) : M World WriteNoteResult :=
  let filename := cn_filename args in
  let title := truthy (cn_title args) in
  let content := cn_content args in
  let tags := default [] (cn_tags args) in
  let template := default "default" (cn_template args) in
  now <- new_Date ;;
  let timestamp := toISOString now in
  let frontmatter :=
    [("created", FmString timestamp); ("tags", FmArray tags)]
    ++ match title with Some t => [("title", FmString t)] | None => [] end in
  let '(frontmatter, fullContent) :=
    if bool_decide (template = "journal") then
      (frontmatter ++ [("type", FmString "journal")],
       "# " +:+ default (toLocaleDateString now) title +:+ LF +:+ LF +:+ content)
    else if bool_decide (template = "meeting") then
      (frontmatter ++ [("type", FmString "meeting")],
       "# " +:+ default "Meeting" title +:+ LF +:+ LF +:+
       "**Date:** " +:+ toLocaleString now +:+ LF +:+ LF +:+ content)
    else if bool_decide (template = "log") then
      (frontmatter ++ [("type", FmString "log")],
       "# " +:+ default "Log Entry" title +:+ LF +:+ LF +:+
       "**Timestamp:** " +:+ timestamp +:+ LF +:+ LF +:+ content)
    else
      (frontmatter,
       match title with
       | Some t => "# " +:+ t +:+ LF +:+ LF +:+ content
       | None => content
       end) in
  write_note (mkWriteNoteArgs filename fullContent (Some frontmatter) (Some true)).

Record DeleteNoteArgs := mkDeleteNoteArgs { dn_filename : string }.

Record DeleteNoteResult := mkDeleteNoteResult {
  dr_success : bool;
  dr_filename : string;
  dr_deleted : bool;
  dr_message : option string
}.

Definition delete_note (args : DeleteNoteArgs) : M World DeleteNoteResult :=
  let filename := dn_filename args in
  let filePath := getFilePath filename in
  try_catch
    (fs_unlink filePath ;;;
     ret (mkDeleteNoteResult true filename true None))
    (fun error =>
       if bool_decide (code error = Some ENOENT)
       then ret (mkDeleteNoteResult true filename false
                   (Some "File does not exist"))
       else throw error).

Record SearchNotesArgs := mkSearchNotesArgs {
  sn_query : string;
  sn_case_sensitive : option bool;
  sn_include_content : option bool;
  sn_limit : option nat
}.

Record SearchNotesResult := mkSearchNotesResult {
  sr_success : bool;
  sr_query : string;
  sr_results : list SearchHit;
  sr_count : nat
}.

(** The snippets of a matching file: at most five matching lines, each
    trimmed and cut to 200 characters. *)
Definition make_snippets (ignoreCase : bool) (query content : string)
  : list SearchSnippet :=
  let lines := split content "010"%char in
  let matchingLines := firstn 5 (matching_lines ignoreCase query lines 0 0) in
  map (fun '(line, index) => mkSnippet (index + 1) (substring (trim line) 0 200))
      matchingLines.

(** What one markdown file adds to [results]: nothing when it cannot be
    read or has no match. *)
Definition search_file (ignoreCase include_content : bool) (query : string)
    (name filePath : string) (file : Fs.node) : list SearchHit :=
  match Fs.read_node file with
  | inl _ => []
  | inr content =>
      match count_matches ignoreCase query content 0 with
      | 0 => []
      | S _ as n =>
          [ mkHit name (path_relative VAULT_PATH filePath) n
              (if include_content
               then Some (make_snippets ignoreCase query content)
               else None) ]
      end
  end.

(** [searchInDir(dir)], where [node] is what [dir] leads to: a directory
    that cannot be listed makes [readdir] reject, which is caught and
    leaves the results empty.  The inner loop is the [for] over the
    entries, left as soon as [results] has reached [limit]. *)
Fixpoint searchInDir (ignoreCase include_content : bool) (query : string)
    (limit : nat) (dir : string) (node : Fs.node) {struct node}
  : list SearchHit :=
  match node with
  | Fs.Dir true entries =>
      (fix loop (entries : list (string * Fs.node)) (results : list SearchHit)
           {struct entries} : list SearchHit :=
         match entries with
         | [] => results
         | (name, entry) :: rest =>
             let results' :=
               if Fs.isDirectory entry then
                 results ++ searchInDir ignoreCase include_content query limit
                              (path_join dir name) entry
               else if Fs.isFile entry && endsWith name ".md" then
                 results ++ search_file ignoreCase include_content query
                              name (path_join dir name) entry
               else results in
             if (limit <=? List.length results')%nat then results'
             else loop rest results'
         end) entries []
  | _ => []
  end.

Definition search_notes (args : SearchNotesArgs) : M World SearchNotesResult :=
  let query := sn_query args in
  let case_sensitive := default false (sn_case_sensitive args) in
  let include_content := default false (sn_include_content args) in
  let limit := default 50 (sn_limit args) in
  w <- get ;;
  let results :=
    match Fs.lookup (resolve VAULT_PATH) (fs w) with
    | inr node =>
        searchInDir (negb case_sensitive) include_content query limit
          VAULT_PATH node
    | inl _ => []
    end in
  ret (mkSearchNotesResult true query (firstn limit results)
         (List.length results)).

End Handlers.
End Obsidian.

(** ** The Graph Adapter (mcp/tools/neo4j-tools.js) *)

Module Neo4j.
Import Graph.

(** The query texts the sources hand to [session.run], each with the
    parameters bound to it.  Labels and relationship types are spliced into
    the text; they are taken to be identifiers.  The store answers each
    text as Cypher reads it.  The parameters are taken to reach the server
    with the types their places in the text need: the driver that binds
    them is behind [getSession], which is not among the sources. *)
Inductive statement :=
(** [CREATE (e:<label> {name: $name, ...$props}) RETURN e, elementId(e) as id].
    The three dots are JavaScript's.  A map of Cypher is a list of entries
    [key: expression], so that this text is no statement: the server
    refuses it, whatever the label and the parameters are. *)
| CreateNode (label name : string) (props : props)
(** [MATCH (e) WHERE elementId(e) = $id SET e += $props RETURN e] *)
| SetNode (id : nat) (props : props)
(** [MATCH (e) WHERE elementId(e) = $id [DETACH] DELETE e] *)
| DeleteNode (id : nat) (detach : bool)
(** [MATCH (from:<fl> {name: $from_name}) MATCH (to:<tl> {name: $to_name})
     CREATE (from)-[r:<type>]->(to) SET r += $props
     RETURN r, elementId(r) as id] *)
| CreateEdge (from_label from_name to_label to_name rel_type : string)
             (props : props)
(** [MATCH (m:Memory) WHERE m.content CONTAINS $query [AND m.type = $type]
     RETURN m ORDER BY m.importance DESC LIMIT $limit]; [type] is given
     exactly when the text has the second condition. *)
| MatchMemories (query : string) (type : option string) (limit : nat).

(** A field of a record. *)
Inductive field :=
| FNode (n : Node)
| FRel (r : Rel)
| FId (id : nat).

Definition record : Type := list (string * field).

(** What [session.run] resolves to: the records and, of the summary, the
    counter of deleted nodes. *)
Record RunResult := mkRunResult {
  records : list record;
  nodesDeleted : nat
}.

Definition has_id (id : nat) (n : Node) : bool := bool_decide (elementId n = id).

(** The relationships that start or end at the node [id]. *)
Definition touches (id : nat) (r : Rel) : bool :=
  bool_decide (startNode r = id) || bool_decide (endNode r = id).

(** The rows of two successive [MATCH] clauses: every match of the first
    with every match of the second. *)
Definition rows (froms tos : list Node) : list (Node * Node) :=
  flat_map (fun f => map (fun t => (f, t)) tos) froms.

(** The relationships created for the rows, numbered from [id]. *)
Fixpoint create_edges (rel_type : string) (p : props) (id : nat)
    (rs : list (Node * Node)) : list Rel :=
  match rs with
  | [] => []
  | (f, t) :: rs' =>
      mkRel id rel_type (elementId f) (elementId t) (set_props p ∅)
      :: create_edges rel_type p (S id) rs'
  end.

(** The condition of [MatchMemories] on a node. *)
Definition recalls (query : string) (type : option string) (m : Node) : bool :=
  has_label "Memory" m
  && match prop "content" m with
     | VStr c => Str.includes c query
     | _ => false
     end
  && match type with
     | Some t => bool_decide (prop "type" m = VStr t)
     | None => true
     end.

(** The error for a text that is no Cypher, which the driver raises as a
    [Neo4jError] (of the code [Neo.ClientError.Statement.SyntaxError]); the
    message of the server goes on to say what it expected, and where. *)
Definition SyntaxError : error := mkError "Neo4jError" "Invalid input '.'" None.

(** The effect of a statement on a database that is online. *)
Definition execute (st : statement) (g : Graph.t) : Res RunResult * Graph.t :=
  match st with
  | CreateNode label name p => (Throw SyntaxError, g)
  | SetNode id p =>
      let set e := if has_id id e
                   then mkNode (elementId e) (labels e) (set_props p (properties e))
                   else e in
      let nodes' := map set (nodes g) in
      (Ok (mkRunResult (map (fun e => [("e", FNode e)])
                          (List.filter (has_id id) nodes')) 0),
       mkGraph nodes' (rels g) (next_id g) (online g) (sessions g))
  | DeleteNode id detach =>
      let doomed := List.filter (has_id id) (nodes g) in
      let attached := List.filter (touches id) (rels g) in
      match doomed, attached, detach with
      | _ :: _, _ :: _, false =>
          (Throw (Error "Cannot delete node, because it still has relationships"), g)
      | _, _, _ =>
          (Ok (mkRunResult [] (List.length doomed)),
           mkGraph (List.filter (fun e => negb (has_id id e)) (nodes g))
                   (match doomed with
                    | [] => rels g
                    | _ :: _ => List.filter (fun r => negb (touches id r)) (rels g)
                    end)
                   (next_id g) (online g) (sessions g))
      end
  | CreateEdge from_label from_name to_label to_name rel_type p =>
      let froms := List.filter (matches from_label from_name) (nodes g) in
      let tos := List.filter (matches to_label to_name) (nodes g) in
      let created := create_edges rel_type p (next_id g) (rows froms tos) in
      (Ok (mkRunResult
             (map (fun r => [("r", FRel r); ("id", FId (rel_elementId r))]) created)
             0),
       mkGraph (nodes g) (rels g ++ created)
               (next_id g + List.length created) (online g) (sessions g))
  | MatchMemories query type limit =>
      let found := List.filter (recalls query type) (nodes g) in
      (Ok (mkRunResult
             (map (fun m => [("m", FNode m)])
                  (firstn limit (merge_sort importance_desc found)))
             0),
       g)
  end.

(** [session.run(text, params)]: rejects when the server cannot be
    reached. *)
Definition run (st : statement) : M World RunResult :=
  fun w =>
    if online (graph w) then
      let '(r, g') := execute st (graph w) in (r, set_graph g' w)
    else (Throw (Error "Could not perform discovery. No routing servers available."), w).

(** Modelled from the spec: [getSession] of services/neo4j-client.js, which
    is not among the sources.  Each operation opens a scoped session and
    releases it on every exit path: opening and closing are counted. *)
Definition getSession : M World unit :=
  fun w => let g := graph w in
           (Ok tt, set_graph (mkGraph (nodes g) (rels g) (next_id g) (online g)
                                (S (sessions g))) w).
(** [session.close()] *)
Definition session_close (w : World) : World :=
  let g := graph w in
  set_graph (mkGraph (nodes g) (rels g) (next_id g) (online g)
               (Nat.pred (sessions g))) w.

(** [result.records[0]], on which a method is called next. *)
Definition first_record (result : RunResult) : M World record :=
  match records result with
  | r :: _ => ret r
  | [] => throw (TypeError "Cannot read properties of undefined (reading 'get')")
  end.

Fixpoint get (key : string) (r : record) : option field :=
  match r with
  | [] => None
  | (k, f) :: r' => if bool_decide (k = key) then Some f else get key r'
  end.

Definition no_such_field {A} (key : string) : M World A :=
  throw (Error ("This record has no field with key '" +:+ key +:+ "'")).

(** [record.get(key)], for a field that holds a node, a relationship or an
    element id. *)
Definition get_node (key : string) (r : record) : M World Node :=
  match get key r with Some (FNode n) => ret n | _ => no_such_field key end.
Definition get_rel (key : string) (r : record) : M World Rel :=
  match get key r with Some (FRel x) => ret x | _ => no_such_field key end.
Definition get_id (key : string) (r : record) : M World nat :=
  match get key r with Some (FId x) => ret x | _ => no_such_field key end.

Record CreateEntityArgs := mkCreateEntityArgs {
  ce_label : string;
  ce_name : string;
  ce_properties : option props
}.

Record CreateEntityResult := mkCreateEntityResult {
  cer_success : bool;
  cer_id : nat;
  cer_label : string;
  cer_name : string;
  cer_properties : props
}.

Record UpdateEntityArgs := mkUpdateEntityArgs {
  ue_id : nat;
  ue_properties : props
}.

Record UpdateEntityResult := mkUpdateEntityResult {
  uer_success : bool;
  uer_id : nat;
  uer_properties : props
}.

Record DeleteEntityArgs := mkDeleteEntityArgs {
  de_id : nat;
  de_detach : option bool
}.

Record DeleteEntityResult := mkDeleteEntityResult {
  der_success : bool;
  der_id : nat;
  der_deleted : bool
}.

Record CreateRelationshipArgs := mkCreateRelationshipArgs {
  cr_from_label : string;
  cr_from_name : string;
  cr_to_label : string;
  cr_to_name : string;
  cr_relationship_type : string;
  cr_properties : option props
}.

Record CreateRelationshipResult := mkCreateRelationshipResult {
  crr_success : bool;
  crr_id : nat;
  crr_from : string;
  crr_to : string;
  crr_type : string;
  crr_properties : props
}.

Record QueryGraphArgs := mkQueryGraphArgs {
  qg_query : statement
}.

(** The timing figures of the summary are left out. *)
Record QueryGraphResult := mkQueryGraphResult {
  qgr_success : bool;
  qgr_records : list record;
  qgr_recordsReturned : nat
}.

Section Handlers.
Context `{Env}.

(** [new Date().toISOString()] as a property value. *)
Definition timestamp : M World value :=
  now <- new_Date ;; ret (VStr (toISOString now)).

Definition create_entity (args : CreateEntityArgs) : M World CreateEntityResult :=
  let label := ce_label args in
  let name := ce_name args in
  let properties := default ∅ (ce_properties args) in
  getSession ;;;
  try_finally
    (createdAt <- timestamp ;;
     result <- run (CreateNode label name (<["createdAt" := createdAt]> properties)) ;;
     record <- first_record result ;;
     node <- get_node "e" record ;;
     id <- get_id "id" record ;;
     ret (mkCreateEntityResult true id label name (Graph.properties node)))
    session_close.

Definition update_entity (args : UpdateEntityArgs) : M World UpdateEntityResult :=
  let id := ue_id args in
  let properties := ue_properties args in
  getSession ;;;
  try_finally
    (updatedAt <- timestamp ;;
     result <- run (SetNode id (<["updatedAt" := updatedAt]> properties)) ;;
     match records result with
     | [] => throw (Error ("Entity not found: " +:+ pretty id))
     | _ :: _ =>
         record <- first_record result ;;
         node <- get_node "e" record ;;
         ret (mkUpdateEntityResult true id (Graph.properties node))
     end)
    session_close.

Definition delete_entity (args : DeleteEntityArgs) : M World DeleteEntityResult :=
  let id := de_id args in
  let detach := default false (de_detach args) in
  getSession ;;;
  try_finally
    (result <- run (DeleteNode id detach) ;;
     ret (mkDeleteEntityResult true id (0 <? nodesDeleted result)%nat))
    session_close.

Definition create_relationship (args : CreateRelationshipArgs)
  : M World CreateRelationshipResult :=
  let from_name := cr_from_name args in
  let to_name := cr_to_name args in
  let relationship_type := cr_relationship_type args in
  let properties := default ∅ (cr_properties args) in
  getSession ;;;
  try_finally
    (createdAt <- timestamp ;;
     result <- run (CreateEdge (cr_from_label args) from_name
                      (cr_to_label args) to_name
                      (Str.toUpperCase relationship_type)
                      (<["createdAt" := createdAt]> properties)) ;;
     match records result with
     | [] => throw (Error "One or both entities not found")
     | _ :: _ =>
         record <- first_record result ;;
         relationship <- get_rel "r" record ;;
         id <- get_id "id" record ;;
         ret (mkCreateRelationshipResult true id from_name to_name
                relationship_type (rel_properties relationship))
     end)
    session_close.

Definition query_graph (args : QueryGraphArgs) : M World QueryGraphResult :=
  getSession ;;;
  try_finally
    (result <- run (qg_query args) ;;
     let records := records result in
     ret (mkQueryGraphResult true records (List.length records)))
    session_close.

End Handlers.
End Neo4j.


(** ** The Memory Orchestrator (mcp/tools/memory-tools.js) *)

Module Memory.
Import Str.

(** The two modules the orchestrator imports, by the handlers it calls.
    The orchestrator is written against these interfaces, so that it can
    be run on the adapters above and on any stand-in for them. *)
Record Neo4jHandlers := mkNeo4jHandlers {
  create_entity : Neo4j.CreateEntityArgs -> M World Neo4j.CreateEntityResult;
  create_relationship :
    Neo4j.CreateRelationshipArgs -> M World Neo4j.CreateRelationshipResult;
  query_graph : Neo4j.QueryGraphArgs -> M World Neo4j.QueryGraphResult
}.

Record ObsidianHandlers := mkObsidianHandlers {
  create_note : Obsidian.CreateNoteArgs -> M World Obsidian.WriteNoteResult;
  search_notes : Obsidian.SearchNotesArgs -> M World Obsidian.SearchNotesResult
}.

(** [for (const x of xs) { body }] *)
Fixpoint for_of {A} (xs : list A) (body : A -> M World unit) : M World unit :=
  match xs with
  | [] => ret tt
  | x :: xs' => body x ;;; for_of xs' body
  end.

(** [xs.map(f)] for an [f] that may throw. *)
Fixpoint map_throwing {A B} (f : A -> M World B) (xs : list A) : M World (list B) :=
  match xs with
  | [] => ret []
  | x :: xs' => y <- f x ;; ys <- map_throwing f xs' ;; ret (y :: ys)
  end.

Record EntityRef := mkEntityRef {
  er_label : option string;
  er_name : string
}.

Record StoreMemoryArgs := mkStoreMemoryArgs {
  sm_content : string;
  sm_type : string;
  sm_tags : option (list string);
  sm_entities : option (list EntityRef);
  sm_importance : option Qc;
  sm_source : option string
}.

Record StoreMemoryResult := mkStoreMemoryResult {
  smr_success : bool;
  smr_memoryId : string;
  smr_type : string;
  smr_importance : Qc;
  smr_timestamp : string;
  smr_stored_neo4j : bool;
  smr_stored_obsidian : bool
}.

Record RecallMemoryArgs := mkRecallMemoryArgs {
  rm_query : string;
  rm_type : option string;
  rm_tags : option (list string);
  rm_limit : option nat
}.

(** A memory found in the graph: [id], [content], [type], [importance] and
    [createdAt] as the node has them. *)
Record GraphMemory := mkGraphMemory {
  gm_id : Graph.value;
  gm_content : Graph.value;
  gm_type : Graph.value;
  gm_importance : Graph.value;
  gm_createdAt : Graph.value
}.

(** An element of [memories]: a graph memory with [source: 'neo4j'], or
    [{ id, content, source: 'obsidian', path }]. *)
Inductive MemoryItem :=
| FromGraph (m : GraphMemory)
| FromNotes (id content path : string).

Definition source (m : MemoryItem) : string :=
  match m with
  | FromGraph _ => "neo4j"
  | FromNotes _ _ _ => "obsidian"
  end.

Record RecallMemoryResult := mkRecallMemoryResult {
  rmr_success : bool;
  rmr_query : string;
  rmr_memories : list MemoryItem;
  rmr_count_neo4j : nat;
  rmr_count_obsidian : nat;
  rmr_count_total : nat
}.

Record KnowledgeLinkArgs := mkKnowledgeLinkArgs {
  kl_from_name : string;
  kl_to_name : string;
  kl_relationship : string;
  kl_strength : option Qc;
  kl_notes : option string
}.

(** [{ success: true, ...result }], with [created: true] after the
    retry. *)
Record KnowledgeLinkResult := mkKnowledgeLinkResult {
  klr_success : bool;
  klr_created : bool;
  klr_link : Neo4j.CreateRelationshipResult
}.

(** A property that may be [undefined]. *)
Definition optional_string (o : option string) : Graph.value :=
  match o with Some x => Graph.VStr x | None => Graph.VNull end.

(** [r.m.properties]: fails on a record without a node [m]. *)
Definition graph_memory (r : Neo4j.record) : M World GraphMemory :=
  match Neo4j.get "m" r with
  | Some (Neo4j.FNode m) =>
      ret (mkGraphMemory (Graph.prop "id" m) (Graph.prop "content" m)
             (Graph.prop "type" m) (Graph.prop "importance" m)
             (Graph.prop "createdAt" m))
  | _ => throw (TypeError "Cannot read properties of undefined (reading 'properties')")
  end.

(** [m.snippets?.map(s => s.text).join('\n') || ''] *)
Definition note_content (m : Obsidian.SearchHit) : string :=
  match Obsidian.snippets m with
  | Some ss => join (map Obsidian.snippet_text ss) LF
  | None => ""
  end.

Definition note_memory (m : Obsidian.SearchHit) : MemoryItem :=
  FromNotes (Obsidian.hit_filename m) (note_content m) (Obsidian.hit_path m).

Section Orchestrator.
Context `{Env} (neo4jHandlers : Neo4jHandlers) (obsidianHandlers : ObsidianHandlers).

(** The first [try] block of [store_memory]: the entity of the memory,
    then its tags and the entities it mentions, each on its own [try]. *)
Definition store_in_neo4j (memoryId memoryName timestamp content type source : string)
    (importance : Qc) (tags : list string) (entities : list EntityRef)
  : M World unit :=
  try_catch
    (create_entity neo4jHandlers
       (Neo4j.mkCreateEntityArgs "Memory" memoryName
          (Some (<["id" := Graph.VStr memoryId]>
                   (<["content" := Graph.VStr content]>
                      (<["type" := Graph.VStr type]>
                         (<["importance" := Graph.VNum importance]>
                            (<["source" := Graph.VStr source]>
                               (<["createdAt" := Graph.VStr timestamp]> ∅)))))))) ;;;
     let tagLabel := "Tag" in
     for_of tags (fun tag =>
       try_catch
         (create_entity neo4jHandlers
            (Neo4j.mkCreateEntityArgs tagLabel tag (Some ∅)) ;;;
          create_relationship neo4jHandlers
            (Neo4j.mkCreateRelationshipArgs "Memory" memoryName tagLabel tag
               "TAGGED_WITH" None) ;;;
          ret tt)
         (fun e => ret tt)) ;;;
     for_of entities (fun entity =>
       try_catch
         (create_relationship neo4jHandlers
            (Neo4j.mkCreateRelationshipArgs "Memory" memoryName
               (default "Entity" (Obsidian.truthy (er_label entity)))
               (er_name entity) "MENTIONS" None) ;;;
          ret tt)
         (fun e => ret tt)))
    (fun error => ret tt).

(** The second [try] block: the note that mirrors the memory. *)
Definition store_in_obsidian (memoryId dateStr content type : string)
    (tags : list string) : M World unit :=
  try_catch
    (let filename := "memory/" +:+ dateStr +:+ "/" +:+ memoryId +:+ ".md" in
     create_note obsidianHandlers
       (Obsidian.mkCreateNoteArgs filename
          (Some (toUpperCase (charAt type 0) +:+ slice_from type 1 +:+ ": "
                 +:+ substring content 0 50 +:+ "..."))
          content
          (Some ("memory" :: type :: tags))
          (Some "log")) ;;;
     ret tt)
    (fun error => ret tt).

Definition store_memory (args : StoreMemoryArgs) : M World StoreMemoryResult :=
  let content := sm_content args in
  let type := sm_type args in
  let tags := default [] (sm_tags args) in
  let entities := default [] (sm_entities args) in
  let importance := default (Q2Qc (1 # 2)) (sm_importance args) in
  let source := default "user" (sm_source args) in
  now <- new_Date ;;
  let timestamp := toISOString now in
  let dateStr := hd "" (split timestamp "T"%char) in
  now_ms <- new_Date ;;
  draw <- Math_random ;;
  let memoryId := "mem_" +:+ date_now now_ms +:+ "_" +:+ random_suffix draw in
  let memoryName := "Memory_" +:+ memoryId in
  store_in_neo4j memoryId memoryName timestamp content type source importance
    tags entities ;;;
  store_in_obsidian memoryId dateStr content type tags ;;;
  ret (mkStoreMemoryResult true memoryId type importance timestamp true true).

(** The first [try] block of [recall_memory]: what it leaves in
    [results.neo4j]. *)
Definition search_neo4j (query : string) (type : option string) (limit : nat)
  : M World (list GraphMemory) :=
  try_catch
    (neoResult <- query_graph neo4jHandlers
                    (Neo4j.mkQueryGraphArgs (Neo4j.MatchMemories query type limit)) ;;
     map_throwing graph_memory (Neo4j.qgr_records neoResult))
    (fun error => ret []).

(** The filter on the notes found: all of them without a type, those
    under a path with [memory/<type>] otherwise (a search hit has no
    [tags]). *)
Definition of_type (type : option string) (r : Obsidian.SearchHit) : bool :=
  match type with
  | None => true
  | Some t => includes (Obsidian.hit_path r) ("memory/" +:+ t)
  end.

(** The second [try] block: what it leaves in [results.obsidian]. *)
Definition search_obsidian (query : string) (type : option string) (limit : nat)
  : M World (list Obsidian.SearchHit) :=
  try_catch
    (obsResult <- search_notes obsidianHandlers
                    (Obsidian.mkSearchNotesArgs query (Some false) (Some true)
                       (Some limit)) ;;
     ret (List.filter (of_type type) (Obsidian.sr_results obsResult)))
    (fun error => ret []).

Definition recall_memory (args : RecallMemoryArgs) : M World RecallMemoryResult :=
  let query := rm_query args in
  let type := Obsidian.truthy (rm_type args) in
  let limit := default 10 (rm_limit args) in
  results_neo4j <- search_neo4j query type limit ;;
  results_obsidian <- search_obsidian query type limit ;;
  let allMemories :=
    map FromGraph results_neo4j ++ map note_memory results_obsidian in
  ret (mkRecallMemoryResult true query (firstn limit allMemories)
         (List.length results_neo4j) (List.length results_obsidian)
         (List.length allMemories)).

Definition create_knowledge_link (args : KnowledgeLinkArgs)
  : M World KnowledgeLinkResult :=
  let from_name := kl_from_name args in
  let to_name := kl_to_name args in
  let relationship := kl_relationship args in
  let strength := default (Q2Qc (1 # 2)) (kl_strength args) in
  let notes := kl_notes args in
  try_catch
    (now <- new_Date ;;
     result <- create_relationship neo4jHandlers
                 (Neo4j.mkCreateRelationshipArgs "Concept" from_name
                    "Concept" to_name (toUpperCase relationship)
                    (Some (<["strength" := Graph.VNum strength]>
                             (<["notes" := optional_string notes]>
                                (<["createdAt" := Graph.VStr (toISOString now)]> ∅))))) ;;
     ret (mkKnowledgeLinkResult true false result))
    (fun error =>
       try_catch
         (create_entity neo4jHandlers
            (Neo4j.mkCreateEntityArgs "Concept" from_name (Some ∅)) ;;;
          create_entity neo4jHandlers
            (Neo4j.mkCreateEntityArgs "Concept" to_name (Some ∅)) ;;;
          result <- create_relationship neo4jHandlers
                      (Neo4j.mkCreateRelationshipArgs "Concept" from_name
                         "Concept" to_name (toUpperCase relationship)
                         (Some (<["strength" := Graph.VNum strength]>
                                  (<["notes" := optional_string notes]> ∅)))) ;;
          ret (mkKnowledgeLinkResult true true result))
         (fun retryError =>
            throw (Error ("Failed to create link: " +:+ message retryError)))).

End Orchestrator.

(** The modules as the orchestrator imports them. *)
Definition neo4jHandlers `{Env} : Neo4jHandlers :=
  mkNeo4jHandlers Neo4j.create_entity Neo4j.create_relationship Neo4j.query_graph.
Definition obsidianHandlers `{Env} : ObsidianHandlers :=
  mkObsidianHandlers Obsidian.create_note Obsidian.search_notes.

End Memory.


(** ** An executable environment

    A plain reading of the [path] module for absolute paths without [.] and
    [..], a clock that prints its tick and a generator that prints its
    draw; used to run the handlers on examples. *)

Module Posix.
Import Str.

Definition join (a b : string) : string := a +:+ "/" +:+ b.
Definition dirname (p : string) : string :=
  Str.join (removelast (split p "/"%char)) "/".
Definition relative (from to : string) : string :=
  if startsWith to (from +:+ "/") then drop (String.length from + 1) to else to.
Definition components (p : string) : Fs.path :=
  filter (fun name => name <> "") (split p "/"%char).

Definition env : Env := {|
  VAULT_PATH := "/vault";
  path_join := join;
  path_relative := relative;
  path_dirname := dirname;
  resolve := components;
  toISOString := fun n => "2024-01-01T00:00:00." +:+ pretty n +:+ "Z";
  toLocaleDateString := fun _ => "1/1/2024";
  toLocaleString := fun n => "1/1/2024, 12:00:00 AM";
  date_now := fun n => pretty (1704067200000 + N.of_nat n)%N;
  random_suffix := fun n => "r" +:+ pretty n
|}.

(** An empty vault, an empty graph. *)
Definition empty_world : World :=
  mkWorld (Fs.Dir true [("vault", Fs.Dir true [])])
          (Graph.mkGraph [] [] 0 true 0) 0 0.

(** A vault with a note at the top and three notes in a directory. *)
Definition sample_vault : World :=
  mkWorld
    (Fs.Dir true
       [("vault", Fs.Dir true
           [("a.md", Fs.File true "test one");
            ("d", Fs.Dir true [("b.md", Fs.File true "a Test");
                               ("c.md", Fs.File true "testtest");
                               ("e.md", Fs.File true "test")]);
            ("z.md", Fs.File true "test")])])
    (Graph.mkGraph [] [] 0 true 0) 0 0.

(** An empty vault and a graph that holds two concepts, [A] and [B]. *)
Definition two_concepts : World :=
  mkWorld (Fs.Dir true [("vault", Fs.Dir true [])])
    (Graph.mkGraph
       [ Graph.mkNode 0 ["Concept"]
           (<["createdAt" := Graph.VStr "2024-01-01T00:00:00.0Z"]>
              {[ "name" := Graph.VStr "A" ]});
         Graph.mkNode 1 ["Concept"]
           (<["createdAt" := Graph.VStr "2024-01-01T00:00:00.1Z"]>
              {[ "name" := Graph.VStr "B" ]}) ]
       [] 2 true 0) 2 0.

(** The memory "test" in both stores: the vault is as
    [store_memory({content: "test", type: "fact"})] on the two adapters
    leaves it, and the graph holds the node of the memory. *)
Definition one_memory : World :=
  set_graph
    (Graph.mkGraph
       [ Graph.mkNode 0 ["Memory"]
           (list_to_map
              [ ("name", Graph.VStr "Memory_mem_1704067200001_r0");
                ("id", Graph.VStr "mem_1704067200001_r0");
                ("content", Graph.VStr "test");
                ("type", Graph.VStr "fact");
                ("importance", Graph.VNum (Q2Qc (1 # 2)));
                ("source", Graph.VStr "user");
                ("createdAt", Graph.VStr "2024-01-01T00:00:00.2Z") ]) ]
       [] 1 true 0)
    (Memory.store_memory (H := env) (Memory.neo4jHandlers (H := env))
       (Memory.obsidianHandlers (H := env))
       (Memory.mkStoreMemoryArgs "test" "fact" None None None None)
       empty_world).2.


(** A world in which neither store can be written: the graph is offline
    and the vault is a file. *)
Definition broken_world : World :=
  mkWorld (Fs.Dir true [("vault", Fs.File true "")])
          (Graph.mkGraph [] [] 0 false 0) 0 0.

(** A vault without directories. *)
Definition flat_vault : World :=
  mkWorld
    (Fs.Dir true
       [("vault", Fs.Dir true [("a.md", Fs.File true "test one");
                               ("b.md", Fs.File true "a Test");
                               ("c.md", Fs.File true "testtest")])])
    (Graph.mkGraph [] [] 0 true 0) 0 0.



End Posix.


(** * The vocabulary of the properties *)

Section Vocabulary.
Import Str Graph Neo4j Obsidian Memory.
Context `{Env}.

(** The front-matter of the round trip. *)
Definition sample_frontmatter : list (string * fmvalue) :=
  [("tags", FmArray ["a"; "b"]); ("created", FmString "2024-01-01")].

(** What the walk of the vault has accumulated when [search_notes] cuts it
    to [limit]. *)
Definition accumulated (args : SearchNotesArgs) (w : World)
  : list SearchHit :=
  match Fs.lookup (resolve VAULT_PATH) (fs w) with
  | inr node =>
      searchInDir (negb (default false (sn_case_sensitive args)))
        (default false (sn_include_content args)) (sn_query args)
        (default 50 (sn_limit args)) VAULT_PATH node
  | inl _ => []
  end.

(** The world after a handler that ran one statement with a time stamp:
    the clock has been read once, the session is closed again. *)
Definition stamped (g : Graph.t) (w : World) : World :=
  mkWorld (fs w) g (S (clock w)) (draws w).

Definition with_nodes (ns : list Node) (next : nat) (g : Graph.t) : Graph.t :=
  mkGraph ns (rels g) next (online g) (sessions g).

Definition with_rels (rs : list Rel) (next : nat) (g : Graph.t) : Graph.t :=
  mkGraph (nodes g) rs next (online g) (sessions g).

(** A name that can be spliced into a text as a label or as a type: made
    of the letters a to z and A to Z, the digits and the underscore, and
    not beginning with a digit. *)
Definition is_digit (c : ascii) : bool :=
  let n := nat_of_ascii c in ((48 <=? n) && (n <=? 57))%nat.

Definition is_small (c : ascii) : bool :=
  let n := nat_of_ascii c in ((97 <=? n) && (n <=? 122))%nat.

Definition is_capital (c : ascii) : bool :=
  let n := nat_of_ascii c in ((65 <=? n) && (n <=? 90))%nat.

Definition name_char (c : ascii) : bool :=
  is_small c || is_capital c || is_digit c || bool_decide (c = "_"%char).

Fixpoint name_chars (s : string) : bool :=
  match s with
  | "" => true
  | String c s' => name_char c && name_chars s'
  end.

Definition is_name (s : string) : bool :=
  match s with
  | "" => false
  | String c _ => negb (is_digit c) && name_chars s
  end.

(** [t] is the name [s] in upper case: character by character, a small
    letter has become the capital letter, 32 places before it, and
    everything else is what it was. *)
Fixpoint uppercased (s t : string) : bool :=
  match s, t with
  | "", "" => true
  | String c s', String d t' =>
      (if is_small c
       then (nat_of_ascii d + 32 =? nat_of_ascii c)%nat
       else bool_decide (d = c))
      && uppercased s' t'
  | _, _ => false
  end.

(** The relationships [create_relationship] makes in the world [w]. *)
Definition new_edges (args : CreateRelationshipArgs) (w : World) : list Rel :=
  create_edges (Str.toUpperCase (cr_relationship_type args))
    (<["createdAt" := VStr (toISOString (clock w))]>
       (default ∅ (cr_properties args)))
    (next_id (graph w))
    (rows (List.filter (matches (cr_from_label args) (cr_from_name args))
             (nodes (graph w)))
          (List.filter (matches (cr_to_label args) (cr_to_name args))
             (nodes (graph w)))).

(** The world once the clock has been read. *)
Definition tick (w : World) : World :=
  mkWorld (fs w) (graph w) (S (clock w)) (draws w).

(** The arguments of the first attempt and of the retry. *)
Definition first_link (args : KnowledgeLinkArgs) (w : World)
  : CreateRelationshipArgs :=
  mkCreateRelationshipArgs "Concept" (kl_from_name args) "Concept"
    (kl_to_name args) (Str.toUpperCase (kl_relationship args))
    (Some (<["strength" := VNum (default (Q2Qc (1 # 2)) (kl_strength args))]>
             (<["notes" := optional_string (kl_notes args)]>
                (<["createdAt" := VStr (toISOString (clock w))]> ∅)))).

Definition retry_link (args : KnowledgeLinkArgs) : CreateRelationshipArgs :=
  mkCreateRelationshipArgs "Concept" (kl_from_name args) "Concept"
    (kl_to_name args) (Str.toUpperCase (kl_relationship args))
    (Some (<["strength" := VNum (default (Q2Qc (1 # 2)) (kl_strength args))]>
             (<["notes" := optional_string (kl_notes args)]> ∅))).

Definition concept (name : string) : CreateEntityArgs :=
  mkCreateEntityArgs "Concept" name (Some ∅).

(** [{ id, content, type, importance, createdAt }] of a node. *)
Definition row_of (m : Node) : GraphMemory :=
  mkGraphMemory (prop "id" m) (prop "content" m) (prop "type" m)
    (prop "importance" m) (prop "createdAt" m).

(** The graph-store results: the memories that match, by importance in
    descending order, at most [limit] of them; none from a store that
    cannot be reached. *)
Definition graph_hits (query : string) (type : option string) (limit : nat)
    (g : Graph.t) : list GraphMemory :=
  if online g then
    map row_of (firstn limit (merge_sort importance_desc
                                (List.filter (Neo4j.recalls query type) (nodes g))))
  else [].

(** The note-store results: the hits of [search_notes] that pass the
    filter on the type. *)
Definition note_hits (query : string) (type : option string) (limit : nat)
    (w : World) : list Obsidian.SearchHit :=
  List.filter (of_type type)
    (firstn limit
       (accumulated (Obsidian.mkSearchNotesArgs query (Some false) (Some true)
                       (Some limit)) w)).

(** [P] is kept by the computation [m]. *)
Definition kept {A} (P : World -> Prop) (m : M World A) : Prop :=
  forall w, P w -> P (m w).2.





(** A note store, real or a stand-in, has no hand in the graph. *)
Definition leaves_graph (obs : ObsidianHandlers) : Prop :=
  forall args w, graph (create_note obs args w).2 = graph w.

(** The graph of the world is [g]. *)
Definition graph_is (g : Graph.t) (w : World) : Prop := graph w = g.

End Vocabulary.

(** * Further operations of the sources *)

(** ** The Note Store Adapter, continued: [append_note] and [list_notes] *)

Module Notes.
Import Str Obsidian.

Record AppendNoteArgs := mkAppendNoteArgs {
  an_filename : string;
  an_content : string;
  an_separator : option string
}.

Record AppendNoteResult := mkAppendNoteResult {
  ar_success : bool;
  ar_filename : string;
  ar_previousSize : nat;
  ar_newSize : nat
}.

Record ListNotesArgs := mkListNotesArgs {
  ln_directory : option string;
  ln_tag : option string;
  ln_recursive : option bool;
  ln_limit : option nat
}.

Record NoteEntry := mkNoteEntry {
  ne_filename : string;
  ne_path : string;
  ne_directory : string
}.

Record ListNotesResult := mkListNotesResult {
  lr_success : bool;
  lr_notes : list NoteEntry;
  lr_count : nat
}.

(** [const tags = frontmatter?.tags || []] followed by
    [Array.isArray(tags) ? tags : [tags]], as far as [includes] of a
    string can tell: [false] and the empty string are falsy and give no
    tag, [true] is an element that no string equals. *)
Definition tagArray (frontmatter : option fmobject) : list string :=
  match frontmatter with
  | None => []
  | Some o =>
      match o !! "tags" with
      | Some (FmArray vs) => vs
      | Some (FmString "") => []
      | Some (FmString s) => [s]
      | Some (FmBool _) => []
      | None => []
      end
  end.

(** The check of the tag on a file: [false] stands for [continue], which
    is also what a file that cannot be read ends in. *)
Definition has_tag (tag : string) (file : Fs.node) : bool :=
  match Fs.read_node file with
  | inl _ => false
  | inr content =>
      bool_decide (tag ∈ tagArray (frontmatter (parseFrontmatter content)))
  end.

Section Handlers.
Context `{Env}.

Definition append_note (args : AppendNoteArgs) : M World AppendNoteResult :=
  let filename := an_filename args in
  let content := an_content args in
  let separator := default (LF +:+ LF) (an_separator args) in
  let filePath := getFilePath filename in
  try_catch
    (existing <- fs_readFile filePath ;;
     let newContent := existing +:+ separator +:+ content in
     fs_writeFile filePath newContent ;;;
     ret (mkAppendNoteResult true filename (byteLength existing)
            (byteLength newContent)))
    (fun error =>
       if bool_decide (code error = Some ENOENT)
       then throw (Error ("Note not found: " +:+ filename
                          +:+ ". Use write_note to create new notes."))
       else throw error).

(** [walkDir(dir)], where [node] is what [dir] leads to; [tag] is [None]
    when no tag is asked for (an empty tag is falsy).  The loop is left
    when a file has brought [results] to [limit]. *)
Fixpoint walkDir (tag : option string) (recursive : bool) (limit : nat)
    (dir : string) (node : Fs.node) {struct node} : list NoteEntry :=
  match node with
  | Fs.Dir true entries =>
      (fix loop (entries : list (string * Fs.node)) (results : list NoteEntry)
           {struct entries} : list NoteEntry :=
         match entries with
         | [] => results
         | (name, entry) :: rest =>
             if Fs.isDirectory entry && recursive then
               loop rest (results ++ walkDir tag recursive limit
                                       (path_join dir name) entry)
             else if Fs.isFile entry && endsWith name ".md" then
               let filePath := path_join dir name in
               let relativePath := path_relative VAULT_PATH filePath in
               if match tag with
                  | Some t => has_tag t entry
                  | None => true
                  end
               then
                 let results' :=
                   results ++ [mkNoteEntry name relativePath
                                 (path_dirname relativePath)] in
                 if (limit <=? List.length results')%nat then results'
                 else loop rest results'
               else loop rest results
             else loop rest results
         end) entries []
  | _ => []
  end.

Definition list_notes (args : ListNotesArgs) : M World ListNotesResult :=
  let directory := truthy (ln_directory args) in
  let tag := truthy (ln_tag args) in
  let recursive := default true (ln_recursive args) in
  let limit := default 100 (ln_limit args) in
  let searchPath := match directory with
                    | Some d => path_join VAULT_PATH d
                    | None => VAULT_PATH
                    end in
  w <- get ;;
  let notes :=
    match Fs.lookup (resolve searchPath) (fs w) with
    | inr node => walkDir tag recursive limit searchPath node
    | inl _ => []
    end in
  ret (mkListNotesResult true (firstn limit notes) (List.length notes)).

End Handlers.
End Notes.

(** ** The Graph Store Adapter, continued: [find_entities] *)

Module Entities.
Import Graph Neo4j.

(** A parameter bound to a text. *)
Inductive param :=
| PNum (n : nat)
| PStr (s : string).

Record FindEntitiesArgs := mkFindEntitiesArgs {
  fe_label : option string;
  fe_name_contains : option string;
  fe_limit : option nat
}.

(** [label] is [node.labels[0]], undefined on a node without label. *)
Record Entity := mkEntity {
  en_id : nat;
  en_label : option string;
  en_properties : props
}.

Record FindEntitiesResult := mkFindEntitiesResult {
  fer_success : bool;
  fer_entities : list Entity;
  fer_count : nat
}.

Definition entity_of (node : Node) : Entity :=
  mkEntity (elementId node) (head (labels node)) (properties node).

Section Handlers.
(** [session.run(query, params)] for the text that the handler builds,
    whatever the server makes of it. *)
Context (session_run : string -> list (string * param) -> M World RunResult).

Definition find_entities (args : FindEntitiesArgs) : M World FindEntitiesResult :=
  let label := fe_label args in
  let name_contains := fe_name_contains args in
  let limit := default 50 (fe_limit args) in
  getSession ;;;
  try_finally
    (let query := "MATCH (e" +:+ match Obsidian.truthy label with
                                 | Some l => ":" +:+ l
                                 | None => ""
                                 end in
     let params := [("limit", PNum limit)] in
     let '(query, params) :=
       match Obsidian.truthy name_contains with
       | Some s => (query +:+ ") WHERE e.name CONTAINS $name_contains",
                    params ++ [("name_contains", PStr s)])
       | None => (query +:+ ")", params)
       end in
     let query := query +:+ " RETURN e LIMIT $limit" in
     result <- session_run query params ;;
     entities <- Memory.map_throwing
                   (fun record => node <- get_node "e" record ;; ret (entity_of node))
                   (records result) ;;
     ret (mkFindEntitiesResult true entities (List.length entities)))
    session_close.

End Handlers.
End Entities.

(** ** The Memory Orchestrator, continued (mcp/tools/memory-tools.js) *)

Module Recollection.
Import Graph Memory.

(** The query texts of the handlers below, with their parameters.
    [MemoriesByDate] carries the type exactly when the text has the
    condition on it. *)
Inductive query :=
(** [MATCH (c:Concept {name: $concept})-[r*1..<depth>]-(related)
     RETURN c, r, related LIMIT $limit] *)
| KnowledgeGraph (concept : string) (depth limit : nat)
(** [MATCH (m:Memory) WHERE m.createdAt >= $from AND m.createdAt <= $to
     [AND m.type = $type] RETURN m ORDER BY m.createdAt DESC] *)
| MemoriesByDate (from to : string) (type : option string).

(** The handlers of the graph store that are called, whatever answers
    them.  The records of [query_graph] are plain objects, one property
    for each key of the record. *)
Record GraphHandlers := mkGraphHandlers {
  query_graph : query -> M World Neo4j.QueryGraphResult;
  update_entity : Neo4j.UpdateEntityArgs -> M World Neo4j.UpdateEntityResult
}.

Record KnowledgeGraphArgs := mkKnowledgeGraphArgs {
  kg_concept : string;
  kg_depth : option nat;
  kg_limit : option nat
}.

Record GraphNode := mkGraphNode {
  gn_id : nat;
  gn_name : value;
  gn_label : option string
}.

Record GraphLink := mkGraphLink {
  gl_source : value;
  gl_target : value;
  gl_type : string;
  gl_strength : value
}.

Record KnowledgeGraphResult := mkKnowledgeGraphResult {
  kgr_success : bool;
  kgr_concept : option string;
  kgr_error : option string;
  kgr_nodes : list GraphNode;
  kgr_links : list GraphLink
}.

Record DateSearchArgs := mkDateSearchArgs {
  ds_from : string;
  ds_to : string;
  ds_type : option string
}.

Record DateSearchResult := mkDateSearchResult {
  dsr_success : bool;
  dsr_from : option string;
  dsr_to : option string;
  dsr_error : option string;
  dsr_memories : list GraphMemory;
  dsr_count : option nat
}.

Record ImportanceArgs := mkImportanceArgs {
  im_id : nat;
  im_importance : Qc;
  im_reason : option string
}.

Record ImportanceResult := mkImportanceResult {
  imr_success : bool;
  imr_id : option nat;
  imr_importance : option Qc;
  imr_reason : option string;
  imr_error : option string
}.

(** What [record.get] may give: a node, a relationship, an array of
    such, or anything else. *)
#[warnings="-register-all"]
Inductive item :=
| INode (n : Node)
| IRel (r : Rel)
| IArray (xs : list item)
| IOther.

(** [x.length] as the bound of a loop: a value without a length stops the
    loop at once. *)
Definition length_of (x : item) : nat :=
  match x with
  | IArray xs => List.length xs
  | _ => 0
  end.

(** [x[i]]: [undefined] outside an array and beyond its end. *)
Definition element (x : item) (i : nat) : option item :=
  match x with
  | IArray xs => xs !! i
  | _ => None
  end.

(** What stands where a node, or a relationship, is used: anything else
    has not the properties that are read of it next. *)
Definition as_node (x : option item) : M World Node :=
  match x with
  | Some (INode n) => ret n
  | _ => throw (TypeError "Cannot read properties of undefined (reading 'name')")
  end.

Definition as_rel (x : option item) : M World Rel :=
  match x with
  | Some (IRel r) => ret r
  | _ => throw (TypeError "Cannot read properties of undefined (reading 'type')")
  end.

(** A property of a map of properties; a missing one reads as [null]. *)
Definition prop_of (key : string) (p : props) : value :=
  default VNull (p !! key).

(** [if (v)] for a property value. *)
Definition truthy (v : value) : bool :=
  match v with
  | VNull => false
  | VBool b => b
  | VNum q => negb (Qeq_bool (this q) 0)
  | VStr s => negb (bool_decide (s = ""))
  end.

(** [for (const x of xs) { body }] for a body that works on the arrays
    [nodes] and [links]. *)
Fixpoint for_each {A S} (xs : list A) (s : S) (body : S -> A -> M World S)
  : M World S :=
  match xs with
  | [] => ret s
  | x :: xs' => s' <- body s x ;; for_each xs' s' body
  end.

Section Handlers.
Context `{Env} (neo4jHandlers : GraphHandlers).

(** [record.get(key)] on a record of [query_graph].  Such a record is a
    plain object with one property for each key of the row: its property
    [get] is the field of that name, if the row has one, and [undefined]
    otherwise, and neither can be called. *)
Definition record_get (record : Neo4j.record) (key : string) : M World item :=
  match Neo4j.get "get" record with
  | Some _ | None => throw (TypeError "record.get is not a function")
  end.

(** [if (!nodes.find(n => n.name === node.properties.name)) nodes.push(...)] *)
Definition push_node (nodes : list GraphNode) (node : Node) : list GraphNode :=
  if existsb (fun n => bool_decide (gn_name n = prop "name" node)) nodes
  then nodes
  else nodes ++ [mkGraphNode (elementId node) (prop "name" node)
                   (head (labels node))].

(** The body of the inner loop, for the index [i]. *)
Definition add_related (center : Node) (related relationships : item)
    (graph : list GraphNode * list GraphLink) (i : nat)
  : M World (list GraphNode * list GraphLink) :=
  relNode <- as_node (element related i) ;;
  let nodes := push_node graph.1 relNode in
  rel <- as_rel (element relationships i) ;;
  let strength := prop_of "strength" (rel_properties rel) in
  ret (nodes,
       graph.2 ++ [mkGraphLink (prop "name" center) (prop "name" relNode)
                     (type rel)
                     (if truthy strength then strength
                      else VNum (Q2Qc (1 # 2)))]).

(** The body of the loop over the records. *)
Definition add_record (graph : list GraphNode * list GraphLink)
    (record : Neo4j.record) : M World (list GraphNode * list GraphLink) :=
  center <- record_get record "c" ;;
  related <- record_get record "related" ;;
  relationships <- record_get record "r" ;;
  center <- as_node (Some center) ;;
  let nodes := push_node graph.1 center in
  for_each (seq 0 (length_of related)) (nodes, graph.2)
    (add_related center related relationships).

Definition get_knowledge_graph (args : KnowledgeGraphArgs)
  : M World KnowledgeGraphResult :=
  let concept := kg_concept args in
  let depth := default 2 (kg_depth args) in
  let limit := default 50 (kg_limit args) in
  try_catch
    (result <- query_graph neo4jHandlers (KnowledgeGraph concept depth limit) ;;
     graph <- for_each (Neo4j.qgr_records result) ([], []) add_record ;;
     ret (mkKnowledgeGraphResult true (Some concept) None graph.1 graph.2))
    (fun error =>
       ret (mkKnowledgeGraphResult false None (Some (message error)) [] [])).

Definition search_memories_by_date (args : DateSearchArgs)
  : M World DateSearchResult :=
  let from := ds_from args in
  let to := ds_to args in
  let type := Obsidian.truthy (ds_type args) in
  try_catch
    (result <- query_graph neo4jHandlers (MemoriesByDate from to type) ;;
     memories <- map_throwing graph_memory (Neo4j.qgr_records result) ;;
     ret (mkDateSearchResult true (Some from) (Some to) None memories
            (Some (List.length memories))))
    (fun error =>
       ret (mkDateSearchResult false None None (Some (message error)) [] None)).

(** A reason that is not given reaches the store as [null], as the other
    properties that may be [undefined] do. *)
Definition update_memory_importance (args : ImportanceArgs)
  : M World ImportanceResult :=
  let id := im_id args in
  let importance := im_importance args in
  let reason := im_reason args in
  try_catch
    (now <- new_Date ;;
     update_entity neo4jHandlers
       (Neo4j.mkUpdateEntityArgs id
          (<["importanceUpdatedAt" := VStr (toISOString now)]>
             (<["importanceReason" := optional_string reason]>
                (<["importance" := VNum importance]> ∅)))) ;;;
     ret (mkImportanceResult true (Some id) (Some importance) reason None))
    (fun error =>
       ret (mkImportanceResult false None None None (Some (message error)))).

End Handlers.

(** The imported module [neo4j-tools.js], as far as its handlers are
    modelled: [update_entity] is the adapter's. *)
Definition with_update_entity `{Env}
    (query_graph : query -> M World Neo4j.QueryGraphResult) : GraphHandlers :=
  mkGraphHandlers query_graph Neo4j.update_entity.

End Recollection.

(** ** Resources and prompts of the server (index.js) *)

Module Catalog.

Record Resource := mkResource {
  res_uri : string;
  res_name : string;
  res_description : string;
  res_mimeType : string
}.

Definition ListResources : list Resource :=
  [ mkResource "health://status" "Health Status"
      "Current health status of all services" "application/json";
    mkResource "config://mcp-hub" "MCP Hub Configuration"
      "Current configuration" "application/json" ].

(** The objects given to [JSON.stringify], kept structured. *)
Inductive resource_text :=
| HealthText (status timestamp neo4j ollama obsidian : string)
| ConfigText (name version : string) (tools : nat).

Record Contents := mkContents {
  co_uri : string;
  co_mimeType : string;
  co_text : resource_text
}.

Section Server.
Context `{Env} {Args Result W : Type}.

(** [Object.keys(allTools).length] is the number of own properties. *)
Definition ReadResource (allTools : gmap string (Dispatch.Tool Args Result W))
    (uri : string) : M World (list Contents) :=
  if bool_decide (uri = "health://status") then
    now <- new_Date ;;
    ret [ mkContents uri "application/json"
            (HealthText "healthy" (toISOString now)
               "connected" "connected" "available") ]
  else if bool_decide (uri = "config://mcp-hub") then
    ret [ mkContents uri "application/json"
            (ConfigText "mcp-superserver" "1.0.0" (size allTools)) ]
  else throw (Error ("Resource not found: " +:+ uri)).

End Server.

Record PromptArgument := mkPromptArgument {
  pa_name : string;
  pa_description : string;
  pa_required : bool
}.

Record Prompt := mkPrompt {
  pr_name : string;
  pr_description : string;
  pr_arguments : list PromptArgument
}.

Definition ListPrompts : list Prompt :=
  [ mkPrompt "analyze-memory" "Analyze stored memory for patterns"
      [ mkPromptArgument "query" "Query to analyze" true ];
    mkPrompt "store-observation" "Store a new observation in memory"
      [ mkPromptArgument "content" "Content to store" true;
        mkPromptArgument "tags" "Comma-separated tags" false ] ].

(** [{ role, content: { type: 'text', text } }] *)
Record Message := mkMessage {
  msg_role : string;
  msg_text : string
}.

(** [args?.key || '']: the arguments may be absent altogether. *)
Definition argument (args : option (gmap string string)) (key : string)
  : string :=
  default "" (args ≫= (fun a => a !! key)).

Definition GetPrompt {W} (name : string) (args : option (gmap string string))
  : M W (list Message) :=
  if bool_decide (name = "analyze-memory") then
    ret [ mkMessage "user"
            ("Analyze the following memory query: " +:+ argument args "query") ]
  else if bool_decide (name = "store-observation") then
    let content := argument args "content" in
    let tags := argument args "tags" in
    ret [ mkMessage "user"
            ("Store this observation: " +:+ String Str.QUOTE content +:+
             String Str.QUOTE Str.LF +:+ "Tags: " +:+ tags) ]
  else throw (Error ("Prompt not found: " +:+ name)).

End Catalog.

(** ** The Model Adapter (mcp/tools/ollama-tools.js) *)

Module Ollama.

(** A JSON value: the body of a request or of a reply.  An object is
    given by its properties, each key once. *)
#[warnings="-register-all"]
Inductive json :=
| JNull
| JBool (b : bool)
| JNum (q : Qc)
| JStr (s : string)
| JArr (items : list json)
| JObj (fields : list (string * json)).

(** [if (v)] for a value that may be [undefined]. *)
Definition truthy (v : option json) : bool :=
  match v with
  | None | Some JNull => false
  | Some (JBool b) => b
  | Some (JNum q) => negb (Qeq_bool (this q) 0)
  | Some (JStr s) => negb (bool_decide (s = ""))
  | Some (JArr _) | Some (JObj _) => true
  end.

Fixpoint assoc (key : string) (fields : list (string * json)) : option json :=
  match fields with
  | [] => None
  | (k, v) :: fields' => if bool_decide (k = key) then Some v else assoc key fields'
  end.

(** [x.key], for the keys the handlers read, none of which is a member
    of a prototype: [undefined] on anything but an object, a [TypeError]
    on [null]. *)
Definition read {W} (key : string) (x : json) : M W (option json) :=
  match x with
  | JNull => throw (TypeError ("Cannot read properties of null (reading '"
                               +:+ key +:+ "')"))
  | JObj fields => ret (assoc key fields)
  | _ => ret None
  end.

(** [x.key] where [x] may be [undefined]. *)
Definition read_of {W} (key : string) (x : option json) : M W (option json) :=
  match x with
  | None => throw (TypeError ("Cannot read properties of undefined (reading '"
                              +:+ key +:+ "')"))
  | Some x' => read key x'
  end.

(** The number of a natural number. *)
Definition JNat (n : nat) : json := JNum (Q2Qc (inject_Z (Z.of_nat n))).

(** [x.length]: the length of an array or of a string, the property of
    that name of an object. *)
Definition length_of {W} (x : option json) : M W (option json) :=
  match x with
  | None => throw (TypeError "Cannot read properties of undefined (reading 'length')")
  | Some JNull => throw (TypeError "Cannot read properties of null (reading 'length')")
  | Some (JArr items) => ret (Some (JNat (List.length items)))
  | Some (JStr s) => ret (Some (JNat (String.length s)))
  | Some (JObj fields) => ret (assoc "length" fields)
  | Some _ => ret None
  end.

(** [x[0]] on a value that is neither [null] nor [undefined]. *)
Definition first (x : json) : option json :=
  match x with
  | JArr items => head items
  | JStr (String c _) => Some (JStr (String c ""))
  | JObj fields => assoc "0" fields
  | _ => None
  end.

(** How a request of [axios] ends: with the data of a reply whose status
    is accepted, or with an error that carries the reply
    ([error.response]), the request alone ([error.request]) or neither. *)
Inductive outcome :=
| Replied (data : json)
| Refused (e : error) (status : nat) (data : json)
| Unanswered (e : error)
| Failed (e : error).

(** How a stream ends: with [end], with [error], or not at all. *)
Inductive ending :=
| Ended
| Broken (e : error)
| Open.

(** The reply to a request with [responseType: 'stream']: the chunks of
    the stream and its end, or the rejection of the request. *)
Inductive reply :=
| Stream (chunks : list string) (last : ending)
| NoStream (e : error).

(** The state of the promise that [pull_model] returns. *)
Inductive promise (A : Type) :=
| Pending
| Resolved (a : A)
| Rejected (e : error).
Global Arguments Pending {A}.
Global Arguments Resolved {A} a.
Global Arguments Rejected {A} e.

Record ChatArgs := mkChatArgs {
  ch_model : string;
  ch_prompt : string;
  ch_system : option string;
  ch_temperature : option Qc;
  ch_stream : option bool
}.

(** A property is [None] when it is [undefined] or not set. *)
Record ChatResult := mkChatResult {
  chr_success : bool;
  chr_model : string;
  chr_response : option json;
  chr_done : option json;
  chr_context : option json;
  chr_prompt_eval_count : option json;
  chr_eval_count : option json
}.

Record CompleteArgs := mkCompleteArgs {
  cp_model : string;
  cp_prompt : string;
  cp_suffix : option string;
  cp_options : option json
}.

Record CompleteResult := mkCompleteResult {
  cpr_success : bool;
  cpr_model : string;
  cpr_completion : option json;
  cpr_done : option json;
  cpr_context : option json
}.

Record EmbedArgs := mkEmbedArgs {
  em_model : option string;
  em_text : string
}.

Record EmbedResult := mkEmbedResult {
  emr_success : bool;
  emr_model : string;
  emr_embedding : option json;
  emr_dimension : option json
}.

Record ModelEntry := mkModelEntry {
  me_name : option json;
  me_size : option json;
  me_modified : option json;
  me_digest : option json;
  me_details : option json
}.

Record ListModelsResult := mkListModelsResult {
  lm_success : bool;
  lm_models : list ModelEntry;
  lm_count : nat
}.

Record PullArgs := mkPullArgs {
  pl_model : string;
  pl_insecure : option bool
}.

Record PullStatus := mkPullStatus {
  ps_success : bool;
  ps_model : string;
  ps_status : json;
  ps_digest : json;
  ps_total : json;
  ps_completed : json
}.

Record ModelInfo := mkModelInfo {
  mi_success : bool;
  mi_model : string;
  mi_license : option json;
  mi_modelfile : option json;
  mi_parameters : option json;
  mi_template : option json;
  mi_details : option json
}.

Section Handlers.
(** The server is reached through [axios]; [JSON.stringify],
    [JSON.parse] (which fails on a text that is no JSON) and the
    conversions of a value to a string, in a template, and to a number,
    in a comparison ([None] is [NaN]), are those of the language. *)
Context {W : Type}
  (OLLAMA_BASE_URL : string)
  (axios_post : string -> json -> W -> outcome * W)
  (axios_get : string -> W -> outcome * W)
  (axios_post_stream : string -> json -> W -> reply * W)
  (JSON_stringify : json -> string)
  (JSON_parse : string -> option json)
  (String_of : json -> string)
  (Number_of : json -> option Qc).

Definition ollamaRequest (endpoint : string) (data : json) : M W json :=
  fun w =>
    match axios_post (OLLAMA_BASE_URL +:+ "/api/" +:+ endpoint) data w with
    | (Replied d, w') => (Ok d, w')
    | (Refused _ status d, w') =>
        (Throw (Error ("Ollama API error: " +:+ pretty status +:+ " - "
                       +:+ JSON_stringify d)), w')
    | (Unanswered _, w') =>
        (Throw (Error ("Ollama not reachable at " +:+ OLLAMA_BASE_URL)), w')
    | (Failed e, w') => (Throw e, w')
    end.

Definition ollamaGet (endpoint : string) : M W json :=
  fun w =>
    match axios_get (OLLAMA_BASE_URL +:+ "/api/" +:+ endpoint) w with
    | (Replied d, w') => (Ok d, w')
    | (Refused _ status _, w') =>
        (Throw (Error ("Ollama API error: " +:+ pretty status)), w')
    | (Unanswered _, w') =>
        (Throw (Error ("Ollama not reachable at " +:+ OLLAMA_BASE_URL)), w')
    | (Failed e, w') => (Throw e, w')
    end.

(** [if (text) { data.key = text }] *)
Definition optional_field (key : string) (text : option string)
  : list (string * json) :=
  match Obsidian.truthy text with
  | Some t => [(key, JStr t)]
  | None => []
  end.

Definition chat (args : ChatArgs) : M W ChatResult :=
  let model := ch_model args in
  let temperature := default (Q2Qc (7 # 10)) (ch_temperature args) in
  let stream := default false (ch_stream args) in
  let data :=
    JObj ([ ("model", JStr model); ("prompt", JStr (ch_prompt args));
            ("stream", JBool stream);
            ("options", JObj [("temperature", JNum temperature)]) ]
          ++ optional_field "system" (ch_system args)) in
  result <- ollamaRequest "chat" data ;;
  message <- read "message" result ;;
  if truthy message then
    content <- read_of "content" message ;;
    done <- read "done" result ;;
    context <- read "context" result ;;
    prompt_eval_count <- read "prompt_eval_count" result ;;
    eval_count <- read "eval_count" result ;;
    ret (mkChatResult true model content done context prompt_eval_count eval_count)
  else
    response <- read "response" result ;;
    if truthy response then
      done <- read "done" result ;;
      context <- read "context" result ;;
      ret (mkChatResult true model response done context None None)
    else throw (Error "Unexpected response format from Ollama").

Definition complete (args : CompleteArgs) : M W CompleteResult :=
  let model := cp_model args in
  let options := default (JObj []) (cp_options args) in
  let data :=
    JObj ([ ("model", JStr model); ("prompt", JStr (cp_prompt args));
            ("options", options) ]
          ++ optional_field "suffix" (cp_suffix args)) in
  result <- ollamaRequest "generate" data ;;
  response <- read "response" result ;;
  done <- read "done" result ;;
  context <- read "context" result ;;
  ret (mkCompleteResult true model response done context).

(** [v > 0] *)
Definition positive (v : option json) : bool :=
  match v with
  | None => false
  | Some (JNum q) => negb (Qle_bool (this q) 0)
  | Some x => match Number_of x with
              | Some q => negb (Qle_bool (this q) 0)
              | None => false
              end
  end.

Definition embed (args : EmbedArgs) : M W EmbedResult :=
  let model := default "nomic-embed-text" (em_model args) in
  let data := JObj [ ("model", JStr model); ("input", JStr (em_text args)) ] in
  result <- ollamaRequest "embed" data ;;
  embeddings <- read "embeddings" result ;;
  nonempty <- (if truthy embeddings
               then count <- length_of embeddings ;; ret (positive count)
               else ret false) ;;
  if nonempty then
    let embedding := embeddings ≫= first in
    dimension <- length_of embedding ;;
    ret (mkEmbedResult true model embedding dimension)
  else throw (Error "No embedding returned from Ollama").

(** [models.map(m => ({ name: m.name, ... }))] *)
Definition model_entry (m : json) : M W ModelEntry :=
  name <- read "name" m ;;
  size <- read "size" m ;;
  modified <- read "modified_at" m ;;
  digest <- read "digest" m ;;
  details <- read "details" m ;;
  ret (mkModelEntry name size modified digest details).

Fixpoint map_entries (ms : list json) : M W (list ModelEntry) :=
  match ms with
  | [] => ret []
  | m :: ms' => e <- model_entry m ;; es <- map_entries ms' ;; ret (e :: es)
  end.

(** [result.models || []] is then asked for its [map]: what is no array
    has none. *)
Definition list_models : M W ListModelsResult :=
  result <- ollamaGet "tags" ;;
  models <- read "models" result ;;
  match (if truthy models then models else Some (JArr [])) with
  | Some (JArr ms) =>
      entries <- map_entries ms ;;
      ret (mkListModelsResult true entries (List.length ms))
  | _ => throw (TypeError "models.map is not a function")
  end.

Definition show_model_info (model : string) : M W ModelInfo :=
  result <- ollamaRequest "show" (JObj [("name", JStr model)]) ;;
  license <- read "license" result ;;
  modelfile <- read "modelfile" result ;;
  parameters <- read "parameters" result ;;
  template <- read "template" result ;;
  details <- read "details" result ;;
  ret (mkModelInfo true model license modelfile parameters template details).

(** The body of the loop over the lines of a chunk: the new status, and
    the error when the line makes the handler reject and return.  A text
    that is no JSON, and the value [null], raise inside the [try] before
    anything is assigned. *)
Definition on_line (status : PullStatus) (line : string)
  : PullStatus * option error :=
  match JSON_parse line with
  | None | Some JNull => (status, None)
  | Some data =>
      let get key := match data with JObj fields => assoc key fields | _ => None end in
      let s1 := if truthy (get "status")
                then mkPullStatus (ps_success status) (ps_model status)
                       (default JNull (get "status")) (ps_digest status)
                       (ps_total status) (ps_completed status)
                else status in
      let s2 := if truthy (get "digest")
                then mkPullStatus (ps_success s1) (ps_model s1) (ps_status s1)
                       (default JNull (get "digest")) (ps_total s1)
                       (ps_completed s1)
                else s1 in
      let s3 := if truthy (get "total")
                then mkPullStatus (ps_success s2) (ps_model s2) (ps_status s2)
                       (ps_digest s2) (default JNull (get "total"))
                       (ps_completed s2)
                else s2 in
      let s4 := match get "completed" with
                | Some completed =>
                    mkPullStatus (ps_success s3) (ps_model s3) (ps_status s3)
                      (ps_digest s3) (ps_total s3) completed
                | None => s3
                end in
      if truthy (get "error")
      then (s4, Some (Error ("Pull error: " +:+ String_of (default JNull (get "error")))))
      else (s4, None)
  end.

(** The loop over the lines, left by [return] at the first rejection. *)
Fixpoint on_lines (status : PullStatus) (lines : list string)
  : PullStatus * option error :=
  match lines with
  | [] => (status, None)
  | line :: lines' =>
      match on_line status line with
      | (status', Some e) => (status', Some e)
      | (status', None) => on_lines status' lines'
      end
  end.

(** [chunk.toString().split('\n').filter(Boolean)] *)
Definition lines_of (chunk : string) : list string :=
  List.filter (fun l => negb (bool_decide (l = ""))) (Str.split chunk "010").

(** [resolve] and [reject] settle a promise once. *)
Definition settle {A} (p new : promise A) : promise A :=
  match p with Pending => new | _ => p end.

(** The [data] events, in turn: the status object and the promise. *)
Fixpoint on_data (status : PullStatus) (p : promise PullStatus)
    (chunks : list string) : PullStatus * promise PullStatus :=
  match chunks with
  | [] => (status, p)
  | chunk :: chunks' =>
      let '(status', rejection) := on_lines status (lines_of chunk) in
      on_data status'
        (match rejection with Some e => settle p (Rejected e) | None => p end)
        chunks'
  end.

Definition pull_model (args : PullArgs) (w : W) : promise PullStatus * W :=
  let model := pl_model args in
  let insecure := default false (pl_insecure args) in
  match axios_post_stream (OLLAMA_BASE_URL +:+ "/api/pull")
          (JObj [ ("name", JStr model); ("insecure", JBool insecure);
                  ("stream", JBool true) ]) w with
  | (NoStream e, w') => (Rejected e, w')
  | (Stream chunks last, w') =>
      let status := mkPullStatus true model (JStr "pulling") JNull JNull JNull in
      let '(status', p) := on_data status Pending chunks in
      (match last with
       | Ended =>
           settle p (Resolved (mkPullStatus (ps_success status') (ps_model status')
                                 (JStr "success") (ps_digest status')
                                 (ps_total status') (ps_completed status')))
       | Broken e => settle p (Rejected e)
       | Open => p
       end, w')
  end.

End Handlers.
End Ollama.

(** ** The registry of the server (index.js and the tool modules) *)

Module Registry.
Import Dispatch.

Section Tools.
(** The handlers that the modules attach, by the key of the tool:
    [tools[key].handler = handlers[key]]. *)
Context {Args Result W : Type}
  (neo4j obsidian ollama memory : string -> Args -> M W Result).

(** A module of tools: for each key the name and the description of the
    descriptor, and the handler attached under the key. *)
Definition tools (handlers : string -> Args -> M W Result)
    (entries : list (string * (string * string)))
  : list (string * Tool Args Result W) :=
  map (fun '(key, (name, descr)) => (key, mkTool name descr (Some (handlers key))))
      entries.

Definition neo4jTools : list (string * Tool Args Result W) :=
  tools neo4j
    [ ("create_entity", ("create_entity", "Create a new entity node in Neo4j graph database"));
      ("update_entity", ("update_entity", "Update an existing entity in Neo4j"));
      ("delete_entity", ("delete_entity", "Delete an entity from Neo4j"));
      ("create_relationship", ("create_relationship", "Create a relationship between two entities"));
      ("query_graph", ("query_graph", "Execute a Cypher query on Neo4j"));
      ("find_entities", ("find_entities", "Find entities by label and/or properties"));
      ("get_entity_context", ("get_entity_context", "Get an entity with its relationships and neighbors")) ].

Definition obsidianTools : list (string * Tool Args Result W) :=
  tools obsidian
    [ ("read_note", ("read_note", "Read a markdown note from Obsidian vault"));
      ("write_note", ("write_note", "Write or overwrite a markdown note in Obsidian vault"));
      ("append_note", ("append_note", "Append content to an existing note"));
      ("list_notes", ("list_notes", "List notes in the vault with optional filtering"));
      ("search_notes", ("search_notes", "Search for notes containing text or patterns"));
      ("create_note", ("create_note", "Create a new note with timestamp and optional template"));
      ("delete_note", ("delete_note", "Delete a note from the vault")) ].

Definition ollamaTools : list (string * Tool Args Result W) :=
  tools ollama
    [ ("chat", ("ollama_chat", "Send a chat message to an Ollama model and get a response"));
      ("complete", ("ollama_complete", "Text completion using Ollama"));
      ("embed", ("ollama_embed", "Generate embeddings for text using Ollama"));
      ("list_models", ("ollama_list_models", "List available Ollama models"));
      ("pull_model", ("ollama_pull_model", "Pull/download a model from Ollama registry"));
      ("show_model_info", ("ollama_show_model_info", "Get detailed information about a model")) ].

Definition memoryTools : list (string * Tool Args Result W) :=
  tools memory
    [ ("store_memory", ("store_memory", "Store a memory with automatic categorization into Neo4j and Obsidian"));
      ("recall_memory", ("recall_memory", "Recall memories matching a query"));
      ("create_knowledge_link", ("create_knowledge_link", "Create a link between two memories/concepts"));
      ("get_knowledge_graph", ("get_knowledge_graph", "Get the knowledge graph around a concept"));
      ("search_memories_by_date", ("search_memories_by_date", "Search memories by date range"));
      ("update_memory_importance", ("update_memory_importance", "Update the importance score of a memory"));
      ("summarize_memories", ("summarize_memories", "Get a summary of stored memories by type and tags")) ].

(** [{ ...neo4jTools, ...obsidianTools, ...ollamaTools, ...memoryTools }] *)
Definition allTools : gmap string (Tool Args Result W) :=
  spread [ list_to_map neo4jTools; list_to_map obsidianTools;
           list_to_map ollamaTools; list_to_map memoryTools ].

(** [Object.values(allTools)]: no key stands in two modules, so that the
    values come in the order of the modules. *)
Definition ListTools : list (Tool Args Result W) :=
  (neo4jTools ++ obsidianTools ++ ollamaTools ++ memoryTools).*2.

End Tools.
End Registry.

(** * Further vocabulary *)

(** No directory on the way along [p] lists a name twice. *)
Fixpoint unique_names (p : Fs.path) (n : Fs.node) : bool :=
  match p, n with
  | name :: p', Fs.Dir _ es =>
      bool_decide (NoDup es.*1)
      && match Fs.entry name es with
         | Some x => unique_names p' x
         | None => true
         end
  | _, _ => true
  end.

(** Does the character occur in the text? *)
Fixpoint occurs (c : ascii) (s : string) : bool :=
  match s with
  | "" => false
  | String a s' => bool_decide (a = c) || occurs c s'
  end.

(** A key that a line of front-matter can carry: not empty, without
    colon or line feed, without white space around it, and not the name
    of the prototype accessor. *)
Definition plain_key (key : string) : bool :=
  bool_decide (key <> "")
  && negb (occurs ":" key) && negb (occurs "010" key)
  && bool_decide (Str.trim key = key)
  && bool_decide (key <> "__proto__").

(** A value that a line of front-matter can carry: no line feed in a
    text, neither line feed nor comma in the texts of an array. *)
Definition plain_value (value : Obsidian.fmvalue) : bool :=
  match value with
  | Obsidian.FmString v => negb (occurs "010" v)
  | Obsidian.FmBool _ => true
  | Obsidian.FmArray vs =>
      forallb (fun v => negb (occurs "010" v) && negb (occurs "," v)) vs
  end.

Definition plain_entry (kv : string * Obsidian.fmvalue) : bool :=
  plain_key kv.1 && plain_value kv.2.

(** The text written for a string. *)
Definition quoted (v : string) : string :=
  String Str.QUOTE (v +:+ String Str.QUOTE "").

(** What the parser makes of a value that the builder has written: an
    empty array comes back as an array of one empty text. *)
Definition reread (value : Obsidian.fmvalue) : Obsidian.fmvalue :=
  match value with
  | Obsidian.FmArray [] => Obsidian.FmArray [""]
  | _ => value
  end.

(** The object read back from the entries written. *)
Definition reread_object (entries : list (string * Obsidian.fmvalue))
  : Obsidian.fmobject :=
  foldl (fun o kv => <[kv.1 := reread kv.2]> o) ∅ entries.

(** The text that [find_entities] hands to the server: the label, when
    one is given, is part of the text, and so is the condition on the
    name, when a part of a name is given; the part of the name itself
    and the limit are parameters. *)
Definition entities_text (label name_contains : option string) : string :=
  match Obsidian.truthy label, Obsidian.truthy name_contains with
  | Some l, Some _ =>
      "MATCH (e:" +:+ l
      +:+ ") WHERE e.name CONTAINS $name_contains RETURN e LIMIT $limit"
  | Some l, None => "MATCH (e:" +:+ l +:+ ") RETURN e LIMIT $limit"
  | None, Some _ =>
      "MATCH (e) WHERE e.name CONTAINS $name_contains RETURN e LIMIT $limit"
  | None, None => "MATCH (e) RETURN e LIMIT $limit"
  end.

Definition entities_params (name_contains : option string) (limit : nat)
  : list (string * Entities.param) :=
  ("limit", Entities.PNum limit)
  :: match Obsidian.truthy name_contains with
     | Some s => [("name_contains", Entities.PStr s)]
     | None => []
     end.

(** The records hold the nodes [ns] under the key [e], one each and in
    this order. *)
Definition holds_entities (records : list Neo4j.record) (ns : list Graph.Node)
  : Prop :=
  Forall2 (fun record n => Neo4j.get "e" record = Some (Neo4j.FNode n))
    records ns.

Section NoteVocabulary.
Import Str Obsidian Notes.
Context `{Env}.

(** The entry [list_notes] makes of the file [name] of the directory
    [dir]. *)
Definition note_entry (dir name : string) : NoteEntry :=
  let relativePath := path_relative VAULT_PATH (path_join dir name) in
  mkNoteEntry name relativePath (path_dirname relativePath).

(** The entries of a directory that [list_notes] lists: the markdown
    files, with the tag when one is asked for. *)
Definition listed (tag : option string) (e : string * Fs.node) : bool :=
  Fs.isFile e.2 && endsWith e.1 ".md"
  && match tag with Some t => has_tag t e.2 | None => true end.

End NoteVocabulary.

(** The property [key] of a reply, [undefined] on what is no object. *)
Definition field (key : string) (data : Ollama.json) : option Ollama.json :=
  match data with
  | Ollama.JObj fields => Ollama.assoc key fields
  | _ => None
  end.

(** The error that a line of the stream carries: the property [error]
    of what the line is parsed to, when there is one and it is truthy. *)
Definition line_error (JSON_parse : string -> option Ollama.json)
    (line : string) : option Ollama.json :=
  match JSON_parse line with
  | Some data =>
      match field "error" data with
      | Some err => if Ollama.truthy (Some err) then Some err else None
      | None => None
      end
  | None => None
  end.

(** The first error that the lines carry. *)
Fixpoint first_error (JSON_parse : string -> option Ollama.json)
    (lines : list string) : option Ollama.json :=
  match lines with
  | [] => None
  | line :: lines' =>
      match line_error JSON_parse line with
      | Some err => Some err
      | None => first_error JSON_parse lines'
      end
  end.

(** ** Stand-ins for the servers *)

Module Standins.
Import Graph.

(** A graph store that answers every query with one record. *)
Definition one_record : Recollection.GraphHandlers :=
  Recollection.mkGraphHandlers
    (fun _ => ret (Neo4j.mkQueryGraphResult true
                     [[("m", Neo4j.FNode (mkNode 0 ["Memory"] ∅))]] 1))
    (fun _ => throw (Error "no such entity")).

(** Handlers that answer with the key under which they are held. *)
Definition echo (key : string) (_ : unit) : M unit string :=
  ret key.

(** A server that answers a chat with a message. *)
Definition chatty (_ : string) (_ : Ollama.json) (w : unit)
  : Ollama.outcome * unit :=
  (Ollama.Replied
     (Ollama.JObj [("message", Ollama.JObj [("content", Ollama.JStr "hi")]);
                   ("response", Ollama.JStr "old")]), w).

(** A server that answers with two embeddings. *)
Definition embedder (_ : string) (_ : Ollama.json) (w : unit)
  : Ollama.outcome * unit :=
  (Ollama.Replied
     (Ollama.JObj
        [("embeddings",
          Ollama.JArr [Ollama.JArr [Ollama.JNat 1; Ollama.JNat 2];
                       Ollama.JArr [Ollama.JNat 3]])]), w).

(** A stream of one chunk with a line of progress, and a stream of two
    chunks in which the line [broken] comes between lines of progress;
    a parser that knows these two lines only, and the text of a value
    that is a text. *)
Definition one_chunk (_ : string) (_ : Ollama.json) (w : unit)
  : Ollama.reply * unit :=
  (Ollama.Stream ["downloading" +:+ Str.LF] Ollama.Ended, w).
Definition two_chunks (_ : string) (_ : Ollama.json) (w : unit)
  : Ollama.reply * unit :=
  (Ollama.Stream ["downloading" +:+ Str.LF;
                  "broken" +:+ Str.LF +:+ "downloading" +:+ Str.LF]
     Ollama.Ended, w).
Definition parse_progress (line : string) : option Ollama.json :=
  if bool_decide (line = "downloading")
  then Some (Ollama.JObj [("status", Ollama.JStr "downloading")])
  else if bool_decide (line = "broken")
  then Some (Ollama.JObj [("error", Ollama.JStr "no space left")])
  else None.
Definition text_of (v : Ollama.json) : string :=
  match v with Ollama.JStr s => s | _ => "" end.

(** A server that answers every text with the two concepts. *)
Definition concepts (_ : string) (_ : list (string * Entities.param))
  : M World Neo4j.RunResult :=
  ret (Neo4j.mkRunResult
         (map (fun n => [("e", Neo4j.FNode n)])
              (nodes (graph Posix.two_concepts))) 0).

End Standins.

(** * Properties *)

(** Runs the plumbing of the monad: binds, handlers of [try] and the
    elementary computations are unfolded and reduced. *)
Ltac js_run :=
  cbv beta iota zeta delta
    [Js.bind Js.try_catch Js.try_finally Js.get Js.put Js.ret Js.throw].
Tactic Notation "js_run" "in" hyp(H) :=
  cbv beta iota zeta delta
    [Js.bind Js.try_catch Js.try_finally Js.get Js.put Js.ret Js.throw] in H.

(** ** Dispatch *)

Section DispatchFacts.
Import Dispatch.
Context {Args Result W : Type}.
Implicit Types (allTools : gmap string (Tool Args Result W)).

Lemma get_property_unregistered allTools name :
  allTools !! name = None ->
  name ∉ object_prototype_keys ->
  get_property allTools name = Undefined.
Proof.
  intros Hnone Hproto. unfold get_property. rewrite Hnone.
  by rewrite bool_decide_eq_false_2.
Qed.

Lemma get_property_registered allTools name t :
  allTools !! name = Some t -> get_property allTools name = OwnTool t.
Proof. intros Hsome. unfold get_property. by rewrite Hsome. Qed.

(** C1 (as amended).  A name that is neither registered nor inherited from
    [Object.prototype] makes the request handler throw
    [Error("Unknown tool: <name>")]: the backends are untouched and no tool
    handler is entered, and the error leaves the request handler (it is not
    turned into an envelope).  An error thrown by the handler of a
    registered tool is the one that comes back as an envelope with
    [isError] set, carrying the error message. *)
Theorem unknown_tool_throws allTools name args w tr :
  (allTools !! name = None ->
   name ∉ object_prototype_keys ->
   CallToolRequest allTools name args (w, tr)
   = (Throw (Error ("Unknown tool: " +:+ name)), (w, tr)))
  /\
  (forall t h e w',
     allTools !! name = Some t ->
     handler t = Some h ->
     h args w = (Throw e, w') ->
     CallToolRequest allTools name args (w, tr)
     = (Ok (mkEnvelope (JsonError (message e)) true), (w', tr ++ [name]))).
Proof.
  split.
  - intros Hnone Hproto. unfold CallToolRequest.
    by rewrite (get_property_unregistered _ _ Hnone Hproto).
  - intros t h e w' Hsome Hh Hrun. unfold CallToolRequest.
    rewrite (get_property_registered _ _ _ Hsome). cbn.
    unfold try_catch, bind, invoke. cbn. rewrite Hh, Hrun. reflexivity.
Qed.

End DispatchFacts.

(** C1, witness: the registry [demo_tools] called with the unregistered
    name ["nope"] and with the failing tool ["fail"]. *)
Lemma unknown_tool_throws_witness :
  Dispatch.CallToolRequest Dispatch.demo_tools "nope" tt (0, [])
  = (Throw (Error "Unknown tool: nope"), (0, []))
  /\
  Dispatch.CallToolRequest Dispatch.demo_tools "fail" tt (0, [])
  = (Ok (Dispatch.mkEnvelope (Dispatch.JsonError "boom") true), (1, ["fail"])).
Proof.
  pose proof (unknown_tool_throws Dispatch.demo_tools "nope" tt 0 []) as [Hu _].
  pose proof (unknown_tool_throws Dispatch.demo_tools "fail" tt 0 []) as [_ Hf].
  split.
  - apply Hu; [reflexivity | apply (proj1 (bool_decide_eq_false _)); reflexivity].
  - eapply (Hf _ _ (Error "boom")); reflexivity.
Defined.

(** C1, as the specification words it, fails: for the unregistered name
    ["nope"] the request handler yields no envelope at all, it throws. *)
Lemma unknown_tool_no_envelope :
  ~ exists env st,
      Dispatch.CallToolRequest Dispatch.demo_tools "nope" tt (0, [])
      = (Ok env, st).
Proof. intros (env & st & H). vm_compute in H. discriminate H. Qed.

(** ** Strings *)

Section StrFacts.
Import Str.

Lemma upper_char_idem c : upper_char (upper_char c) = upper_char c.
Proof. by destruct c as [[] [] [] [] [] [] [] []]. Qed.

(** Text in upper case stays as it is when put in upper case again. *)
Lemma toUpperCase_idem s : toUpperCase (toUpperCase s) = toUpperCase s.
Proof.
  induction s as [|c s IH]; [done|].
  cbn. fold toUpperCase. by rewrite upper_char_idem, IH.
Qed.

Lemma upper_char_small c :
  is_small c = true -> nat_of_ascii (upper_char c) + 32 = nat_of_ascii c.
Proof.
  destruct c as [[] [] [] [] [] [] [] []]; intros Hc;
    first [discriminate Hc | reflexivity].
Qed.

Lemma upper_char_other c : is_small c = false -> upper_char c = c.
Proof.
  destruct c as [[] [] [] [] [] [] [] []]; intros Hc;
    first [discriminate Hc | reflexivity].
Qed.

(** [toUpperCase] turns the small letters into capital letters and
    leaves everything else in its place. *)
Lemma uppercased_toUpperCase s : uppercased s (toUpperCase s) = true.
Proof.
  induction s as [|c s IH]; [reflexivity|].
  cbn [toUpperCase map_chars uppercased]. fold toUpperCase. rewrite IH.
  destruct (is_small c) eqn:Hc.
  - rewrite (upper_char_small _ Hc), Nat.eqb_refl. reflexivity.
  - rewrite (upper_char_other _ Hc), bool_decide_eq_true_2; reflexivity.
Qed.

(** Upper case is decided by the text: it is the same length, it has no
    small letter, and there is one upper case of a text only. *)
Lemma uppercased_unique s t t' :
  uppercased s t = true -> uppercased s t' = true -> t = t'.
Proof.
  revert t t'. induction s as [|c s IH]; intros [|d t] [|d' t'] Ht Ht';
    try discriminate; [reflexivity|].
  cbn [uppercased] in Ht, Ht'.
  apply andb_prop in Ht as [Hd Ht]. apply andb_prop in Ht' as [Hd' Ht'].
  f_equal; [|by apply IH].
  destruct (is_small c).
  - apply Nat.eqb_eq in Hd, Hd'.
    rewrite <- (ascii_nat_embedding d), <- (ascii_nat_embedding d').
    f_equal. lia.
  - apply bool_decide_eq_true in Hd, Hd'. congruence.
Qed.

End StrFacts.

(** ** The file system *)

Section FsFacts.
Import Fs.

Lemma entry_set_entry name x es : entry name (set_entry name x es) = Some x.
Proof.
  induction es as [|[n y] es IH]; cbn.
  - by rewrite bool_decide_eq_true_2.
  - destruct (bool_decide (n = name)) eqn:E; cbn; rewrite E; [done | exact IH].
Qed.

(** A file that has been written reads back as written. *)
Lemma readFile_writeFile p data root root' :
  writeFile p data root = inr root' -> readFile p root' = inr data.
Proof.
  revert root root'. induction p as [|name p IH]; intros root root' Hw.
  - discriminate Hw.
  - unfold writeFile in Hw. cbn in Hw.
    destruct root as [? ?|[] es]; try discriminate Hw.
    destruct p as [|name' p].
    + destruct (entry name es) as [[[] ?|? ?]|]; inversion Hw; subst;
        unfold readFile; cbn; by rewrite entry_set_entry.
    + destruct (entry name es) as [x|]; [|discriminate Hw].
      fold (writeFile (name' :: p) data x) in Hw.
      destruct (writeFile (name' :: p) data x) as [e|x'] eqn:Hx;
        inversion Hw; subst.
      specialize (IH _ _ Hx). unfold readFile in *.
      change (lookup (name :: name' :: p) (Dir true (set_entry name x' es)))
        with (match entry name (set_entry name x' es) with
              | None => inl ENOENT
              | Some y => lookup (name' :: p) y
              end).
      by rewrite entry_set_entry.
Qed.

(** Where nothing exists, [unlink] reports [ENOENT]. *)
Lemma unlink_absent p root : absent p root -> unlink p root = inl ENOENT.
Proof.
  unfold absent. revert root. induction p as [|name p IH]; intros root Hl.
  - discriminate Hl.
  - unfold unlink. cbn in *.
    destruct root as [? ?|[] es]; try discriminate Hl.
    destruct p as [|name' p].
    + destruct (entry name es); [discriminate Hl | done].
    + destruct (entry name es) as [x|]; [|done].
      fold (unlink (name' :: p) x). by rewrite (IH _ Hl).
Qed.

End FsFacts.

(** ** The note store *)

Section NoteFacts.
Import Str Obsidian.
Context `{Env}.

(** The parser undoes the builder on the sample, whatever the body is. *)
Lemma parse_build_sample content :
  parseFrontmatter (buildFrontmatter (Some sample_frontmatter) +:+ LF +:+ content)
  = mkParsed
      (Some (<["created" := FmString "2024-01-01"]>
               (<["tags" := FmArray ["a"; "b"]]> ∅)))
      (trim (LF +:+ content)).
Proof. reflexivity. Qed.

(** What a successful [write_note] leaves behind: the file holds the full
    content. *)
Lemma write_note_stores args r w w' :
  write_note args w = (Ok r, w') ->
  Fs.readFile (resolve (getFilePath (wn_filename args))) (fs w')
  = inr (match wn_frontmatter args with
         | Some entries => buildFrontmatter (Some entries) +:+ LF +:+ wn_content args
         | None => wn_content args
         end).
Proof.
  unfold write_note, bind. intros Hw.
  destruct ((if default true (wn_create_dirs args)
             then ensureDir (getFilePath (wn_filename args)) else ret ()) w)
    as [[[]|e] w1]; [|discriminate Hw].
  unfold fs_writeFile, lift_fs in Hw. js_run in Hw.
  destruct (Fs.writeFile _ _ (fs w1)) as [e|root'] eqn:Hfs;
    [discriminate Hw|].
  inversion Hw; subst. cbn. eapply readFile_writeFile, Hfs.
Qed.

(** C7.  A note written by [write_note] with the front-matter
    [{tags: ["a","b"], created: "2024-01-01"}] and any body is read back by
    [read_note], with front-matter parsing on, with a front-matter object
    that holds the same array of tags and the same [created] string (and
    nothing else); the content is the body, trimmed. *)
Theorem frontmatter_round_trip filename body create_dirs parse w w' r :
  default true parse = true ->
  write_note (mkWriteNoteArgs filename body (Some sample_frontmatter) create_dirs) w
  = (Ok r, w') ->
  exists fm,
    read_note (mkReadNoteArgs filename parse) w'
    = (Ok (mkReadNoteResult true filename (getFilePath filename)
             (Some (Some fm)) (trim (LF +:+ body))), w')
    /\ fm !! "tags" = Some (FmArray ["a"; "b"])
    /\ fm !! "created" = Some (FmString "2024-01-01")
    /\ dom fm = {[ "tags"; "created" ]}.
Proof.
  intros Hparse Hw. apply write_note_stores in Hw. cbn [wn_filename wn_frontmatter wn_content] in Hw.
  eexists. split; [|split; [|split]].
  - unfold read_note, fs_readFile, lift_fs. js_run.
    cbn [rn_filename rn_parse_frontmatter]. rewrite Hw, Hparse.
    rewrite parse_build_sample. reflexivity.
  - reflexivity.
  - reflexivity.
  - rewrite !dom_insert_L, dom_empty_L. set_solver.
Qed.

(** C8.  [delete_note] on a path at which nothing exists does not fail: it
    answers [success = true], [deleted = false], leaves the world as it
    was, and so answers the same when called again. *)
Theorem delete_note_absent_idempotent filename w :
  Fs.absent (resolve (getFilePath filename)) (fs w) ->
  let not_deleted :=
    mkDeleteNoteResult true filename false (Some "File does not exist") in
  delete_note (mkDeleteNoteArgs filename) w = (Ok not_deleted, w)
  /\ (forall w1, delete_note (mkDeleteNoteArgs filename) w = (Ok not_deleted, w1) ->
        delete_note (mkDeleteNoteArgs filename) w1 = (Ok not_deleted, w1)).
Proof.
  intros Habs not_deleted.
  assert (Hfirst : delete_note (mkDeleteNoteArgs filename) w = (Ok not_deleted, w)).
  { unfold delete_note, fs_unlink, lift_fs. js_run.
    cbn [dn_filename]. by rewrite (unlink_absent _ _ Habs). }
  split; [exact Hfirst|].
  intros w1 Hw1. rewrite Hfirst in Hw1. inversion Hw1; subst. exact Hfirst.
Qed.

End NoteFacts.

(** C7, witness: a note [n1] written into the empty vault. *)
Lemma frontmatter_round_trip_witness :
  exists fm,
    Obsidian.read_note (H := Posix.env) (Obsidian.mkReadNoteArgs "n1" None)
      (Obsidian.write_note (H := Posix.env)
         (Obsidian.mkWriteNoteArgs "n1" "hello" (Some sample_frontmatter) None)
         Posix.empty_world).2
    = (Ok (Obsidian.mkReadNoteResult true "n1" "/vault/n1.md"
             (Some (Some fm)) "hello"),
       (Obsidian.write_note (H := Posix.env)
          (Obsidian.mkWriteNoteArgs "n1" "hello" (Some sample_frontmatter) None)
          Posix.empty_world).2)
    /\ fm !! "tags" = Some (Obsidian.FmArray ["a"; "b"])
    /\ fm !! "created" = Some (Obsidian.FmString "2024-01-01")
    /\ dom fm = {[ "tags"; "created" ]}.
Proof.
  eapply (frontmatter_round_trip (H := Posix.env) "n1" "hello" None None
            Posix.empty_world).
  - reflexivity.
  - vm_compute. reflexivity.
Defined.

(** C8, witness: deleting [ghost] from the empty vault. *)
Lemma delete_note_absent_idempotent_witness :
  Obsidian.delete_note (H := Posix.env) (Obsidian.mkDeleteNoteArgs "ghost")
    Posix.empty_world
  = (Ok (Obsidian.mkDeleteNoteResult true "ghost" false
           (Some "File does not exist")), Posix.empty_world).
Proof.
  refine (proj1 (delete_note_absent_idempotent (H := Posix.env) "ghost"
                   Posix.empty_world _)).
  vm_compute. reflexivity.
Defined.

(** ** Searching the notes *)

Section SearchFacts.
Import Str Obsidian.

(** A file adds at most one hit. *)
Lemma search_file_length `{Env} ignoreCase include_content query name filePath file :
  List.length (search_file ignoreCase include_content query name filePath file) <= 1.
Proof.
  unfold search_file. destruct (Fs.read_node file); [cbn; lia|].
  destruct (count_matches _ _ _ _); cbn; lia.
Qed.

(** A directory without sub-directories yields at most [limit] hits: the
    loop over its entries is left as soon as [limit] is reached. *)
Lemma searchInDir_flat `{Env} ignoreCase include_content query limit dir entries :
  0 < limit ->
  Forall (fun e => Fs.isDirectory e.2 = false) entries ->
  List.length (searchInDir ignoreCase include_content query limit dir
                 (Fs.Dir true entries)) <= limit.
Proof.
  intros Hlimit Hflat. cbn [searchInDir].
  assert (Hstart : List.length (@nil SearchHit) < limit) by (cbn; lia).
  revert Hstart. generalize (@nil SearchHit).
  induction Hflat as [|[name entry] entries Hfile _ IH]; intros results Hlt;
    [lia|].
  cbn [snd] in Hfile. rewrite Hfile.
  match goal with
  | |- context [if ?c then ?a else results] => set (results' := if c then a else results)
  end.
  assert (Hnext : List.length results' <= S (List.length results)).
  { subst results'. destruct (_ && _); [|lia].
    rewrite length_app.
    pose proof (search_file_length ignoreCase include_content query name
                  (path_join dir name) entry). lia. }
  destruct (limit <=? List.length results')%nat eqn:Hstop.
  - lia.
  - apply IH. apply Nat.leb_gt in Hstop. lia.
Qed.

(** C10.  [search_notes] never fails and changes nothing; the results it
    returns are the first [limit] hits the walk has accumulated, so there
    are at most [limit] of them, while [count] is the number of all hits
    accumulated.  The walk stops at [limit] in each directory on its own:
    a vault without sub-directories never accumulates more than [limit]
    hits, but what the sub-directories return is added whole, so [count]
    may exceed both [limit] and the number of results returned: in
    [sample_vault] with [limit = 2], two results come back and [count]
    is 3. *)
Theorem search_notes_count_before_truncation :
  (forall (E : Env) (args : SearchNotesArgs) (w : World),
     let limit := default 50 (sn_limit args) in
     exists r,
       search_notes args w = (Ok r, w)
       /\ sr_results r = firstn limit (accumulated args w)
       /\ sr_count r = List.length (accumulated args w)
       /\ List.length (sr_results r) <= limit)
  /\
  (forall (E : Env) (args : SearchNotesArgs) (w : World) entries,
     0 < default 50 (sn_limit args) ->
     Fs.lookup (resolve VAULT_PATH) (fs w) = inr (Fs.Dir true entries) ->
     Forall (fun e => Fs.isDirectory e.2 = false) entries ->
     List.length (accumulated args w) <= default 50 (sn_limit args))
  /\
  (exists r,
     search_notes (H := Posix.env) (mkSearchNotesArgs "test" None None (Some 2))
       Posix.sample_vault = (Ok r, Posix.sample_vault)
     /\ List.length (sr_results r) = 2
     /\ sr_count r = 3).
Proof.
  split; [|split].
  - intros E args w limit. eexists. split; [reflexivity|].
    cbn [sr_results sr_count]. fold limit.
    split; [reflexivity | split; [reflexivity|]].
    rewrite length_firstn. lia.
  - intros E args w entries Hlimit Hvault Hflat.
    unfold accumulated. rewrite Hvault. by apply searchInDir_flat.
  - eexists. split; [vm_compute; reflexivity|]. split; reflexivity.
Qed.

End SearchFacts.

(** ** The graph adapter *)

Section GraphFacts.
Import Graph Neo4j.
Context `{Env}.

(** The text of [create_entity] is refused by a server that is reached:
    the clock has been read, the session is closed again, and the graph
    is what it was. *)
Lemma create_entity_refused args w :
  online (graph w) = true ->
  create_entity args w = (Throw SyntaxError, stamped (graph w) w).
Proof.
  destruct w as [f [ns rs next on ses] c d]. cbn. intros ->. reflexivity.
Qed.

(** Offline, every handler rejects and leaves the graph as it is. *)
Lemma create_entity_offline args w :
  online (graph w) = false ->
  exists e w', create_entity args w = (Throw e, w') /\ graph w' = graph w.
Proof.
  destruct w as [f [ns rs next on ses] c d]. cbn. intros ->.
  eexists _, _. split; reflexivity.
Qed.

Lemma create_relationship_online args w :
  online (graph w) = true ->
  create_relationship args w
  = (match new_edges args w with
     | [] => Throw (Error "One or both entities not found")
     | r :: _ =>
         Ok (mkCreateRelationshipResult true (rel_elementId r)
               (cr_from_name args) (cr_to_name args)
               (cr_relationship_type args) (rel_properties r))
     end,
     stamped (with_rels (rels (graph w) ++ new_edges args w)
                (next_id (graph w) + List.length (new_edges args w))
                (graph w)) w).
Proof.
  destruct w as [f [ns rs next on ses] c d]. cbn. intros ->.
  unfold create_relationship, new_edges. js_run. cbn.
  destruct (create_edges _ _ _ _) as [|r created]; reflexivity.
Qed.

Lemma filter_none {A} (f : A -> bool) l :
  Forall (fun x => f x = false) l -> List.filter f l = [].
Proof.
  induction 1 as [|x l Hx _ IH]; [done|]. cbn. by rewrite Hx.
Qed.


Lemma rows_nil_r froms : rows froms [] = [].
Proof. induction froms; [done|]. exact IHfroms. Qed.

Lemma unmatched_id id ns :
  Forall (fun n => elementId n <> id) ns ->
  Forall (fun n => has_id id n = false) ns.
Proof.
  intros Hall. eapply Forall_impl; [exact Hall|].
  intros n Hn. by apply bool_decide_eq_false_2.
Qed.



(** [create_relationship] without a match at one of the ends. *)
Lemma create_relationship_fails args w :
  online (graph w) = true ->
  List.filter (matches (cr_from_label args) (cr_from_name args)) (nodes (graph w)) = []
  \/ List.filter (matches (cr_to_label args) (cr_to_name args)) (nodes (graph w)) = [] ->
  exists w',
    create_relationship args w
    = (Throw (Error "One or both entities not found"), w')
    /\ graph w' = graph w.
Proof.
  intros Hon Hnone.
  rewrite (create_relationship_online _ _ Hon). unfold new_edges.
  assert (Hrows : rows
            (List.filter (matches (cr_from_label args) (cr_from_name args))
               (nodes (graph w)))
            (List.filter (matches (cr_to_label args) (cr_to_name args))
               (nodes (graph w))) = []).
  { destruct Hnone as [-> | ->]; [reflexivity | apply rows_nil_r]. }
  rewrite Hrows. cbn. eexists. split; [reflexivity|].
  destruct w as [f [ns rs next on ses] c d]. cbn.
  by rewrite app_nil_r, Nat.add_0_r.
Qed.

(** [create_relationship] with one match at each end. *)
Lemma create_relationship_links args w from to :
  online (graph w) = true ->
  List.filter (matches (cr_from_label args) (cr_from_name args)) (nodes (graph w))
  = [from] ->
  List.filter (matches (cr_to_label args) (cr_to_name args)) (nodes (graph w))
  = [to] ->
  exists r res w',
    create_relationship args w = (Ok res, w')
    /\ graph w' = with_rels (rels (graph w) ++ [r]) (S (next_id (graph w))) (graph w)
    /\ rel_elementId r = next_id (graph w)
    /\ type r = Str.toUpperCase (cr_relationship_type args)
    /\ startNode r = elementId from
    /\ endNode r = elementId to
    /\ crr_success res = true
    /\ crr_id res = rel_elementId r.
Proof.
  intros Hon Hfrom Hto.
  rewrite (create_relationship_online _ _ Hon). unfold new_edges.
  rewrite Hfrom, Hto. cbn.
  eexists _, _, _. split; [reflexivity|]. cbn.
  rewrite Nat.add_1_r. repeat split; reflexivity.
Qed.


End GraphFacts.

(** ** Knowledge links *)

Section LinkFacts.
Import Graph Neo4j Memory.
Context `{Env}.

(** The ways through [create_knowledge_link]: the first attempt links, or
    the fallback ends at a handler that rejects. *)
Lemma create_knowledge_link_direct args w res wa :
  Neo4j.create_relationship (first_link args w) (tick w) = (Ok res, wa) ->
  create_knowledge_link neo4jHandlers args w
  = (Ok (mkKnowledgeLinkResult true false res), wa).
Proof.
  intros H1. unfold create_knowledge_link, neo4jHandlers, new_Date.
  js_run. cbn [Memory.create_relationship Memory.create_entity].
  fold (first_link args w) (tick w). by rewrite H1.
Qed.

Lemma create_knowledge_link_fallback args w e wa e' wb :
  Neo4j.create_relationship (first_link args w) (tick w) = (Throw e, wa) ->
  Neo4j.create_entity (concept (kl_from_name args)) wa = (Throw e', wb) ->
  create_knowledge_link neo4jHandlers args w
  = (Throw (Error ("Failed to create link: " +:+ message e')), wb).
Proof.
  intros H1 H2. unfold create_knowledge_link, neo4jHandlers, new_Date.
  js_run. cbn [Memory.create_relationship Memory.create_entity].
  fold (first_link args w) (tick w) (concept (kl_from_name args)).
  by rewrite H1, H2.
Qed.

(** C6.  In a store that is online.  Where one of the two concepts is
    missing, [create_knowledge_link] creates nothing: the first attempt
    finds nothing to link, the fallback asks [create_entity] for the
    first concept, the server refuses the text of [create_entity], and
    the call rejects with "Failed to create link: " and the message of
    that refusal; the nodes and the relationships of the store are what
    they were.  Where each of the two names is that of exactly one
    concept and the relationship is a name, the first attempt succeeds:
    the store gains one relationship between the two, of the type in
    upper case, and a second call with the same arguments adds a second
    relationship between the same two nodes, of the same type. *)
Theorem create_knowledge_link_missing_concept args w :
  online (graph w) = true ->
  let froms := List.filter (matches "Concept" (kl_from_name args))
                 (nodes (graph w)) in
  let tos := List.filter (matches "Concept" (kl_to_name args))
               (nodes (graph w)) in
  (froms = [] \/ tos = [] ->
   exists reason w',
     create_knowledge_link neo4jHandlers args w
     = (Throw (Error ("Failed to create link: " +:+ reason)), w')
     /\ nodes (graph w') = nodes (graph w)
     /\ rels (graph w') = rels (graph w))
  /\
  (is_name (kl_relationship args) = true ->
   forall a b,
     froms = [a] -> tos = [b] ->
     exists r res w1,
       create_knowledge_link neo4jHandlers args w = (Ok res, w1)
       /\ klr_created res = false
       /\ nodes (graph w1) = nodes (graph w)
       /\ rels (graph w1) = rels (graph w) ++ [r]
       /\ uppercased (kl_relationship args) (type r) = true
       /\ startNode r = elementId a /\ endNode r = elementId b
       /\ exists r2 res2 w2,
            create_knowledge_link neo4jHandlers args w1 = (Ok res2, w2)
            /\ klr_created res2 = false
            /\ nodes (graph w2) = nodes (graph w)
            /\ rels (graph w2) = rels (graph w) ++ [r; r2]
            /\ type r2 = type r
            /\ startNode r2 = startNode r /\ endNode r2 = endNode r
            /\ rel_elementId r2 <> rel_elementId r).
Proof.
  intros Hon froms tos. split.
  - (* the first attempt finds nothing to link, the fallback is refused *)
    intros Hnone.
    destruct (create_relationship_fails (first_link args w) (tick w) Hon Hnone)
      as (wa & Hrun_a & Hga).
    assert (Hon_a : online (graph wa) = true) by (by rewrite Hga).
    pose proof (create_entity_refused (concept (kl_from_name args)) wa Hon_a)
      as Hrun_b.
    exists (message SyntaxError), (stamped (graph wa) wa).
    split; [exact (create_knowledge_link_fallback _ _ _ _ _ _ Hrun_a Hrun_b)|].
    cbn [graph stamped]. by rewrite Hga.
  - (* the first attempt links, and so does the second call *)
    intros _ a b Hfrom Hto.
    destruct (create_relationship_links (first_link args w) (tick w) a b
                Hon Hfrom Hto)
      as (r & res & wa & Hrun_a & Hga & Hid & Htype & Hstart & Hend & _ & _).
    exists r, (mkKnowledgeLinkResult true false res), wa.
    split; [exact (create_knowledge_link_direct _ _ _ _ Hrun_a)|].
    assert (Hnodes_a : nodes (graph wa) = nodes (graph w)) by (by rewrite Hga).
    assert (Hrels_a : rels (graph wa) = rels (graph w) ++ [r])
      by (by rewrite Hga).
    split; [reflexivity|]. split; [exact Hnodes_a|]. split; [exact Hrels_a|].
    split.
    { rewrite Htype. cbn [first_link cr_relationship_type].
      rewrite toUpperCase_idem. apply uppercased_toUpperCase. }
    split; [exact Hstart|]. split; [exact Hend|].
    assert (Hon_a : online (graph (tick wa)) = true) by (by cbn; rewrite Hga).
    assert (Hfrom_a : List.filter (matches "Concept" (kl_from_name args))
                        (nodes (graph (tick wa))) = [a])
      by (cbn [graph tick]; rewrite Hnodes_a; exact Hfrom).
    assert (Hto_a : List.filter (matches "Concept" (kl_to_name args))
                      (nodes (graph (tick wa))) = [b])
      by (cbn [graph tick]; rewrite Hnodes_a; exact Hto).
    destruct (create_relationship_links (first_link args wa) (tick wa) a b
                Hon_a Hfrom_a Hto_a)
      as (r2 & res2 & wb & Hrun_b & Hgb & Hid2 & Htype2 & Hstart2 & Hend2 & _ & _).
    exists r2, (mkKnowledgeLinkResult true false res2), wb.
    split; [exact (create_knowledge_link_direct _ _ _ _ Hrun_b)|].
    split; [reflexivity|].
    split; [by rewrite Hgb|].
    split; [rewrite Hgb; cbn; rewrite Hrels_a; by rewrite <- app_assoc|].
    split; [rewrite Htype2, Htype; reflexivity|].
    split; [by rewrite Hstart2, Hstart|].
    split; [by rewrite Hend2, Hend|].
    rewrite Hid2, Hid. cbn. rewrite Hga. cbn. lia.
Qed.

End LinkFacts.



(** C6, witness: linking [A] to [B] by [relates_to] in the empty graph,
    which is refused and leaves the graph empty, and twice in the graph
    of the two concepts, which leaves two relationships [RELATES_TO]. *)
Lemma create_knowledge_link_missing_concept_witness :
  (exists reason w',
     Memory.create_knowledge_link (H := Posix.env)
       (Memory.neo4jHandlers (H := Posix.env))
       (Memory.mkKnowledgeLinkArgs "A" "B" "relates_to" None None)
       Posix.empty_world
     = (Throw (Error ("Failed to create link: " +:+ reason)), w')
     /\ Graph.nodes (graph w') = []
     /\ Graph.rels (graph w') = [])
  /\
  (exists res w1 res2 w2,
     Memory.create_knowledge_link (H := Posix.env)
       (Memory.neo4jHandlers (H := Posix.env))
       (Memory.mkKnowledgeLinkArgs "A" "B" "relates_to" None None)
       Posix.two_concepts = (Ok res, w1)
     /\ Memory.create_knowledge_link (H := Posix.env)
          (Memory.neo4jHandlers (H := Posix.env))
          (Memory.mkKnowledgeLinkArgs "A" "B" "relates_to" None None)
          w1 = (Ok res2, w2)
     /\ map Graph.type (Graph.rels (graph w2)) = ["RELATES_TO"; "RELATES_TO"]).
Proof.
  split.
  - destruct (create_knowledge_link_missing_concept (H := Posix.env)
                (Memory.mkKnowledgeLinkArgs "A" "B" "relates_to" None None)
                Posix.empty_world eq_refl) as [Hmissing _].
    destruct Hmissing as (reason & w' & Hrun & Hnodes & Hrels);
      [left; reflexivity|].
    exists reason, w'. split; [exact Hrun|]. split; assumption.
  - destruct (create_knowledge_link_missing_concept (H := Posix.env)
                (Memory.mkKnowledgeLinkArgs "A" "B" "relates_to" None None)
                Posix.two_concepts eq_refl) as [_ Hboth].
    edestruct (Hboth eq_refl)
      as (r & res & w1 & Hrun & _ & _ & _ & Hup & _ & _
          & r2 & res2 & w2 & Hrun2 & _ & _ & Hrels2 & Htype2 & _);
      [vm_compute; reflexivity | vm_compute; reflexivity |].
    exists res, w1, res2, w2. split; [exact Hrun|]. split; [exact Hrun2|].
    rewrite Hrels2. cbn [Posix.two_concepts graph Graph.rels app map].
    rewrite Htype2, (uppercased_unique _ _ "RELATES_TO" Hup eq_refl).
    reflexivity.
Defined.

(** ** The memory orchestrator *)

Section MemoryFacts.
Import Graph Memory.
Context `{Env}.

(** A [try] whose [catch] only logs fulfils, whatever its body does. *)
Lemma swallowed (m : M World unit) w :
  exists w', try_catch m (fun _ => ret tt) w = (Ok tt, w').
Proof. unfold try_catch, ret. destruct (m w) as [[[]|e] w']; eauto. Qed.


(** C2.  Whatever the two backends do with the writes, whether each
    fulfils or rejects, [store_memory] fulfils, and its result reports
    [success], [stored.neo4j] and [stored.obsidian] as true. *)
Theorem store_memory_reports_stored
    (neo : Neo4jHandlers) (obs : ObsidianHandlers) (args : StoreMemoryArgs) w :
  exists r w',
    store_memory neo obs args w = (Ok r, w')
    /\ smr_success r = true
    /\ smr_stored_neo4j r = true
    /\ smr_stored_obsidian r = true.
Proof.
  unfold store_memory, store_in_neo4j, store_in_obsidian.
  cbv beta iota zeta delta [bind new_Date Math_random].
  match goal with
  | |- context [try_catch ?m _ ?w0] =>
      destruct (swallowed m w0) as [w1 ->]
  end.
  match goal with
  | |- context [try_catch ?m _ ?w0] =>
      destruct (swallowed m w0) as [w2 ->]
  end.
  eexists _, _. split; [reflexivity|]. by repeat split.
Qed.

(** *** The order of [ORDER BY] *)

Lemma value_leb_total a b : value_leb a b = true \/ value_leb b a = true.
Proof.
  destruct a as [|x|x|x], b as [|y|y|y]; cbn; auto.
  - destruct x, y; auto.
  - destruct (Qlt_le_dec (this y) (this x)) as [Hlt|Hle].
    + right. apply Qle_bool_iff. by apply Qlt_le_weak.
    + left. by apply Qle_bool_iff.
  - apply String.leb_total.
Qed.

Lemma value_leb_trans a b c :
  value_leb a b = true -> value_leb b c = true -> value_leb a c = true.
Proof.
  destruct a as [|x|x|x], b as [|y|y|y], c as [|z|z|z]; cbn;
    try done; try (intros; discriminate).
  - destruct x, y, z; done.
  - rewrite !Qle_bool_iff. apply Qle_trans.
  - intros Hxy Hyz.
    apply Is_true_true. apply Is_true_true in Hxy, Hyz.
    exact (transitivity (R := String.le) Hxy Hyz).
Qed.

Global Instance importance_desc_total : Total importance_desc.
Proof.
  intros a b. unfold importance_desc.
  destruct (value_leb_total (prop "importance" a) (prop "importance" b)); auto.
Qed.

Global Instance importance_desc_trans : Transitive importance_desc.
Proof.
  intros a b c Hab Hbc. unfold importance_desc in *.
  exact (value_leb_trans _ _ _ Hbc Hab).
Qed.

(** *** What the two searches of [recall_memory] find *)

Lemma graph_memory_rows (ms : list Node) w :
  map_throwing graph_memory (map (fun m => [("m", Neo4j.FNode m)]) ms) w
  = (Ok (map row_of ms), w).
Proof.
  induction ms as [|m ms IH]; [done|].
  cbn [map map_throwing]. unfold bind at 1.
  change (graph_memory [("m", Neo4j.FNode m)] w) with (Ok (row_of m), w).
  unfold bind at 1. rewrite IH. reflexivity.
Qed.

Lemma search_neo4j_finds query type limit w :
  search_neo4j neo4jHandlers query type limit w
  = (Ok (graph_hits query type limit (graph w)), w).
Proof.
  destruct w as [f [ns rs next on ses] c d].
  unfold search_neo4j, neo4jHandlers, graph_hits.
  cbn [query_graph Neo4j.query_graph graph online nodes].
  unfold Neo4j.query_graph, Neo4j.getSession, Neo4j.session_close, Neo4j.run.
  js_run. cbn [graph online set_graph Neo4j.qg_query fs clock draws nodes rels
               next_id sessions].
  destruct on; [|reflexivity].
  cbn [Neo4j.execute Neo4j.records Neo4j.qgr_records set_graph graph fs clock
       draws nodes rels next_id sessions online Nat.pred].
  by rewrite graph_memory_rows.
Qed.

Lemma search_obsidian_finds query type limit w :
  search_obsidian obsidianHandlers query type limit w
  = (Ok (note_hits query type limit w), w).
Proof. reflexivity. Qed.

(** What [recall_memory] answers on the two adapters. *)
Lemma recall_memory_combines args w :
  let query := rm_query args in
  let type := Obsidian.truthy (rm_type args) in
  let limit := default 10 (rm_limit args) in
  let gs := graph_hits query type limit (graph w) in
  let ns := note_hits query type limit w in
  recall_memory neo4jHandlers obsidianHandlers args w
  = (Ok (mkRecallMemoryResult true query
           (firstn limit (map FromGraph gs ++ map note_memory ns))
           (List.length gs) (List.length ns)
           (List.length (map FromGraph gs ++ map note_memory ns))), w).
Proof.
  cbv zeta. unfold recall_memory. unfold bind at 1.
  rewrite search_neo4j_finds. unfold bind at 1.
  rewrite search_obsidian_finds. reflexivity.
Qed.

(** The graph-store results are in descending order of importance. *)
Lemma graph_hits_sorted query type limit g :
  StronglySorted
    (fun a b => value_leb (gm_importance b) (gm_importance a) = true)
    (graph_hits query type limit g).
Proof.
  unfold graph_hits. destruct (online g); [|constructor].
  apply (StronglySorted_fmap row_of importance_desc); [done|].
  set (sorted := merge_sort _ _).
  assert (Hsorted : StronglySorted importance_desc sorted)
    by apply (StronglySorted_merge_sort _).
  rewrite <- (firstn_skipn limit sorted) in Hsorted.
  by apply StronglySorted_app_1_l in Hsorted.
Qed.

End MemoryFacts.

(** *** What stays true while a handler runs *)

Section StoreFacts.
Import Graph Memory.
Context `{Env}.

Lemma kept_ret {A} P (a : A) : kept P (ret a).
Proof. by intros w. Qed.

Lemma kept_bind {A B} P (m : M World A) (k : A -> M World B) :
  kept P m -> (forall a, kept P (k a)) -> kept P (bind m k).
Proof.
  intros Hm Hk w Hw. unfold bind. specialize (Hm w Hw).
  destruct (m w) as [[a|e] w']; [by apply Hk | exact Hm].
Qed.

Lemma kept_try_catch {A} P (m : M World A) (h : error -> M World A) :
  kept P m -> (forall e, kept P (h e)) -> kept P (try_catch m h).
Proof.
  intros Hm Hh w Hw. unfold try_catch. specialize (Hm w Hw).
  destruct (m w) as [[a|e] w']; [exact Hm | by apply Hh].
Qed.

Lemma kept_for_of {A} P (xs : list A) (body : A -> M World unit) :
  (forall x, kept P (body x)) -> kept P (for_of xs body).
Proof.
  intros Hbody. induction xs as [|x xs IH]; [apply kept_ret|].
  cbn [for_of]. apply kept_bind; [apply Hbody | intros _; exact IH].
Qed.

(** The note store adapter writes files only. *)
Lemma fs_access_graph g p : kept (graph_is g) (Obsidian.fs_access p).
Proof.
  intros w Hw. unfold Obsidian.fs_access, Obsidian.lift_fs. js_run.
  by destruct (Fs.access _ _).
Qed.

Lemma fs_mkdir_graph g p : kept (graph_is g) (Obsidian.fs_mkdir_recursive p).
Proof.
  intros w Hw. unfold Obsidian.fs_mkdir_recursive, Obsidian.lift_fs. js_run.
  by destruct (Fs.mkdir_p _ _).
Qed.

Lemma fs_writeFile_graph g p data :
  kept (graph_is g) (Obsidian.fs_writeFile p data).
Proof.
  intros w Hw. unfold Obsidian.fs_writeFile, Obsidian.lift_fs. js_run.
  by destruct (Fs.writeFile _ _ _).
Qed.

Lemma write_note_graph g args : kept (graph_is g) (Obsidian.write_note args).
Proof.
  unfold Obsidian.write_note. apply kept_bind.
  - destruct (default true _); [|apply kept_ret].
    apply kept_try_catch; [apply fs_access_graph|].
    intros _. apply fs_mkdir_graph.
  - intros _. apply kept_bind; [apply fs_writeFile_graph|].
    intros _. apply kept_ret.
Qed.

Lemma create_note_graph g args : kept (graph_is g) (Obsidian.create_note args).
Proof.
  unfold Obsidian.create_note. apply kept_bind; [by intros w|].
  intros now.
  repeat match goal with
         | |- context [if ?b then _ else _] => destruct b
         end; apply write_note_graph.
Qed.

Lemma obsidianHandlers_leaves_graph : leaves_graph obsidianHandlers.
Proof. intros args w. by apply (create_note_graph (graph w)). Qed.

End StoreFacts.

(** *** Recalling when a backend fails *)

Section RecallFacts.
Import Graph Memory.
Context `{Env}.











End RecallFacts.

(** C4.  On the two adapters, [recall_memory] changes nothing and answers
    with the graph-store results, which are in descending order of
    importance and all carry the source [neo4j], followed by the
    note-store results, which all carry the source [obsidian], the whole
    cut to its first [limit] elements.  Nothing is removed in between: in
    the world with the one memory "test", which is in both stores, the
    answer holds it twice, once from each source. *)
Theorem recall_memory_concatenates :
  (forall (E : Env) (args : Memory.RecallMemoryArgs) (w : World),
     let query := Memory.rm_query args in
     let type := Obsidian.truthy (Memory.rm_type args) in
     let limit := default 10 (Memory.rm_limit args) in
     let gs := graph_hits query type limit (graph w) in
     let ns := note_hits query type limit w in
     exists r,
       Memory.recall_memory Memory.neo4jHandlers Memory.obsidianHandlers args w
       = (Ok r, w)
       /\ Memory.rmr_memories r
          = firstn limit (map Memory.FromGraph gs ++ map Memory.note_memory ns)
       /\ StronglySorted
            (fun a b => Graph.value_leb (Memory.gm_importance b)
                          (Memory.gm_importance a) = true) gs
       /\ Forall (fun m => Memory.source m = "neo4j") (map Memory.FromGraph gs)
       /\ Forall (fun m => Memory.source m = "obsidian")
            (map Memory.note_memory ns))
  /\
  (exists r,
     Memory.recall_memory (Memory.neo4jHandlers (H := Posix.env))
       (Memory.obsidianHandlers (H := Posix.env))
       (Memory.mkRecallMemoryArgs "test" None None None) Posix.one_memory
     = (Ok r, Posix.one_memory)
     /\ List.length (Graph.nodes (graph Posix.one_memory)) = 1
     /\ map (fun m => match m with
                      | Memory.FromGraph g => (Memory.gm_id g, "neo4j")
                      | Memory.FromNotes id _ _ => (Graph.VStr id, "obsidian")
                      end) (Memory.rmr_memories r)
        = [(Graph.VStr "mem_1704067200001_r0", "neo4j");
           (Graph.VStr "mem_1704067200001_r0.md", "obsidian")]).
Proof.
  split.
  - intros E args w query type limit gs ns.
    eexists. split; [apply recall_memory_combines|].
    cbn [Memory.rmr_memories]. split; [reflexivity|].
    split; [apply graph_hits_sorted|].
    split.
    + clearbody gs. induction gs; cbn; by constructor.
    + clearbody ns. induction ns; cbn; by constructor.
  - eexists. split; [vm_compute; reflexivity|]. split; reflexivity.
Qed.

(** C2, on the two adapters: in a world where the graph is offline and the
    vault is a file, nothing is stored in either, and [store_memory]
    reports both as stored. *)
Example store_memory_nothing_stored :
  exists r w',
    Memory.store_memory (H := Posix.env) (Memory.neo4jHandlers (H := Posix.env))
      (Memory.obsidianHandlers (H := Posix.env))
      (Memory.mkStoreMemoryArgs "test" "fact" (Some ["t"]) None None None)
      Posix.broken_world = (Ok r, w')
    /\ graph w' = graph Posix.broken_world
    /\ fs w' = fs Posix.broken_world
    /\ Memory.smr_stored_neo4j r = true
    /\ Memory.smr_stored_obsidian r = true.
Proof. eexists _, _. split; [vm_compute; reflexivity|]. by repeat split. Qed.


(** C10, witness: three notes match in a vault without directories; with
    [limit = 2] the walk stops at two. *)
Lemma search_notes_count_before_truncation_witness :
  List.length
    (accumulated (H := Posix.env)
       (Obsidian.mkSearchNotesArgs "test" None None (Some 2)) Posix.flat_vault)
  <= 2.
Proof.
  eapply (proj1 (proj2 search_notes_count_before_truncation) Posix.env
            (Obsidian.mkSearchNotesArgs "test" None None (Some 2))
            Posix.flat_vault).
  - cbn. lia.
  - vm_compute. reflexivity.
  - repeat constructor.
Defined.

(** * Further properties *)

(** ** Strings, continued *)

Section MoreStrFacts.
Import Str.

Lemma str_append_cons c s t : String c s +:+ t = String c (s +:+ t).
Proof. reflexivity. Qed.

Lemma str_append_nil t : "" +:+ t = t.
Proof. reflexivity. Qed.

Lemma str_length_append s t :
  String.length (s +:+ t) = (String.length s + String.length t)%nat.
Proof.
  induction s as [|c s IH]; [done|].
  rewrite str_append_cons. cbn [String.length]. by rewrite IH.
Qed.

Lemma str_drop_append s t : drop (String.length s) (s +:+ t) = t.
Proof.
  induction s as [|c s IH]; [by destruct t|].
  rewrite str_append_cons. exact IH.
Qed.

Lemma str_take_append s t : take (String.length s) (s +:+ t) = s.
Proof.
  induction s as [|c s IH]; [by destruct t|].
  rewrite str_append_cons. cbn [String.length take]. by rewrite IH.
Qed.

Lemma str_take_all s : take (String.length s) s = s.
Proof. induction s as [|c s IH]; cbn [String.length take]; [done | by rewrite IH]. Qed.

Lemma str_drop_0 s : drop 0 s = s.
Proof. by destruct s. Qed.

Lemma str_append_empty_r s : s +:+ "" = s.
Proof.
  induction s as [|c s IH]; [done|]. rewrite str_append_cons. by rewrite IH.
Qed.

Lemma str_append_assoc s t u : (s +:+ t) +:+ u = s +:+ (t +:+ u).
Proof.
  induction s as [|c s IH]; [done|]. rewrite !str_append_cons. by rewrite IH.
Qed.

(** [s + p] ends with [p]. *)
Lemma endsWith_append s p : endsWith (s +:+ p) p = true.
Proof.
  unfold endsWith. rewrite str_length_append.
  replace (String.length s + String.length p - String.length p)%nat
    with (String.length s) by lia.
  rewrite str_drop_append, bool_decide_eq_true_2 by reflexivity.
  rewrite andb_true_r. apply Nat.leb_le. lia.
Qed.

Lemma startsWith_append s p : startsWith (p +:+ s) p = true.
Proof.
  induction p as [|c p IH]; [by destruct s|].
  rewrite str_append_cons. cbn [startsWith].
  by rewrite bool_decide_eq_true_2, IH.
Qed.

End MoreStrFacts.

(** ** File names *)

Section FilenameFacts.
Import Str Obsidian.
Context `{Env}.

Lemma normalizeFilename_md filename :
  endsWith (normalizeFilename filename) ".md" = true.
Proof.
  unfold normalizeFilename. destruct (endsWith filename ".md") eqn:E; cbn.
  - exact E.
  - apply endsWith_append.
Qed.

(** X1.  [normalizeFilename] yields a name that ends in [.md] and leaves
    such a name as it is; so a note has the same path whether it is named
    with the extension or without. *)
Theorem normalizeFilename_idempotent filename :
  endsWith (normalizeFilename filename) ".md" = true
  /\ normalizeFilename (normalizeFilename filename) = normalizeFilename filename
  /\ getFilePath (normalizeFilename filename) = getFilePath filename.
Proof.
  assert (Hidem : normalizeFilename (normalizeFilename filename)
                  = normalizeFilename filename).
  { unfold normalizeFilename at 1. by rewrite normalizeFilename_md. }
  split; [apply normalizeFilename_md|]. split; [exact Hidem|].
  unfold getFilePath. by rewrite Hidem.
Qed.

Lemma endsWith_slash f :
  endsWith (String "/" f) ".md" = endsWith f ".md".
Proof.
  unfold endsWith. cbn [String.length].
  destruct (decide (3 <= String.length f)%nat) as [Hlen|Hlen].
  - replace (S (String.length f) - 3)%nat with (S (String.length f - 3)) by lia.
    cbn [drop].
    by rewrite (proj2 (Nat.leb_le 3 (S (String.length f)))),
               (proj2 (Nat.leb_le 3 (String.length f))) by lia.
  - destruct f as [|a [|b [|c f]]]; cbn in *; try done; lia.
Qed.

Lemma slice_from_1 c s : slice_from (String c s) 1 = s.
Proof.
  unfold slice_from, slice, from_end, length. cbn [String.length].
  rewrite Nat2Z.inj_succ.
  assert (H1 : (1 <? 0)%Z = false) by done.
  assert (H2 : (Z.succ (Z.of_nat (String.length s)) <? 0)%Z = false)
    by (apply Z.ltb_ge; lia).
  rewrite H1, H2.
  replace (Z.to_nat (Z.min 1 (Z.succ (Z.of_nat (String.length s))))) with 1%nat
    by lia.
  replace (Z.to_nat (Z.min (Z.succ (Z.of_nat (String.length s)))
                       (Z.succ (Z.of_nat (String.length s)))) - 1)%nat
    with (String.length s) by lia.
  cbn [drop]. apply str_take_all.
Qed.

Lemma startsWith_nil s : startsWith s "" = true.
Proof. by destruct s. Qed.

Lemma startsWith_cons c s : startsWith (String c s) (String c "") = true.
Proof. cbn [startsWith]. rewrite bool_decide_eq_true_2 by reflexivity. by destruct s. Qed.

(** X2.  One leading slash of a file name is ignored. *)
Theorem getFilePath_leading_slash filename :
  startsWith filename "/" = false ->
  getFilePath (String "/" filename) = getFilePath filename.
Proof.
  intros Hslash. unfold getFilePath, normalizeFilename.
  rewrite endsWith_slash.
  destruct (endsWith filename ".md"); cbn [negb].
  - by rewrite startsWith_cons, slice_from_1, Hslash.
  - rewrite str_append_cons, startsWith_cons, slice_from_1.
    assert (Hs : startsWith (filename +:+ ".md") "/" = false).
    { destruct filename as [|a f]; [reflexivity|].
      rewrite str_append_cons. cbn [startsWith] in *.
      by rewrite startsWith_nil, andb_true_r in *. }
    by rewrite Hs.
Qed.

End FilenameFacts.

(** ** The file system, continued *)

Section MoreFsFacts.
Import Fs.

Lemma fs_lookup_cons name p es :
  lookup (name :: p) (Dir true es)
  = match entry name es with
    | None => inl ENOENT
    | Some x => lookup p x
    end.
Proof. reflexivity. Qed.

Lemma fs_update_cons name name' p f es :
  update (name :: name' :: p) f (Dir true es)
  = match entry name es with
    | None => inl ENOENT
    | Some x =>
        match update (name' :: p) f x with
        | inl e => inl e
        | inr x' => inr (Dir true (set_entry name x' es))
        end
    end.
Proof. reflexivity. Qed.

Lemma fs_update_last name f es :
  update [name] f (Dir true es)
  = match f (entry name es) with
    | inl e => inl e
    | inr (Some x) => inr (Dir true (set_entry name x es))
    | inr None => inr (Dir true (remove_entry name es))
    end.
Proof. reflexivity. Qed.

(** A successful [writeFile] leaves a readable file at the path. *)
Lemma lookup_writeFile p data root root' :
  writeFile p data root = inr root' -> lookup p root' = inr (File true data).
Proof.
  unfold writeFile. revert root root'.
  induction p as [|name p IH]; intros root root' Hw; [discriminate Hw|].
  destruct root as [? ?|[] es]; try discriminate Hw.
  destruct p as [|name' p].
  - rewrite fs_update_last in Hw.
    destruct (entry name es) as [[[] ?|? ?]|]; inversion Hw; subst;
      by rewrite fs_lookup_cons, entry_set_entry.
  - rewrite fs_update_cons in Hw.
    destruct (entry name es) as [x|]; [|discriminate Hw].
    destruct (update (name' :: p) _ x) as [e|x'] eqn:Hx; inversion Hw; subst.
    rewrite fs_lookup_cons, entry_set_entry. eapply IH, Hx.
Qed.

(** A file that exists can be unlinked. *)
Lemma unlink_file p root readable content :
  p <> [] ->
  lookup p root = inr (File readable content) ->
  exists root', unlink p root = inr root'.
Proof.
  unfold unlink. revert root.
  induction p as [|name p IH]; intros root Hp Hl; [done|].
  destruct root as [? ?|[] es]; try discriminate Hl.
  rewrite fs_lookup_cons in Hl.
  destruct (entry name es) as [x|] eqn:Hx; [|discriminate Hl].
  destruct p as [|name' p].
  - cbn in Hl. inversion Hl; subst. rewrite fs_update_last, Hx. eauto.
  - rewrite fs_update_cons, Hx. destruct (IH _ ltac:(done) Hl) as [x' ->]. eauto.
Qed.

Lemma entry_remove_entry name es :
  NoDup es.*1 -> entry name (remove_entry name es) = None.
Proof.
  induction es as [|[n y] es IH]; intros Hnd; [done|].
  apply NoDup_cons in Hnd as [Hn Hnd]. cbn [remove_entry].
  destruct (bool_decide (n = name)) eqn:E.
  - apply bool_decide_eq_true in E. subst n. cbn [fmap list_fmap fst] in Hn.
    clear IH Hnd. induction es as [|[n' y'] es IH]; [done|].
    cbn [entry]. apply not_elem_of_cons in Hn as [Hne Hn].
    rewrite bool_decide_eq_false_2 by (cbn in Hne; congruence). by apply IH.
  - cbn [entry]. rewrite E. by apply IH.
Qed.

(** What has been unlinked is gone, where names are unique. *)
Lemma unlink_gone p root root' :
  unique_names p root = true ->
  unlink p root = inr root' -> lookup p root' = inl ENOENT.
Proof.
  unfold unlink. revert root root'.
  induction p as [|name p IH]; intros root root' Hu Hd; [discriminate Hd|].
  destruct root as [? ?|[] es]; try discriminate Hd.
  cbn [unique_names] in Hu. apply andb_prop in Hu as [Hnd Hu].
  apply bool_decide_eq_true in Hnd.
  destruct p as [|name' p].
  - rewrite fs_update_last in Hd.
    destruct (entry name es) as [[? ?|? ?]|]; inversion Hd; subst.
    by rewrite fs_lookup_cons, entry_remove_entry.
  - rewrite fs_update_cons in Hd.
    destruct (entry name es) as [x|]; [|discriminate Hd].
    destruct (update (name' :: p) _ x) as [e|x'] eqn:Hx; inversion Hd; subst.
    rewrite fs_lookup_cons, entry_set_entry. eapply IH; eauto.
Qed.

Lemma writeFile_nonempty p data root root' :
  writeFile p data root = inr root' -> p <> [].
Proof. by destruct p. Qed.

End MoreFsFacts.

(** ** The note store, continued *)

Section MoreNoteFacts.
Import Str Obsidian Notes.
Context `{Env}.

Lemma byteLength_append s t :
  byteLength (s +:+ t) = (byteLength s + byteLength t)%nat.
Proof.
  induction s as [|c s IH]; [done|].
  rewrite str_append_cons. cbn [byteLength]. rewrite IH. lia.
Qed.

(** What a successful [write_note] answers. *)
Lemma write_note_result args r w w' :
  write_note args w = (Ok r, w') ->
  r = mkWriteNoteResult true (wn_filename args) (getFilePath (wn_filename args))
        (byteLength (match wn_frontmatter args with
                     | Some entries =>
                         buildFrontmatter (Some entries) +:+ LF +:+ wn_content args
                     | None => wn_content args
                     end))
  /\ resolve (getFilePath (wn_filename args)) <> [].
Proof.
  unfold write_note, bind. intros Hw.
  destruct ((if default true (wn_create_dirs args)
             then ensureDir (getFilePath (wn_filename args)) else ret ()) w)
    as [[[]|e] w1]; [|discriminate Hw].
  unfold fs_writeFile, lift_fs in Hw. js_run in Hw.
  destruct (Fs.writeFile _ _ (fs w1)) as [e|root'] eqn:Hfs;
    [discriminate Hw|].
  inversion Hw; subst. split; [reflexivity|].
  eapply writeFile_nonempty, Hfs.
Qed.

(** How [read_note] ends, by what [readFile] finds. *)
Lemma read_note_run args w :
  read_note args w
  = (match Fs.readFile (resolve (getFilePath (rn_filename args))) (fs w) with
     | inr content =>
         Ok (if default true (rn_parse_frontmatter args)
             then mkReadNoteResult true (rn_filename args)
                    (getFilePath (rn_filename args))
                    (Some (frontmatter (parseFrontmatter content)))
                    (body (parseFrontmatter content))
             else mkReadNoteResult true (rn_filename args)
                    (getFilePath (rn_filename args)) None content)
     | inl e =>
         Throw (if bool_decide (e = ENOENT)
                then Error ("Note not found: " +:+ rn_filename args)
                else Fs.error_of e "open")
     end, w).
Proof.
  unfold read_note, fs_readFile, lift_fs. js_run.
  destruct (Fs.readFile _ _) as [e|content].
  - cbn [code Fs.error_of].
    destruct (decide (e = ENOENT)) as [->|Hne].
    + by rewrite !bool_decide_eq_true_2.
    + rewrite !bool_decide_eq_false_2 by congruence. reflexivity.
  - by destruct (default true _).
Qed.

(** X3.  What [write_note] has written, [read_note] without front-matter
    parsing returns unchanged: the front-matter block, a line feed and the
    content when a front-matter is given, the content alone otherwise; the
    size reported by [write_note] is the UTF-8 length of that text. *)
Theorem write_note_read_raw args r w w' :
  write_note args w = (Ok r, w') ->
  let written :=
    match wn_frontmatter args with
    | Some entries => buildFrontmatter (Some entries) +:+ LF +:+ wn_content args
    | None => wn_content args
    end in
  read_note (mkReadNoteArgs (wn_filename args) (Some false)) w'
  = (Ok (mkReadNoteResult true (wn_filename args)
           (getFilePath (wn_filename args)) None written), w')
  /\ wr_size r = byteLength written.
Proof.
  intros Hw written. split.
  - rewrite read_note_run. cbn [rn_filename rn_parse_frontmatter default].
    by rewrite (write_note_stores _ _ _ _ Hw).
  - by destruct (write_note_result _ _ _ _ Hw) as [-> _].
Qed.

(** [read_note] translates one failure only: a missing file gives
    the error [Note not found: <filename>]; any other failure of the
    read, such as a directory in the place of the note, is passed on as
    the file system raised it.  The world is left as it was. *)
Lemma read_note_failure args w e :
  Fs.readFile (resolve (getFilePath (rn_filename args))) (fs w) = inl e ->
  read_note args w
  = (Throw (if bool_decide (e = ENOENT)
            then Error ("Note not found: " +:+ rn_filename args)
            else Fs.error_of e "open"), w).
Proof. intros Hr. by rewrite read_note_run, Hr. Qed.

Lemma delete_note_run filename w :
  delete_note (mkDeleteNoteArgs filename) w
  = match Fs.unlink (resolve (getFilePath filename)) (fs w) with
    | inr root => (Ok (mkDeleteNoteResult true filename true None), set_fs root w)
    | inl e =>
        (if bool_decide (e = ENOENT)
         then Ok (mkDeleteNoteResult true filename false
                    (Some "File does not exist"))
         else Throw (Fs.error_of e "unlink"), w)
    end.
Proof.
  unfold delete_note, fs_unlink, lift_fs. js_run. cbn [dn_filename].
  destruct (Fs.unlink _ _) as [e|root]; [|reflexivity].
  cbn [code Fs.error_of].
  destruct (decide (e = ENOENT)) as [->|Hne].
  - by rewrite !bool_decide_eq_true_2.
  - rewrite !bool_decide_eq_false_2 by congruence. reflexivity.
Qed.

(** X4.  A note that [write_note] has written is never reported as
    missing: [delete_note] does not answer "File does not exist" for it,
    and whenever [delete_note] answers, the answer is [deleted = true]
    and nothing but the file system has changed. *)
Theorem delete_note_after_write args r w w1 :
  write_note args w = (Ok r, w1) ->
  (forall w2,
     delete_note (mkDeleteNoteArgs (wn_filename args)) w1
     <> (Ok (mkDeleteNoteResult true (wn_filename args) false
               (Some "File does not exist")), w2))
  /\
  (forall res w2,
     delete_note (mkDeleteNoteArgs (wn_filename args)) w1 = (Ok res, w2) ->
     res = mkDeleteNoteResult true (wn_filename args) true None
     /\ graph w2 = graph w1 /\ clock w2 = clock w1 /\ draws w2 = draws w1).
Proof.
  intros Hw. rewrite delete_note_run.
  assert (Hfile : exists root,
             Fs.unlink (resolve (getFilePath (wn_filename args))) (fs w1) = inr root).
  { unfold write_note, bind in Hw.
    destruct ((if default true (wn_create_dirs args)
               then ensureDir (getFilePath (wn_filename args)) else ret ()) w)
      as [[[]|e] w0]; [|discriminate Hw].
    unfold fs_writeFile, lift_fs in Hw. js_run in Hw.
    destruct (Fs.writeFile _ _ (fs w0)) as [e|root'] eqn:Hfs;
      [discriminate Hw|].
    inversion Hw; subst. cbn [fs set_fs].
    eapply unlink_file;
      [eapply writeFile_nonempty, Hfs | eapply lookup_writeFile, Hfs]. }
  destruct Hfile as [root ->]. split.
  - intros w2 Heq. inversion Heq.
  - intros res w2 Heq. inversion Heq; subst res w2.
    by destruct w1 as [wfs wg wc wd].
Qed.

(** X5.  After [delete_note] has answered [deleted = true], the note is
    gone, where no directory on the way lists a name twice: [read_note]
    rejects with [Note not found], and a second [delete_note] answers
    [deleted = false]. *)
Theorem delete_note_removes filename parse r w w' :
  unique_names (resolve (getFilePath filename)) (fs w) = true ->
  delete_note (mkDeleteNoteArgs filename) w = (Ok r, w') ->
  dr_deleted r = true ->
  read_note (mkReadNoteArgs filename parse) w'
  = (Throw (Error ("Note not found: " +:+ filename)), w')
  /\ delete_note (mkDeleteNoteArgs filename) w'
     = (Ok (mkDeleteNoteResult true filename false (Some "File does not exist")),
        w').
Proof.
  intros Hu Hd Hr. rewrite delete_note_run in Hd.
  destruct (Fs.unlink _ _) as [e|root] eqn:Hfs.
  - destruct (bool_decide (e = ENOENT)); inversion Hd; subst. discriminate Hr.
  - inversion Hd; subst. pose proof (unlink_gone _ _ _ Hu Hfs) as Hgone.
    split.
    + rewrite read_note_run. cbn [rn_filename]. unfold Fs.readFile.
      destruct w as [wfs wg wc wd]; cbn [fs set_fs] in *. by rewrite Hgone.
    + rewrite delete_note_run.
      destruct w as [wfs wg wc wd]; cbn [fs set_fs] in *.
      by rewrite (unlink_absent _ _ Hgone).
Qed.

(** X6.  [append_note] never creates a note: when the file cannot be
    read, nothing is written; a missing file gives the error
    [Note not found: <filename>. Use write_note to create new notes.],
    any other failure is passed on. *)
Theorem append_note_failure args w e :
  Fs.readFile (resolve (getFilePath (an_filename args))) (fs w) = inl e ->
  append_note args w
  = (Throw (if bool_decide (e = ENOENT)
            then Error ("Note not found: " +:+ an_filename args +:+
                        ". Use write_note to create new notes.")
            else Fs.error_of e "open"), w).
Proof.
  intros Hr. unfold append_note, fs_readFile, lift_fs. js_run. rewrite Hr.
  cbn [code Fs.error_of].
  destruct (decide (e = ENOENT)) as [->|Hne].
  - by rewrite !bool_decide_eq_true_2.
  - rewrite !bool_decide_eq_false_2 by congruence. reflexivity.
Qed.

(** What [append_note] does with a note that can be read: it writes the
    note again with the separator and the new content after what the
    note held, and the outcome of the call is that of the write. *)
Lemma append_note_run args existing w :
  Fs.readFile (resolve (getFilePath (an_filename args))) (fs w) = inr existing ->
  let separator := default (LF +:+ LF) (an_separator args) in
  let newContent := existing +:+ separator +:+ an_content args in
  append_note args w
  = match Fs.writeFile (resolve (getFilePath (an_filename args))) newContent
            (fs w) with
    | inr root =>
        (Ok (mkAppendNoteResult true (an_filename args) (byteLength existing)
               (byteLength newContent)), set_fs root w)
    | inl e =>
        (Throw (if bool_decide (e = ENOENT)
                then Error ("Note not found: " +:+ an_filename args +:+
                            ". Use write_note to create new notes.")
                else Fs.error_of e "open"), w)
    end.
Proof.
  intros Hr separator newContent.
  unfold append_note, fs_readFile, fs_writeFile, lift_fs. js_run.
  rewrite Hr. fold separator newContent.
  destruct (Fs.writeFile _ _ _) as [e|root]; [|reflexivity].
  cbn [code Fs.error_of].
  destruct (decide (e = ENOENT)) as [->|Hne].
  - by rewrite !bool_decide_eq_true_2.
  - rewrite !bool_decide_eq_false_2 by congruence. reflexivity.
Qed.

(** X7.  Whenever [append_note] answers for a note that held [existing],
    it has put the separator (two line feeds unless one is given) and
    the new content after what the note held: that is what [read_note]
    returns afterwards, front-matter parsing off.  The sizes reported
    are those before and after, and the new size is the sum of the sizes
    of the three parts.  Nothing but the file system has changed. *)
Theorem append_note_appends args existing r w w' :
  Fs.readFile (resolve (getFilePath (an_filename args))) (fs w) = inr existing ->
  append_note args w = (Ok r, w') ->
  let separator := default (LF +:+ LF) (an_separator args) in
  read_note (mkReadNoteArgs (an_filename args) (Some false)) w'
  = (Ok (mkReadNoteResult true (an_filename args)
           (getFilePath (an_filename args)) None
           (existing +:+ separator +:+ an_content args)), w')
  /\ r = mkAppendNoteResult true (an_filename args) (byteLength existing)
           (byteLength existing + byteLength separator
            + byteLength (an_content args))
  /\ graph w' = graph w /\ clock w' = clock w /\ draws w' = draws w.
Proof.
  intros Hr Ha separator. rewrite (append_note_run _ _ _ Hr) in Ha.
  cbv zeta in Ha. fold separator in Ha.
  destruct (Fs.writeFile _ _ _) as [e|root] eqn:Hw; [discriminate Ha|].
  inversion Ha; subst r w'. split; [|split].
  - rewrite read_note_run. cbn [rn_filename rn_parse_frontmatter default].
    destruct w as [wfs wg wc wd]; cbn [fs set_fs] in *.
    by rewrite (readFile_writeFile _ _ _ _ Hw).
  - rewrite !byteLength_append. f_equal. lia.
  - by destruct w as [wfs wg wc wd].
Qed.

End MoreNoteFacts.

(** ** Walking the vault *)

Section WalkFacts.
Import Str Obsidian Notes.
Context `{Env}.

(** Induction on a tree of files: a directory inherits from its entries. *)
Lemma node_induction (P : Fs.node -> Prop) :
  (forall readable content, P (Fs.File readable content)) ->
  (forall readable entries,
     Forall (fun e => P e.2) entries -> P (Fs.Dir readable entries)) ->
  forall node, P node.
Proof.
  intros Hfile Hdir.
  fix IH 1. intros [readable content|readable entries].
  - apply Hfile.
  - apply Hdir. induction entries as [|[name x] entries IHes].
    + constructor.
    + constructor; [apply IH | exact IHes].
Qed.

(** Without recursion the loop of [walkDir] collects the listed entries
    in order and stops at the first that fills the limit. *)
Lemma walkDir_loop_flat tag limit dir entries :
  walkDir tag false limit dir (Fs.Dir true entries)
  = firstn (Nat.max 1 limit)
      (map (fun e => note_entry dir e.1) (filter (fun e => listed tag e = true) entries)).
Proof.
  cbn [walkDir].
  match goal with
  | |- ?loop entries [] = _ =>
      enough (Hloop : forall results,
                 List.length results < Nat.max 1 limit ->
                 List.length results = 0 \/ List.length results < limit ->
                 loop entries results
                 = firstn (Nat.max 1 limit)
                     (results ++ map (fun e => note_entry dir e.1)
                                   (filter (fun e => listed tag e = true) entries)))
        by (apply (Hloop []); [cbn; lia | by left])
  end.
  induction entries as [|[name entry] entries IH]; intros results Hstart Hlim.
  - cbn [filter list_filter map]. rewrite app_nil_r.
    by rewrite firstn_all2 by lia.
  - rewrite andb_false_r, filter_cons.
    destruct (listed tag (name, entry)) eqn:Hl.
    + rewrite decide_True by reflexivity. cbn [map fst].
      unfold listed in Hl. cbn [fst snd] in Hl.
      apply andb_prop in Hl as [Hmd Htag]. rewrite Hmd, Htag.
      fold (note_entry dir name).
      destruct (limit <=? List.length (results ++ [note_entry dir name]))%nat
        eqn:Hstop.
      * apply Nat.leb_le in Hstop. rewrite length_app in Hstop.
        cbn [List.length] in Hstop.
        match goal with
        | |- _ = firstn _ (results ++ ?x :: ?rest) =>
            replace (results ++ x :: rest) with ((results ++ [x]) ++ rest)
              by (by rewrite <- app_assoc)
        end.
        replace (Nat.max 1 limit)
          with (List.length (results ++ [note_entry dir name]))
          by (rewrite length_app; cbn [List.length]; lia).
        by rewrite firstn_app, Nat.sub_diag, firstn_all, firstn_O, app_nil_r.
      * apply Nat.leb_gt in Hstop. rewrite length_app in Hstop.
        cbn [List.length] in Hstop.
        match goal with
        | |- _ = firstn _ (results ++ ?x :: ?rest) =>
            replace (results ++ x :: rest) with ((results ++ [x]) ++ rest)
              by (by rewrite <- app_assoc)
        end.
        apply IH; rewrite length_app; cbn [List.length]; lia.
    + rewrite decide_False by done.
      unfold listed in Hl. cbn [fst snd] in Hl.
      destruct (Fs.isFile entry && endsWith name ".md"); [|by apply IH].
      cbn [andb] in Hl. rewrite Hl. by apply IH.
Qed.

(** X8.  [list_notes] without recursion lists the markdown files of the
    directory itself, in the order of the directory, those with the tag
    when a tag is given: the notes returned are the first [limit] of
    them.  The count is the number collected before the loop stopped: at
    most [limit], except that a limit of zero still collects one note,
    so that no note is returned while the count is one. *)
Theorem list_notes_flat directory tag limit entries w :
  let searchPath :=
    match truthy directory with
    | Some d => path_join VAULT_PATH d
    | None => VAULT_PATH
    end in
  let found :=
    map (fun e => note_entry searchPath e.1)
        (filter (fun e => listed (truthy tag) e = true) entries) in
  Fs.lookup (resolve searchPath) (fs w) = inr (Fs.Dir true entries) ->
  list_notes (mkListNotesArgs directory tag (Some false) limit) w
  = (Ok (mkListNotesResult true (firstn (default 100 limit) found)
           (Nat.min (Nat.max 1 (default 100 limit)) (List.length found))), w).
Proof.
  intros searchPath found Hdir. unfold list_notes. js_run.
  cbn [ln_directory ln_tag ln_recursive ln_limit default].
  fold searchPath. rewrite Hdir, walkDir_loop_flat. fold found.
  rewrite length_firstn, firstn_firstn.
  by replace (Nat.min (default 100 limit) (Nat.max 1 (default 100 limit)))
    with (default 100 limit) by lia.
Qed.

(** Every note that [walkDir] collects is a markdown file. *)
Lemma walkDir_md tag recursive limit node :
  forall dir,
    Forall (fun n => endsWith (ne_filename n) ".md" = true)
           (walkDir tag recursive limit dir node).
Proof.
  induction node as [readable content|readable entries IH] using node_induction;
    intros dir; [constructor|].
  destruct readable; [|constructor]. cbn [walkDir].
  match goal with
  | |- Forall ?P (?loop entries []) =>
      enough (Hloop : forall results, Forall P results ->
                                      Forall P (loop entries results))
        by (apply Hloop; constructor)
  end.
  induction IH as [|[name entry] entries Hentry _ IHes]; intros results Hres;
    [exact Hres|].
  cbn [snd] in Hentry.
  destruct (Fs.isDirectory entry && recursive).
  - apply IHes, Forall_app. split; [exact Hres | apply Hentry].
  - destruct (Fs.isFile entry && endsWith name ".md") eqn:Hmd;
      [|by apply IHes].
    apply andb_prop in Hmd as [_ Hmd].
    destruct (match tag with Some t => has_tag t entry | None => true end);
      [|by apply IHes].
    assert (Hnew : Forall (fun n => endsWith (ne_filename n) ".md" = true)
                     (results ++ [mkNoteEntry name
                        (path_relative VAULT_PATH (path_join dir name))
                        (path_dirname (path_relative VAULT_PATH (path_join dir name)))])).
    { apply Forall_app. split; [exact Hres|]. by repeat constructor. }
    destruct (limit <=? _)%nat; [exact Hnew | by apply IHes].
Qed.

(** X9.  [list_notes] never fails and changes nothing: a directory that
    is missing or cannot be listed gives an empty list.  It returns at
    most [limit] notes, each a markdown file; the count is that of the
    notes collected, not less than what is returned. *)
Theorem list_notes_total args w :
  exists r,
    list_notes args w = (Ok r, w)
    /\ lr_success r = true
    /\ List.length (lr_notes r) <= default 100 (ln_limit args)
    /\ List.length (lr_notes r) <= lr_count r
    /\ Forall (fun n => endsWith (ne_filename n) ".md" = true) (lr_notes r).
Proof.
  eexists. split; [reflexivity|]. cbn [lr_success lr_notes lr_count].
  split; [reflexivity|]. rewrite length_firstn.
  split; [lia|]. split; [lia|].
  apply Forall_take.
  destruct (Fs.lookup _ _); [constructor | apply walkDir_md].
Qed.

(** Every hit of a file holds at least one match. *)
Lemma search_file_hit ignoreCase include_content query name filePath file :
  Forall (fun h => hit_filename h = name /\ 1 <= matchCount h
                   /\ (is_Some (snippets h) <-> include_content = true))
         (search_file ignoreCase include_content query name filePath file).
Proof.
  unfold search_file. destruct (Fs.read_node file); [constructor|].
  destruct (count_matches _ _ _ _); [constructor|].
  constructor; [|constructor].
  cbn [hit_filename matchCount snippets]. split; [reflexivity|]. split; [lia|].
  destruct include_content; split; intros Hs; done.
Qed.

Lemma searchInDir_hits ignoreCase include_content query limit node :
  forall dir,
    Forall (fun h => endsWith (hit_filename h) ".md" = true
                     /\ 1 <= matchCount h
                     /\ (is_Some (snippets h) <-> include_content = true))
           (searchInDir ignoreCase include_content query limit dir node).
Proof.
  induction node as [readable content|readable entries IH] using node_induction;
    intros dir; [constructor|].
  destruct readable; [|constructor]. cbn [searchInDir].
  match goal with
  | |- Forall ?P (?loop entries []) =>
      enough (Hloop : forall results, Forall P results ->
                                      Forall P (loop entries results))
        by (apply Hloop; constructor)
  end.
  induction IH as [|[name entry] entries Hentry _ IHes]; intros results Hres;
    [exact Hres|].
  cbn [snd] in Hentry.
  match goal with
  | |- Forall ?P (if (limit <=? List.length ?r)%nat then _ else _) =>
      assert (Hnew : Forall P r)
  end.
  { destruct (Fs.isDirectory entry).
    - apply Forall_app. split; [exact Hres | apply Hentry].
    - destruct (Fs.isFile entry && endsWith name ".md") eqn:Hmd; [|exact Hres].
      apply andb_prop in Hmd as [_ Hmd].
      apply Forall_app. split; [exact Hres|].
      eapply Forall_impl; [apply search_file_hit|].
      intros h (-> & Hcount & Hsnip). by split. }
  destruct (limit <=? _)%nat; [exact Hnew | by apply IHes].
Qed.

(** X10.  Every result of [search_notes] is a markdown file in which the
    query occurs at least once; it carries snippets exactly when
    [include_content] is set. *)
Theorem search_notes_sound args w r w' :
  search_notes args w = (Ok r, w') ->
  Forall (fun h => endsWith (hit_filename h) ".md" = true
                   /\ 1 <= matchCount h
                   /\ (is_Some (snippets h)
                       <-> default false (sn_include_content args) = true))
         (sr_results r).
Proof.
  intros Hs. inversion Hs; subst. cbn [sr_results].
  apply Forall_take.
  destruct (Fs.lookup _ _); [constructor | apply searchInDir_hits].
Qed.

End WalkFacts.

(** ** Front-matter: the parser undoes the builder *)

Section FrontmatterFacts.
Import Str Obsidian.

Lemma occurs_append c s t : occurs c (s +:+ t) = occurs c s || occurs c t.
Proof.
  induction s as [|a s IH]; [reflexivity|].
  rewrite str_append_cons. cbn [occurs]. by rewrite IH, orb_assoc.
Qed.

Lemma str_concat_cons sep x y ys :
  String.concat sep (x :: y :: ys) = x +:+ sep +:+ String.concat sep (y :: ys).
Proof. reflexivity. Qed.

Lemma LF_append t : LF +:+ t = String "010" t.
Proof. reflexivity. Qed.

(** *** Splitting what has been joined *)

Lemma split_without c s : occurs c s = false -> split s c = [s].
Proof.
  induction s as [|a s IH]; [reflexivity|]. cbn [occurs split].
  intros Ho. apply orb_false_elim in Ho as [Ha Ho].
  by rewrite Ha, (IH Ho).
Qed.

Lemma split_append c s t :
  occurs c s = false -> split (s +:+ String c t) c = s :: split t c.
Proof.
  induction s as [|a s IH]; intros Ho.
  - rewrite str_append_nil. cbn [split]. by rewrite bool_decide_eq_true_2.
  - cbn [occurs] in Ho. apply orb_false_elim in Ho as [Ha Ho].
    rewrite str_append_cons. cbn [split]. by rewrite Ha, (IH Ho).
Qed.

Lemma split_concat lines :
  lines <> [] ->
  Forall (fun l => occurs "010" l = false) lines ->
  split (String.concat LF lines) "010" = lines.
Proof.
  intros Hne Hlines. induction Hlines as [|l lines Hl Hlines IH]; [done|].
  destruct lines as [|l' lines].
  - by apply split_without.
  - rewrite str_concat_cons. unfold LF at 1. rewrite str_append_cons, str_append_nil.
    rewrite split_append by exact Hl. by rewrite IH.
Qed.

(** *** The fence that ends the block *)

Lemma lazy_until_skip sep l t :
  occurs "010" l = false ->
  lazy_until (String "010" sep) (l +:+ t)
  = match lazy_until (String "010" sep) t with
    | Some (g, rest) => Some (l +:+ g, rest)
    | None => None
    end.
Proof.
  induction l as [|a l IH]; intros Ho.
  - rewrite str_append_nil. by destruct (lazy_until _ t) as [[g rest]|].
  - cbn [occurs] in Ho. apply orb_false_elim in Ho as [Ha Ho].
    rewrite str_append_cons. cbn [lazy_until startsWith].
    apply bool_decide_eq_false in Ha.
    rewrite bool_decide_eq_false_2 by congruence. cbn [andb].
    rewrite (IH Ho). by destruct (lazy_until _ t) as [[g rest]|].
Qed.

Lemma lazy_until_here sep rest :
  lazy_until sep (sep +:+ rest) = Some ("", rest).
Proof.
  destruct sep as [|a sep].
  - rewrite str_append_nil. by destruct rest.
  - rewrite str_append_cons at 1.
    cbn [lazy_until]. rewrite <- str_append_cons, startsWith_append.
    by rewrite str_drop_append.
Qed.

(** A line with a colon and without line feed is not the fence. *)
Lemma not_fence l t :
  occurs "010" l = false -> occurs ":" l = true ->
  startsWith (l +:+ t) ("---" +:+ LF) = false.
Proof.
  intros Hlf Hcolon.
  change ("---" +:+ LF) with (String "-" (String "-" (String "-" (String "010" "")))).
  destruct l as [|a [|b [|c [|d l]]]]; try discriminate Hcolon;
    rewrite ?str_append_cons; cbn [startsWith occurs] in *;
    repeat case_bool_decide; subst; cbn [andb orb] in *;
    try done; try congruence.
Qed.

(** The block of lines is the shortest text before the closing fence. *)
Lemma lazy_until_lines lines rest :
  lines <> [] ->
  Forall (fun l => occurs "010" l = false /\ occurs ":" l = true) lines ->
  lazy_until (LF +:+ "---" +:+ LF)
    (String.concat LF lines +:+ (LF +:+ "---" +:+ LF) +:+ rest)
  = Some (String.concat LF lines, rest).
Proof.
  intros Hne Hlines.
  change (LF +:+ "---" +:+ LF) with (String "010" ("---" +:+ LF)).
  induction Hlines as [|l lines [Hlf Hcolon] Hlines IH]; [done|].
  destruct lines as [|l' lines].
  - cbn [String.concat]. rewrite lazy_until_skip by exact Hlf.
    by rewrite lazy_until_here, str_append_empty_r.
  - rewrite str_concat_cons, !str_append_assoc.
    rewrite lazy_until_skip by exact Hlf.
    rewrite (LF_append (String.concat LF (l' :: lines) +:+ _)).
    cbn [lazy_until startsWith].
    rewrite bool_decide_eq_true_2 by reflexivity. cbn [andb].
    assert (Hnext : startsWith
                      (String.concat LF (l' :: lines) +:+
                       String "010" ("---" +:+ LF) +:+ rest)
                      ("---" +:+ LF) = false).
    { apply Forall_cons in Hlines as [[Hlf' Hcolon'] _].
      destruct lines as [|l'' lines].
      - cbn [String.concat]. by apply not_fence.
      - rewrite str_concat_cons, str_append_assoc. by apply not_fence. }
    rewrite Hnext, IH by done. reflexivity.
Qed.

(** *** One line *)

Lemma indexOf_first c k t :
  occurs c k = false ->
  indexOf (k +:+ String c t) (String c "") = Z.of_nat (String.length k).
Proof.
  induction k as [|a k IH]; intros Ho.
  - rewrite str_append_nil. cbn [indexOf]. by rewrite startsWith_cons.
  - cbn [occurs] in Ho. apply orb_false_elim in Ho as [Ha Ho].
    rewrite str_append_cons. cbn [indexOf startsWith].
    apply bool_decide_eq_false in Ha.
    rewrite bool_decide_eq_false_2 by congruence. cbn [andb].
    rewrite (IH Ho). cbn [String.length].
    destruct (Z.ltb_spec (Z.of_nat (String.length k)) 0); lia.
Qed.

Lemma str_length_drop n s : String.length (drop n s) = (String.length s - n)%nat.
Proof.
  revert s. induction n as [|n IH]; intros [|a s]; cbn [drop String.length];
    try lia. by rewrite IH.
Qed.

Lemma str_drop_drop_append k n t :
  drop (String.length k + n) (k +:+ t) = drop n t.
Proof.
  induction k as [|a k IH]; [reflexivity|].
  rewrite str_append_cons. exact IH.
Qed.

(** The key of a line: what stands before the first colon. *)
Lemma substring_key k t :
  substring (k +:+ t) 0 (Z.of_nat (String.length k)) = k.
Proof.
  unfold substring, clamp, length. rewrite str_length_append.
  replace (Z.to_nat (Z.max 0 (Z.min 0 _))) with 0%nat by lia.
  replace (Z.to_nat (Z.max 0 (Z.min (Z.of_nat (String.length k)) _)))
    with (String.length k) by lia.
  rewrite Nat.min_0_l, Nat.max_0_l, Nat.sub_0_r, str_drop_0. apply str_take_append.
Qed.

(** The rest of a line: what stands after the first colon. *)
Lemma substring_from_value k c t :
  substring_from (k +:+ String c t) (Z.of_nat (String.length k) + 1) = t.
Proof.
  unfold substring_from, substring, clamp, length. rewrite str_length_append.
  cbn [String.length].
  replace (Z.to_nat (Z.max 0 (Z.min (Z.of_nat (String.length k) + 1) _)))
    with (String.length k + 1)%nat by lia.
  replace (Z.to_nat (Z.max 0 (Z.min (Z.of_nat (String.length k + S (String.length t))) _)))
    with (String.length k + S (String.length t))%nat by lia.
  rewrite Nat.min_l, Nat.max_r by lia.
  rewrite str_drop_drop_append. cbn [drop].
  replace (String.length k + S (String.length t) - (String.length k + 1))%nat
    with (String.length t) by lia.
  apply str_take_all.
Qed.

Lemma trimEnd_last u d :
  is_white d = false -> trimEnd (u +:+ String d "") = u +:+ String d "".
Proof.
  intros Hd. induction u as [|a u IH].
  - rewrite str_append_nil. cbn [trimEnd]. by rewrite Hd.
  - rewrite str_append_cons. cbn [trimEnd]. rewrite IH.
    destruct u; reflexivity.
Qed.

(** A text between two characters that are not white space is left as it
    is by [trim], also after a space. *)
Lemma trim_text c u d :
  is_white c = false -> is_white d = false ->
  trim (String c (u +:+ String d "")) = String c (u +:+ String d "")
  /\ trim (String " " (String c (u +:+ String d "")))
     = String c (u +:+ String d "").
Proof.
  intros Hc Hd.
  assert (Hend : trimEnd (String c (u +:+ String d ""))
                 = String c (u +:+ String d ""))
    by (rewrite <- str_append_cons; by apply trimEnd_last).
  split; unfold trim; cbn [trimStart]; rewrite Hc; [exact Hend|].
  change (is_white " ") with true. cbn iota. exact Hend.
Qed.

(** What stands between the first and the last character. *)
Lemma slice_inner c u d : slice (String c (u +:+ String d "")) 1 (-1) = u.
Proof.
  unfold slice, from_end, length. cbn [String.length].
  rewrite str_length_append. cbn [String.length].
  change (1 <? 0)%Z with false. change (-1 <? 0)%Z with true. cbn iota.
  replace (Z.to_nat (Z.min 1 _)) with 1%nat by lia.
  replace (Z.to_nat (Z.max 0 _)) with (S (String.length u)) by lia.
  cbn [drop]. replace (S (String.length u) - 1)%nat with (String.length u) by lia.
  apply str_take_append.
Qed.

Lemma endsWith_last c u d :
  endsWith (String c (u +:+ String d "")) (String d "") = true.
Proof. rewrite <- str_append_cons. apply endsWith_append. Qed.

Lemma strip_quotes_quoted v : strip_quotes (quoted v) = v.
Proof.
  unfold strip_quotes, quoted.
  rewrite bool_decide_eq_true_2 by reflexivity.
  rewrite endsWith_append, str_length_append. cbn [String.length].
  replace (String.length v + 1 - 1)%nat with (String.length v) by lia.
  apply str_take_append.
Qed.

Lemma parse_value_quoted v : parse_value (quoted v) = FmString v.
Proof.
  unfold parse_value, quoted. cbn [startsWith].
  rewrite (bool_decide_eq_false_2 ("["%char = QUOTE)) by done. cbn [andb].
  rewrite !bool_decide_eq_false_2 by done.
  rewrite bool_decide_eq_true_2 by reflexivity.
  rewrite startsWith_nil, endsWith_last. cbn [andb]. by rewrite slice_inner.
Qed.

Lemma occurs_quoted c v :
  c <> QUOTE -> occurs c (quoted v) = occurs c v.
Proof.
  intros Hc. unfold quoted. cbn [occurs]. rewrite occurs_append. cbn [occurs].
  rewrite bool_decide_eq_false_2 by congruence.
  by rewrite !orb_false_r.
Qed.

Lemma trim_quoted v :
  trim (quoted v) = quoted v /\ trim (String " " (quoted v)) = quoted v.
Proof. by apply trim_text. Qed.

(** The texts of an array, joined by a comma and a space, are found
    again by splitting at the commas, trimming and removing the quotes. *)
Lemma split_array (after_comma : bool) vs :
  vs <> [] ->
  Forall (fun v => occurs "," v = false) vs ->
  map (fun v => strip_quotes (trim v))
      (split ((if after_comma then " " else "") +:+
              String.concat ", " (map quoted vs)) ",")
  = vs.
Proof.
  intros Hne Hvs. revert after_comma.
  induction Hvs as [|v vs Hv Hvs IH]; intros after_comma; [done|].
  assert (Hpiece : occurs "," ((if after_comma then " " else "") +:+ quoted v)
                   = false).
  { rewrite occurs_append, occurs_quoted, Hv by done. by destruct after_comma. }
  assert (Hread : strip_quotes (trim ((if after_comma then " " else "") +:+ quoted v))
                  = v).
  { destruct (trim_quoted v) as [H0 H1].
    destruct after_comma.
    - change (" " +:+ quoted v) with (String " " (quoted v)).
      by rewrite H1, strip_quotes_quoted.
    - by rewrite str_append_nil, H0, strip_quotes_quoted. }
  destruct vs as [|v' vs].
  - cbn [map String.concat]. rewrite split_without by exact Hpiece.
    cbn [map]. by rewrite Hread.
  - specialize (IH ltac:(done) true). cbn [map] in IH |- *.
    rewrite str_concat_cons, <- str_append_assoc.
    change (", " +:+ ?t) with (String "," (" " +:+ t)).
    rewrite split_append by exact Hpiece.
    cbn [map]. rewrite Hread. f_equal. exact IH.
Qed.

Lemma occurs_concat_quoted c sep vs :
  c <> QUOTE -> occurs c sep = false ->
  Forall (fun v => occurs c v = false) vs ->
  occurs c (String.concat sep (map quoted vs)) = false.
Proof.
  intros Hc Hsep Hvs. induction Hvs as [|v vs Hv Hvs IH]; [reflexivity|].
  destruct vs as [|v' vs].
  - cbn [map String.concat]. by rewrite occurs_quoted.
  - cbn [map] in IH |- *.
    rewrite str_concat_cons, !occurs_append, occurs_quoted by done.
    by rewrite Hv, Hsep, IH.
Qed.

(** The text written for a value. *)
Lemma build_line_text key value :
  exists text,
    build_line (key, value) = key +:+ String ":" (String " " text)
    /\ (plain_value value = true -> occurs "010" text = false)
    /\ trim (String " " text) = text
    /\ (plain_value value = true -> parse_value text = reread value).
Proof.
  destruct value as [vs|b|v].
  - exists (String "[" (String.concat ", " (map quoted vs) +:+ "]")).
    split; [reflexivity|].
    assert (Hplain : plain_value (FmArray vs) = true ->
              Forall (fun v => occurs "010" v = false) vs
              /\ Forall (fun v => occurs "," v = false) vs).
    { cbn [plain_value]. rewrite forallb_forall. intros Hall.
      split; apply Forall_forall; intros v Hin;
        apply list_elem_of_In, Hall, andb_prop in Hin as [H1 H2];
        by apply negb_true_iff. }
    split; [|split].
    + intros [Hlf _]%Hplain. cbn [occurs].
      rewrite occurs_append, occurs_concat_quoted by done. reflexivity.
    + by apply trim_text.
    + intros [_ Hcomma]%Hplain. unfold parse_value.
      rewrite startsWith_cons, endsWith_last, slice_inner. cbn [andb].
      destruct vs as [|v vs]; [reflexivity|].
      cbn [reread]. f_equal. by apply (split_array false).
  - exists (if b then "true" else "false").
    split; [by destruct b|]. by destruct b.
  - exists (quoted v). split; [reflexivity|]. split; [|split].
    + cbn [plain_value]. intros Hlf%negb_true_iff. by rewrite occurs_quoted.
    + apply trim_quoted.
    + intros _. apply parse_value_quoted.
Qed.

(** The parser reads a line of the builder as the entry it was built
    from. *)
Lemma parse_build_line o key value :
  plain_entry (key, value) = true ->
  parse_line o (build_line (key, value)) = <[key := reread value]> o
  /\ occurs "010" (build_line (key, value)) = false
  /\ occurs ":" (build_line (key, value)) = true.
Proof.
  unfold plain_entry, plain_key. cbn [fst snd].
  intros [[[[[Hne Hcolon]%andb_prop Hlf]%andb_prop Htrim]%andb_prop
           Hproto]%andb_prop Hvalue]%andb_prop.
  apply bool_decide_eq_true in Hne, Htrim, Hproto.
  apply negb_true_iff in Hcolon, Hlf.
  destruct (build_line_text key value) as (text & -> & Htext & Hspace & Hparse).
  split; [|split].
  - unfold parse_line. rewrite indexOf_first by exact Hcolon.
    assert (Hpos : (Z.of_nat (String.length key) >? 0)%Z = true).
    { destruct key; [done|]. cbn [String.length].
      rewrite Z.gtb_ltb. apply Z.ltb_lt. lia. }
    rewrite Hpos, substring_key, substring_from_value, Htrim, Hspace.
    rewrite (Hparse Hvalue). unfold obj_set.
    by rewrite bool_decide_eq_false_2.
  - rewrite occurs_append. cbn [occurs].
    rewrite Hlf, (Htext Hvalue). reflexivity.
  - rewrite occurs_append. cbn [occurs].
    rewrite bool_decide_eq_true_2 by reflexivity. by rewrite orb_true_r.
Qed.

(** *** The block *)

Lemma foldl_parse_build o entries :
  Forall (fun kv => plain_entry kv = true) entries ->
  foldl parse_line o (map build_line entries)
  = foldl (fun o kv => <[kv.1 := reread kv.2]> o) o entries.
Proof.
  intros Hplain. revert o.
  induction Hplain as [|[key value] entries Hkv _ IH]; intros o; [reflexivity|].
  cbn [map foldl fst snd].
  destruct (parse_build_line o key value Hkv) as [-> _]. apply IH.
Qed.

Lemma concat_fence lines :
  lines <> [] ->
  String.concat LF (lines ++ ["---"; ""])
  = String.concat LF lines +:+ LF +:+ "---" +:+ LF.
Proof.
  induction lines as [|l lines IH]; intros Hne; [done|].
  destruct lines as [|l' lines].
  - reflexivity.
  - change ((l :: l' :: lines) ++ ["---"; ""])
      with (l :: (l' :: lines) ++ ["---"; ""]).
    change ((l' :: lines) ++ ["---"; ""])
      with (l' :: lines ++ ["---"; ""]) at 1.
    rewrite str_concat_cons.
    change (l' :: lines ++ ["---"; ""]) with ((l' :: lines) ++ ["---"; ""]).
    rewrite IH by done. by rewrite str_concat_cons, !str_append_assoc.
Qed.

(** The parser undoes the builder: the text built from one or more plain
    entries, followed by a line feed and a body, is read as the object of
    these entries, a later entry replacing an earlier one of the same
    key, and the body, trimmed.  An empty array is read back as the array
    of one empty text. *)
Lemma parse_build entries content :
  entries <> [] ->
  Forall (fun kv => plain_entry kv = true) entries ->
  parseFrontmatter (buildFrontmatter (Some entries) +:+ LF +:+ content)
  = mkParsed (Some (reread_object entries)) (trim (LF +:+ content)).
Proof.
  intros Hne Hplain.
  assert (Hlines : map build_line entries <> [])
    by (by destruct entries).
  assert (Hok : Forall (fun l => occurs "010" l = false /\ occurs ":" l = true)
                  (map build_line entries)).
  { clear Hne Hlines. induction Hplain as [|[key value] entries Hkv _ IH];
      constructor; [|exact IH].
    by destruct (parse_build_line ∅ key value Hkv) as (_ & ? & ?). }
  assert (Hbuilt : buildFrontmatter (Some entries) +:+ LF +:+ content
                   = ("---" +:+ LF) +:+
                     String.concat LF (map build_line entries) +:+
                     (LF +:+ "---" +:+ LF) +:+ (LF +:+ content)).
  { unfold buildFrontmatter, join. destruct entries as [|e entries]; [done|].
    change (["---"] ++ ?ls) with ("---" :: ls).
    destruct (map build_line (e :: entries)) as [|l lines] eqn:Hmap; [done|].
    change ((l :: lines) ++ ["---"; ""]) with (l :: lines ++ ["---"; ""]).
    rewrite str_concat_cons.
    change (l :: lines ++ ["---"; ""]) with ((l :: lines) ++ ["---"; ""]).
    rewrite concat_fence by done. by rewrite !str_append_assoc. }
  unfold parseFrontmatter, frontmatterRegex. rewrite Hbuilt.
  rewrite startsWith_append.
  change 4 with (String.length ("---" +:+ LF)). rewrite str_drop_append.
  rewrite lazy_until_lines by done.
  rewrite split_concat; [|done|].
  - unfold reread_object. by rewrite foldl_parse_build.
  - eapply Forall_impl; [exact Hok|]. by intros l [? _].
Qed.

End FrontmatterFacts.

Section RoundTripFacts.
Import Str Obsidian.
Context `{Env}.

Lemma reread_object_snoc entries key value :
  reread_object (entries ++ [(key, value)])
  = <[key := reread value]> (reread_object entries).
Proof. unfold reread_object. by rewrite foldl_app. Qed.

(** With keys that differ from each other, the object read back holds
    every entry. *)
Lemma reread_object_lookup entries key value :
  NoDup entries.*1 ->
  (key, value) ∈ entries ->
  reread_object entries !! key = Some (reread value).
Proof.
  induction entries as [|[k v] entries IH] using rev_ind; intros Hnd Hin.
  - by apply elem_of_nil in Hin.
  - rewrite reread_object_snoc. rewrite fmap_app in Hnd.
    apply NoDup_app in Hnd as (Hnd & Hfresh & _).
    apply elem_of_app in Hin as [Hin|Hin].
    + rewrite lookup_insert_ne; [by apply IH|].
      intros <-. apply (Hfresh k); [|cbn; left].
      apply list_elem_of_fmap. by exists (k, value).
    + apply list_elem_of_singleton in Hin. inversion Hin; subst.
      by rewrite lookup_insert_eq.
Qed.

Lemma reread_object_dom entries :
  dom (reread_object entries) = list_to_set entries.*1.
Proof.
  induction entries as [|[k v] entries IH] using rev_ind.
  - unfold reread_object. cbn. by rewrite dom_empty_L.
  - rewrite reread_object_snoc, dom_insert_L, IH, fmap_app, list_to_set_app_L.
    cbn [fmap list_fmap fst list_to_set].
    by rewrite (right_id_L ∅ (∪)), (comm_L (∪)).
Qed.

(** What [read_note] makes of a note written with plain entries. *)
Lemma write_note_parse_build filename body entries create_dirs parse w w' r :
  default true parse = true ->
  entries <> [] ->
  Forall (fun kv => plain_entry kv = true) entries ->
  write_note (mkWriteNoteArgs filename body (Some entries) create_dirs) w
  = (Ok r, w') ->
  read_note (mkReadNoteArgs filename parse) w'
  = (Ok (mkReadNoteResult true filename (getFilePath filename)
           (Some (Some (reread_object entries))) (trim (LF +:+ body))), w')
  /\ dom (reread_object entries) = list_to_set entries.*1
  /\ (NoDup entries.*1 ->
      forall key value, (key, value) ∈ entries ->
        reread_object entries !! key = Some (reread value)).
Proof.
  intros Hparse Hne Hplain Hw. split; [|split].
  - apply write_note_stores in Hw.
    cbn [wn_filename wn_frontmatter wn_content] in Hw.
    rewrite read_note_run. cbn [rn_filename rn_parse_frontmatter].
    by rewrite Hw, Hparse, parse_build.
  - apply reread_object_dom.
  - intros Hnd key value Hin. by apply reread_object_lookup.
Qed.

(** X11.  A note written by [write_note] with a front-matter of one or
    more plain entries (keys that are not empty, hold neither colon nor
    line feed, have no white space around them and are not [__proto__];
    texts without line feed; array elements without line feed and
    comma) is read back by [read_note], front-matter parsing on, with an
    object of exactly the keys written; with keys that differ from each
    other, every value is the one written, except that an empty array is
    read back as the array of one empty text.  The content is the body,
    trimmed. *)
Theorem write_note_read_frontmatter filename body entries create_dirs parse w w' r :
  default true parse = true ->
  entries <> [] ->
  Forall (fun kv => plain_entry kv = true) entries ->
  write_note (mkWriteNoteArgs filename body (Some entries) create_dirs) w
  = (Ok r, w') ->
  read_note (mkReadNoteArgs filename parse) w'
  = (Ok (mkReadNoteResult true filename (getFilePath filename)
           (Some (Some (reread_object entries))) (trim (LF +:+ body))), w')
  /\ dom (reread_object entries) = list_to_set entries.*1
  /\ (NoDup entries.*1 ->
      forall key value, (key, value) ∈ entries ->
        reread_object entries !! key = Some (reread value)).
Proof. apply write_note_parse_build. Qed.

(** X12.  An empty front-matter object writes no block: the file holds a
    line feed and the body, and [read_note] returns no front-matter
    ([null]) and the content with that line feed in front, not trimmed. *)
Theorem write_note_empty_frontmatter filename body create_dirs parse w w' r :
  default true parse = true ->
  write_note (mkWriteNoteArgs filename body (Some []) create_dirs) w
  = (Ok r, w') ->
  read_note (mkReadNoteArgs filename parse) w'
  = (Ok (mkReadNoteResult true filename (getFilePath filename)
           (Some None) (LF +:+ body)), w').
Proof.
  intros Hparse Hw. apply write_note_stores in Hw.
  cbn [wn_filename wn_frontmatter wn_content] in Hw.
  rewrite read_note_run. cbn [rn_filename rn_parse_frontmatter].
  by rewrite Hw, Hparse.
Qed.

(** X13.  A note made by [create_note] reads back with the front-matter
    it was given, where the time stamp, the title and the tags are plain:
    [created] is the time stamp and [tags] the tags.  Without tags (none
    given, or an empty array) the note reads back with one tag, the
    empty text. *)
Theorem create_note_read_tags filename title content tags template parse w w' r :
  default true parse = true ->
  occurs "010" (toISOString (clock w)) = false ->
  (forall t, title = Some t -> occurs "010" t = false) ->
  plain_value (FmArray (default [] tags)) = true ->
  create_note (mkCreateNoteArgs filename title content tags template) w
  = (Ok r, w') ->
  exists fm text,
    read_note (mkReadNoteArgs filename parse) w'
    = (Ok (mkReadNoteResult true filename (getFilePath filename)
             (Some (Some fm)) text), w')
    /\ fm !! "created" = Some (FmString (toISOString (clock w)))
    /\ fm !! "tags" = Some (match default [] tags with
                            | [] => FmArray [""]
                            | ts => FmArray ts
                            end).
Proof.
  intros Hparse Hstamp Htitle Htags Hc.
  unfold create_note, bind, new_Date in Hc.
  cbn [cn_filename cn_title cn_content cn_tags cn_template] in Hc.
  assert (Hplain_title : forall t, truthy title = Some t ->
            plain_entry ("title", FmString t) = true).
  { intros t Ht. unfold plain_entry. cbn [fst snd plain_value].
    rewrite (Htitle t); [reflexivity|].
    destruct title as [[|a t']|]; cbn in Ht; congruence. }
  assert (Hcreated : plain_entry ("created", FmString (toISOString (clock w)))
                     = true).
  { unfold plain_entry. cbn [fst snd plain_value]. by rewrite Hstamp. }
  assert (Htagsp : plain_entry ("tags", FmArray (default [] tags)) = true).
  { unfold plain_entry. cbn [fst snd]. by rewrite Htags. }
  assert (Hreread : reread (FmArray (default [] tags))
                    = match default [] tags with
                      | [] => FmArray [""]
                      | ts => FmArray ts
                      end) by (by destruct (default [] tags)).
  rewrite <- Hreread.
  destruct (truthy title) as [t|] eqn:Ht;
    [specialize (Hplain_title t eq_refl)|clear Hplain_title];
    cbn [app] in Hc;
    repeat (match type of Hc with
            | context [bool_decide ?P] => destruct (bool_decide P)
            end);
    match type of Hc with
    | write_note (mkWriteNoteArgs _ ?full (Some ?entries) _) _ = _ =>
        destruct (write_note_parse_build filename full entries (Some true)
                    parse _ _ _ Hparse ltac:(done)
                    ltac:(repeat constructor; assumption || reflexivity) Hc)
          as (Hread & _ & Hlookup);
        exists (reread_object entries), (trim (LF +:+ full));
        split; [exact Hread|];
        assert (Hnd : NoDup entries.*1)
          by (apply (bool_decide_unpack _); vm_compute; exact I);
        split;
        [apply (Hlookup Hnd "created" (FmString (toISOString (clock w))))
        |apply (Hlookup Hnd "tags" (FmArray (default [] tags)))];
        repeat first [apply list_elem_of_here | apply list_elem_of_further]
    end.
Qed.

End RoundTripFacts.

(** ** The graph store, continued *)

Section MoreGraphFacts.
Import Graph Neo4j.
Context `{Env}.

(** No statement opens or closes a session, or takes the store off
    line. *)
Lemma execute_sessions st g :
  sessions (execute st g).2 = sessions g /\ online (execute st g).2 = online g.
Proof.
  destruct st as [label name p|id p|id detach|fl fn tl tn ty p|q ty limit];
    cbn [execute]; try (split; reflexivity).
  destruct (List.filter (has_id id) (nodes g)) as [|n0 doomed];
    destruct (List.filter (touches id) (rels g)) as [|r0 attached];
    destruct detach; split; reflexivity.
Qed.

Lemma run_sessions st w :
  sessions (graph (run st w).2) = sessions (graph w).
Proof.
  unfold run. destruct (online (graph w)); [|reflexivity].
  pose proof (execute_sessions st (graph w)) as [Hs _].
  destruct (execute st (graph w)) as [r g']. by destruct w.
Qed.

(** The session of a handler: opened first, closed on every way out of
    the body. *)
Lemma scoped_session {A} (body : M World A) w :
  (forall w0, sessions (graph (body w0).2) = sessions (graph w0)) ->
  sessions (graph ((getSession ;;; try_finally body session_close) w).2)
  = sessions (graph w).
Proof.
  intros Hbody. unfold bind, try_finally, getSession. cbn beta iota.
  match goal with
  | |- context [body ?w1] =>
      specialize (Hbody w1); destruct (body w1) as [r w2]
  end.
  cbn [snd] in *. unfold session_close.
  destruct w as [f g c d], w2 as [f2 g2 c2 d2]. cbn in *.
  rewrite Hbody. reflexivity.
Qed.

Lemma kept_still {A} P (m : M World A) :
  (forall w, (m w).2 = w) -> kept P m.
Proof. intros Hm w Hw. by rewrite Hm. Qed.

Lemma first_record_still result w : (first_record result w).2 = w.
Proof. unfold first_record. by destruct (records result). Qed.

Lemma get_node_still key r w : (get_node key r w).2 = w.
Proof. unfold get_node. by destruct (get key r) as [[]|]. Qed.

Lemma get_rel_still key r w : (get_rel key r w).2 = w.
Proof. unfold get_rel. by destruct (get key r) as [[]|]. Qed.

Lemma get_id_still key r w : (get_id key r w).2 = w.
Proof. unfold get_id. by destruct (get key r) as [[]|]. Qed.

Lemma kept_sessions_run n st :
  kept (fun w => sessions (graph w) = n) (run st).
Proof. intros w Hw. by rewrite run_sessions. Qed.

Lemma kept_sessions_timestamp n :
  kept (fun w => sessions (graph w) = n) timestamp.
Proof. by intros w Hw. Qed.

(** Solves [kept P body] for the body of a handler. *)
Ltac kept_body :=
  repeat first
    [ apply kept_sessions_timestamp
    | apply kept_sessions_run
    | apply kept_ret
    | apply kept_still; intros ?;
      first [ apply first_record_still | apply get_node_still
            | apply get_rel_still | apply get_id_still | reflexivity ]
    | apply kept_bind; [|intros ?]
    | match goal with
      | |- kept _ (match ?x with _ => _ end) => destruct x
      end ].

(** X14.  Every handler of the graph store closes the session it has
    opened, on every way out: whether it resolves or rejects, the number
    of open sessions is afterwards what it was before. *)
Theorem sessions_released w :
  (forall args, sessions (graph (create_entity args w).2) = sessions (graph w))
  /\ (forall args, sessions (graph (update_entity args w).2) = sessions (graph w))
  /\ (forall args, sessions (graph (delete_entity args w).2) = sessions (graph w))
  /\ (forall args,
        sessions (graph (create_relationship args w).2) = sessions (graph w))
  /\ (forall args, sessions (graph (query_graph args w).2) = sessions (graph w)).
Proof.
  repeat split; intros args;
    apply scoped_session; intros w0;
    match goal with
    | |- sessions (graph (?body w0).2) = ?n =>
        enough (Hkept : kept (fun w => sessions (graph w) = n) body)
          by (apply Hkept; reflexivity)
    end; kept_body.
Qed.

Lemma length_create_edges rel_type p id rs :
  List.length (create_edges rel_type p id rs) = List.length rs.
Proof.
  revert id. induction rs as [|[f t] rs IH]; intros id; [reflexivity|].
  cbn [create_edges List.length]. by rewrite IH.
Qed.

Lemma length_rows froms tos :
  List.length (rows froms tos) = List.length froms * List.length tos.
Proof.
  unfold rows. induction froms as [|f froms IH]; [reflexivity|].
  cbn [flat_map List.length]. rewrite length_app, length_map, IH. lia.
Qed.

Lemma create_edges_ends rel_type p id rs :
  Forall (fun r => type r = rel_type
                   /\ exists f t, In (f, t) rs
                                  /\ startNode r = elementId f
                                  /\ endNode r = elementId t)
         (create_edges rel_type p id rs).
Proof.
  revert id. induction rs as [|[f t] rs IH]; intros id; [constructor|].
  cbn [create_edges]. constructor.
  - split; [reflexivity|]. exists f, t. split; [by left | by split].
  - eapply Forall_impl; [apply IH|].
    intros r (Hty & f' & t' & Hin & Hs & He). split; [exact Hty|].
    exists f', t'. split; [by right | by split].
Qed.

Lemma in_rows f t froms tos :
  In (f, t) (rows froms tos) -> In f froms /\ In t tos.
Proof.
  unfold rows. rewrite in_flat_map. intros (f' & Hf & Hin).
  apply in_map_iff in Hin as (t' & Heq & Ht). inversion Heq; subst. by split.
Qed.

(** X15.  In a store that is online, for labels and a type that are
    names, [create_relationship] creates one relationship for every pair
    of a node matched at the first end and a node matched at the second:
    the number of relationships gained is the product of the numbers of
    matches, each leads from a match of the first end to a match of the
    second, and each has the type given in upper case, that is, with
    every small letter replaced by its capital letter and nothing else
    changed.  The answer names one of them only: the id reported is that
    of the first. *)
Theorem create_relationship_product args w :
  online (graph w) = true ->
  is_name (cr_from_label args) = true ->
  is_name (cr_to_label args) = true ->
  is_name (cr_relationship_type args) = true ->
  let froms := List.filter (matches (cr_from_label args) (cr_from_name args))
                 (nodes (graph w)) in
  let tos := List.filter (matches (cr_to_label args) (cr_to_name args))
               (nodes (graph w)) in
  exists created,
    rels (graph (create_relationship args w).2) = rels (graph w) ++ created
    /\ List.length created = List.length froms * List.length tos
    /\ Forall (fun r => uppercased (cr_relationship_type args) (type r) = true
                        /\ exists f t, In f froms /\ In t tos
                                       /\ startNode r = elementId f
                                       /\ endNode r = elementId t) created
    /\ (forall res w', create_relationship args w = (Ok res, w') ->
          crr_id res = next_id (graph w)
          /\ option_map rel_elementId (head created) = Some (crr_id res)).
Proof.
  intros Hon _ _ _ froms tos. exists (new_edges args w).
  rewrite (create_relationship_online _ _ Hon).
  split; [reflexivity|]. split; [|split].
  - unfold new_edges. by rewrite length_create_edges, length_rows.
  - unfold new_edges. eapply Forall_impl; [apply create_edges_ends|].
    intros r (Hty & f & t & Hin & Hs & He).
    split; [rewrite Hty; apply uppercased_toUpperCase|].
    apply in_rows in Hin as [Hf Ht]. by exists f, t.
  - intros res w' Hres. unfold new_edges in *.
    destruct (rows _ _) as [|[f t] rs]; cbn [create_edges] in Hres;
      inversion Hres; subst. by split.
Qed.

(** What [update_entity] does in a world that is online. *)
Lemma update_entity_online id p w :
  online (graph w) = true ->
  let p' := <["updatedAt" := VStr (toISOString (clock w))]> p in
  let set e := if has_id id e
               then mkNode (elementId e) (labels e) (set_props p' (properties e))
               else e in
  update_entity (mkUpdateEntityArgs id p) w
  = (match List.filter (has_id id) (map set (nodes (graph w))) with
     | [] => Throw (Error ("Entity not found: " +:+ pretty id))
     | e :: _ => Ok (mkUpdateEntityResult true id (properties e))
     end,
     stamped (with_nodes (map set (nodes (graph w))) (next_id (graph w))
                (graph w)) w).
Proof.
  destruct w as [f [ns rs next on ses] c d]. cbn. intros ->.
  unfold update_entity, run, getSession, session_close, timestamp, new_Date.
  js_run. cbn.
  destruct (List.filter _ _) as [|e es]; reflexivity.
Qed.

Lemma filter_map_set id (set : Node -> Node) ns :
  (forall e, elementId (set e) = elementId e) ->
  List.filter (has_id id) (map set ns) = map set (List.filter (has_id id) ns).
Proof.
  intros Hset. induction ns as [|n ns IH]; [reflexivity|].
  simpl. rewrite IH. unfold has_id. rewrite Hset.
  by destruct (bool_decide (elementId n = id)).
Qed.

Lemma stored_lookup (m : props) k v :
  v <> VNull -> m !! k = Some v -> stored m !! k = Some v.
Proof.
  intros Hv Hk. unfold stored. apply map_lookup_filter_Some. by split.
Qed.

Lemma set_props_lookup_new (new old : props) k v :
  new !! k = Some v -> v <> VNull -> set_props new old !! k = Some v.
Proof.
  intros Hk Hv. apply stored_lookup; [exact Hv|].
  by apply lookup_union_Some_l.
Qed.

Lemma set_props_lookup_null (new old : props) k :
  new !! k = Some VNull -> set_props new old !! k = None.
Proof.
  intros Hk. unfold set_props, stored. apply map_lookup_filter_None. right.
  intros v Hv. rewrite (lookup_union_Some_l _ _ _ _ Hk) in Hv.
  inversion Hv; subst. cbn. tauto.
Qed.

Lemma set_props_lookup_old (new old : props) k :
  new !! k = None -> set_props new old !! k = stored old !! k.
Proof.
  intros Hk. unfold set_props, stored.
  rewrite !map_lookup_filter, lookup_union_r by exact Hk. reflexivity.
Qed.

(** X16.  In a store that is online and has exactly one node of the
    given id, [update_entity] lays the given properties over those of
    the node and stamps it: the answer holds [updatedAt], the time of the
    call, whatever the caller gave under that key; every other property
    given is there with the value given, except that one given as [null]
    is removed; a property not given is what it was.  The other nodes,
    the relationships and the ids are what they were. *)
Theorem update_entity_overlays id p n w :
  online (graph w) = true ->
  List.filter (has_id id) (nodes (graph w)) = [n] ->
  exists res w',
    update_entity (mkUpdateEntityArgs id p) w = (Ok res, w')
    /\ uer_success res = true /\ uer_id res = id
    /\ uer_properties res !! "updatedAt" = Some (VStr (toISOString (clock w)))
    /\ (forall k v, k <> "updatedAt" -> p !! k = Some v ->
          uer_properties res !! k = if decide (v = VNull) then None else Some v)
    /\ (forall k, k <> "updatedAt" -> p !! k = None ->
          uer_properties res !! k = stored (properties n) !! k)
    /\ (forall m, In m (nodes (graph w)) -> elementId m <> id ->
          In m (nodes (graph w')))
    /\ List.length (nodes (graph w')) = List.length (nodes (graph w))
    /\ rels (graph w') = rels (graph w)
    /\ next_id (graph w') = next_id (graph w).
Proof.
  intros Hon Hone. rewrite (update_entity_online _ _ _ Hon). cbv zeta.
  rewrite filter_map_set by (intros e; by destruct (has_id id e)).
  rewrite Hone. cbn [map].
  assert (Hn : has_id id n = true).
  { assert (Hin : In n (List.filter (has_id id) (nodes (graph w))))
      by (rewrite Hone; by left).
    by apply filter_In in Hin as [_ ?]. }
  rewrite Hn. eexists _, _. split; [reflexivity|].
  cbn [uer_success uer_id uer_properties properties].
  split; [reflexivity|]. split; [reflexivity|].
  split; [|split; [|split; [|split; [|split; [|split]]]]].
  - apply set_props_lookup_new; [by rewrite lookup_insert_eq | done].
  - intros k v Hk Hp. destruct (decide (v = VNull)) as [->|Hv].
    + apply set_props_lookup_null. by rewrite lookup_insert_ne.
    + apply set_props_lookup_new; [by rewrite lookup_insert_ne | exact Hv].
  - intros k Hk Hp. apply set_props_lookup_old. by rewrite lookup_insert_ne.
  - intros m Hin Hm. destruct w as [f [ns rs next on ses] c d]. cbn in *.
    apply in_map_iff. exists m. split; [|exact Hin].
    unfold has_id. by rewrite bool_decide_eq_false_2.
  - destruct w as [f [ns rs next on ses] c d]. cbn. by rewrite length_map.
  - by destruct w as [f [ns rs next on ses] c d].
  - by destruct w as [f [ns rs next on ses] c d].
Qed.

End MoreGraphFacts.

Section EntitiesFacts.
Import Graph Neo4j Entities.

Lemma entities_of_records records ns w :
  holds_entities records ns ->
  Memory.map_throwing
    (fun record => node <- get_node "e" record ;; ret (entity_of node))
    records w
  = (Ok (map entity_of ns), w).
Proof.
  induction 1 as [|record n records ns Hn _ IH]; [reflexivity|].
  cbn [map Memory.map_throwing]. unfold bind at 1. unfold bind at 1.
  unfold get_node at 1. rewrite Hn. cbn [ret].
  unfold bind at 1. rewrite IH. reflexivity.
Qed.

(** The text and the parameters that [find_entities] builds. *)
Lemma find_entities_run session_run args w :
  find_entities session_run args w
  = (getSession ;;;
     try_finally
       (result <- session_run
                    (entities_text (fe_label args) (fe_name_contains args))
                    (entities_params (fe_name_contains args)
                       (default 50 (fe_limit args))) ;;
        entities <- Memory.map_throwing
                      (fun record => node <- get_node "e" record ;;
                                     ret (entity_of node))
                      (records result) ;;
        ret (mkFindEntitiesResult true entities (List.length entities)))
       session_close) w.
Proof.
  unfold find_entities, entities_text, entities_params.
  destruct (Obsidian.truthy (fe_label args)) as [l|];
    destruct (Obsidian.truthy (fe_name_contains args)) as [s|];
    cbv zeta; cbn [app]; rewrite ?str_append_assoc; reflexivity.
Qed.

(** X19.  [find_entities] hands one text to the server: the label, when
    one that is not empty is given, is part of the text, and so is the
    condition on the name, when a part of a name that is not empty is
    given; the part of the name and the limit, 50 unless one is given,
    are bound as parameters.  When the server answers with records that
    each hold a node [e], the answer holds the id, the first label and
    the properties of every node, in the order of the records, and their
    number; when the server rejects, [find_entities] rejects with the
    same error.  The session is closed in both cases. *)
Theorem find_entities_answers session_run args w :
  let text := entities_text (fe_label args) (fe_name_contains args) in
  let params := entities_params (fe_name_contains args)
                  (default 50 (fe_limit args)) in
  (forall result w' ns,
     session_run text params (getSession w).2 = (Ok result, w') ->
     holds_entities (records result) ns ->
     find_entities session_run args w
     = (Ok (mkFindEntitiesResult true (map entity_of ns) (List.length ns)),
        session_close w'))
  /\ (forall e w',
        session_run text params (getSession w).2 = (Throw e, w') ->
        find_entities session_run args w = (Throw e, session_close w')).
Proof.
  intros text params. split.
  - intros result w' ns Hrun Hns. rewrite find_entities_run.
    fold text params. unfold bind at 1. cbn [getSession snd] in *.
    unfold try_finally. unfold bind at 1. rewrite Hrun.
    unfold bind at 1. rewrite (entities_of_records _ _ _ Hns).
    cbn [ret]. by rewrite length_map.
  - intros e w' Hrun. rewrite find_entities_run.
    fold text params. unfold bind at 1. cbn [getSession snd] in *.
    unfold try_finally. unfold bind at 1. by rewrite Hrun.
Qed.

End EntitiesFacts.

(** ** The memory orchestrator, continued *)

Section RecollectionFacts.
Import Graph Memory Recollection.
Context `{Env}.

(** No record has a [get] that can be called. *)
Lemma record_get_throws record key w :
  record_get record key w
  = (Throw (TypeError "record.get is not a function"), w).
Proof. unfold record_get. by destruct (Neo4j.get "get" record). Qed.

(** The loop over the records ends at the first record. *)
Lemma for_each_add_record records graph w :
  for_each records graph add_record w
  = (match records with
     | [] => Ok graph
     | _ :: _ => Throw (TypeError "record.get is not a function")
     end, w).
Proof.
  destruct records as [|record records]; [reflexivity|].
  cbn [for_each]. unfold bind at 1. unfold add_record at 1.
  unfold bind at 1. by rewrite record_get_throws.
Qed.

(** X20.  [get_knowledge_graph] never rejects and never returns a node or
    a link: the records that [query_graph] resolves to are plain objects,
    so the first record makes the loop fail on [record.get], and the
    failure is answered with [success = false] and an empty graph.
    [success] is true exactly when the query resolves to no record at
    all. *)
Theorem get_knowledge_graph_empty (backend : GraphHandlers) args w :
  exists r w',
    get_knowledge_graph backend args w = (Ok r, w')
    /\ w' = (query_graph backend
               (KnowledgeGraph (kg_concept args) (default 2 (kg_depth args))
                  (default 50 (kg_limit args))) w).2
    /\ kgr_nodes r = [] /\ kgr_links r = []
    /\ (kgr_success r = true
        <-> exists res,
              query_graph backend
                (KnowledgeGraph (kg_concept args) (default 2 (kg_depth args))
                   (default 50 (kg_limit args))) w = (Ok res, w')
              /\ Neo4j.qgr_records res = [])
    /\ (forall res record records,
          query_graph backend
            (KnowledgeGraph (kg_concept args) (default 2 (kg_depth args))
               (default 50 (kg_limit args))) w = (Ok res, w') ->
          Neo4j.qgr_records res = record :: records ->
          kgr_error r = Some "record.get is not a function").
Proof.
  unfold get_knowledge_graph, try_catch. unfold bind at 1.
  destruct (query_graph backend _ w) as [[res|e] w1] eqn:Hq.
  - unfold bind. rewrite for_each_add_record.
    destruct (Neo4j.qgr_records res) as [|record records] eqn:Hrec.
    + eexists _, _. split; [reflexivity|]. cbn.
      split; [reflexivity|]. split; [reflexivity|]. split; [reflexivity|].
      split; [|intros ? ? ? Heq; inversion Heq; subst; congruence].
      split; [|reflexivity]. intros _. by exists res.
    + eexists _, _. split; [reflexivity|]. cbn.
      split; [reflexivity|]. split; [reflexivity|]. split; [reflexivity|].
      split; [|reflexivity].
      split; [discriminate|]. intros (res' & Heq & Hnil).
      inversion Heq; subst. congruence.
  - eexists _, _. split; [reflexivity|]. cbn.
    split; [reflexivity|]. split; [reflexivity|]. split; [reflexivity|].
    split; [|intros ? ? ? Heq; discriminate Heq].
    split; [discriminate|]. intros (res' & Heq & _). discriminate Heq.
Qed.

(** X21.  [search_memories_by_date] never rejects.  When the query
    rejects, the answer is [success = false] with the message of the
    error and no memory; when it resolves to rows that each hold a node
    [m], the answer holds the five properties of every node, in the order
    of the rows, and their number.  The condition on the type is part of
    the query exactly when a type that is not empty is given. *)
Theorem search_memories_by_date_answers (backend : GraphHandlers) args w :
  let q := MemoriesByDate (ds_from args) (ds_to args)
             (Obsidian.truthy (ds_type args)) in
  (exists r, search_memories_by_date backend args w
             = (Ok r, (query_graph backend q w).2))
  /\ (forall e w',
        query_graph backend q w = (Throw e, w') ->
        search_memories_by_date backend args w
        = (Ok (mkDateSearchResult false None None (Some (message e)) [] None), w'))
  /\ (forall res ms w',
        query_graph backend q w = (Ok res, w') ->
        Neo4j.qgr_records res = map (fun m => [("m", Neo4j.FNode m)]) ms ->
        search_memories_by_date backend args w
        = (Ok (mkDateSearchResult true (Some (ds_from args)) (Some (ds_to args))
                 None (map row_of ms) (Some (List.length ms))), w')).
Proof.
  intros q. unfold search_memories_by_date, try_catch. unfold bind at 1 3 5.
  fold q. split; [|split].
  - destruct (query_graph backend q w) as [[res|e] w1]; [|by eexists].
    unfold bind.
    assert (Hstill : forall rs w0, (map_throwing graph_memory rs w0).2 = w0).
    { induction rs as [|rec rs IH]; intros w0; [reflexivity|].
      cbn [map_throwing]. unfold bind.
      unfold graph_memory at 1.
      destruct (Neo4j.get "m" rec) as [[m| |]|]; cbn; try reflexivity.
      specialize (IH w0). by destruct (map_throwing graph_memory rs w0) as [[]]. }
    specialize (Hstill (Neo4j.qgr_records res) w1).
    destruct (map_throwing _ _ w1) as [[ms|e] w2]; cbn in Hstill; subst;
      by eexists.
  - intros e w' ->. reflexivity.
  - intros res ms w' -> Hrows. unfold bind.
    rewrite Hrows, graph_memory_rows, length_map. reflexivity.
Qed.

(** X22.  [update_memory_importance] never rejects, whatever answers
    [update_entity].  On the adapter, in a store that is online: an id
    that no node has is answered with [success = false] and the error
    [Entity not found: <id>]; with exactly one node of that id, the
    answer is [success = true] and the node then holds the importance,
    the reason, when one is given, and the time of the call. *)
Theorem update_memory_importance_answers args w :
  (forall backend : GraphHandlers,
     exists r w', update_memory_importance backend args w = (Ok r, w'))
  /\ (forall q,
        online (graph w) = true ->
        Forall (fun n => elementId n <> im_id args) (nodes (graph w)) ->
        exists w',
          update_memory_importance (with_update_entity q) args w
          = (Ok (mkImportanceResult false None None None
                   (Some ("Entity not found: " +:+ pretty (im_id args)))), w')
          /\ nodes (graph w') = nodes (graph w))
  /\ (forall q n,
        online (graph w) = true ->
        List.filter (Neo4j.has_id (im_id args)) (nodes (graph w)) = [n] ->
        exists w' n',
          update_memory_importance (with_update_entity q) args w
          = (Ok (mkImportanceResult true (Some (im_id args))
                   (Some (im_importance args)) (im_reason args) None), w')
          /\ In n' (nodes (graph w'))
          /\ elementId n' = im_id args
          /\ prop "importance" n' = VNum (im_importance args)
          /\ (forall reason, im_reason args = Some reason ->
                prop "importanceReason" n' = VStr reason)
          /\ prop "importanceUpdatedAt" n' = VStr (toISOString (clock w))).
Proof.
  split; [|split].
  - intros backend. unfold update_memory_importance, try_catch, bind, new_Date.
    destruct (update_entity backend _ _) as [[res|e] w1]; by eexists _, _.
  - intros q Hon Hnone.
    unfold update_memory_importance, try_catch, bind, new_Date.
    cbn [update_entity with_update_entity].
    rewrite update_entity_online by exact Hon. cbv zeta.
    rewrite filter_map_set by (intros e; by destruct (Neo4j.has_id _ e)).
    cbn [graph nodes].
    rewrite (filter_none _ _ (unmatched_id _ _ Hnone)). cbn [map].
    eexists. split; [reflexivity|].
    cbn [graph stamped with_nodes nodes].
    apply unmatched_id in Hnone.
    clear -Hnone. induction Hnone as [|m ms Hm _ IH]; [reflexivity|].
    cbn [map]. by rewrite Hm, IH.
  - intros q n Hon Hone.
    unfold update_memory_importance, try_catch, bind, new_Date.
    cbn [update_entity with_update_entity].
    rewrite update_entity_online by exact Hon. cbv zeta.
    rewrite filter_map_set by (intros e; by destruct (Neo4j.has_id _ e)).
    cbn [graph nodes clock]. rewrite Hone. cbn [map].
    assert (Hin : In n (nodes (graph w)) /\ Neo4j.has_id (im_id args) n = true).
    { apply filter_In. rewrite Hone. by left. }
    destruct Hin as [Hin Hn].
    eexists _, (mkNode (elementId n) (labels n) (set_props _ (properties n))).
    split; [reflexivity|].
    cbn [graph stamped with_nodes nodes].
    split; [|split; [|split; [|split]]].
    + apply in_map_iff. exists n. split; [|exact Hin]. rewrite Hn. reflexivity.
    + cbn. by apply bool_decide_eq_true in Hn.
    + unfold prop. cbn [properties].
      erewrite set_props_lookup_new; [reflexivity| |done].
      by rewrite !lookup_insert_ne, lookup_insert_eq by done.
    + intros reason Hreason. unfold prop. cbn [properties].
      rewrite Hreason. cbn [optional_string].
      erewrite set_props_lookup_new; [reflexivity| |done].
      by rewrite !lookup_insert_ne, lookup_insert_eq by done.
    + unfold prop. cbn [properties].
      erewrite set_props_lookup_new; [reflexivity| |done].
      by rewrite !lookup_insert_ne, lookup_insert_eq by done.
Qed.

End RecollectionFacts.

(** ** Dispatch, continued *)

Section MoreDispatchFacts.
Import Dispatch.
Context {Args Result W : Type}.
Implicit Types (allTools : gmap string (Tool Args Result W)).

(** X24.  A tool call is thrown back only for a name that is neither
    registered nor inherited from [Object.prototype]: for every other
    name the request handler answers with an envelope, whatever the
    handler of the tool does.  Where the name leads to no handler, the
    answer is the envelope of a [TypeError], with [isError] set: this is
    so for a registered tool to which no handler has been attached, and
    for a name that is not registered but inherited, such as
    [toString]; no handler is entered then and the backends are left as
    they were. *)
Theorem call_tool_throws_iff allTools name args w tr :
  ((exists e st', CallToolRequest allTools name args (w, tr) = (Throw e, st'))
   <-> allTools !! name = None /\ name ∉ object_prototype_keys)
  /\ ((exists t, allTools !! name = Some t /\ handler t = None)
      \/ (allTools !! name = None /\ name ∈ object_prototype_keys) ->
      CallToolRequest allTools name args (w, tr)
      = (Ok (mkEnvelope (JsonError "tool.handler is not a function") true),
         (w, tr))).
Proof.
  unfold CallToolRequest, get_property. split; [split|].
  - intros (e & st' & Hcall).
    destruct (allTools !! name) as [t|] eqn:Hname.
    + cbn [truthy negb] in Hcall. unfold try_catch, bind, invoke in Hcall.
      cbn [handler_of] in Hcall.
      destruct (handler t) as [h|]; [|discriminate Hcall].
      destruct (h args w) as [[r|e'] w']; discriminate Hcall.
    + split; [reflexivity|].
      case_bool_decide as Hproto; [|exact Hproto].
      discriminate Hcall.
  - intros [-> Hproto]. rewrite bool_decide_eq_false_2 by exact Hproto.
    by eexists _, _.
  - intros [(t & -> & Hnone) | [-> Hproto]].
    + cbn [truthy negb]. unfold try_catch, bind, invoke. cbn [handler_of].
      by rewrite Hnone.
    + by rewrite bool_decide_eq_true_2 by exact Hproto.
Qed.

(** When two modules register a tool of the same name, the one that
    is spread later is the one that is called: a lookup in the registry
    finds the tool of the last module that has the name. *)
Lemma spread_last_wins (modules : list (gmap string (Tool Args Result W)))
    (m : gmap string (Tool Args Result W)) name :
  spread (modules ++ [m]) !! name
  = match m !! name with
    | Some t => Some t
    | None => spread modules !! name
    end.
Proof.
  unfold spread. rewrite foldl_app. cbn [foldl].
  destruct (m !! name) as [t|] eqn:Hm.
  - by apply lookup_union_Some_l.
  - by rewrite lookup_union_r.
Qed.

End MoreDispatchFacts.

(** ** Resources and prompts *)

(** Membership in a list that is written out. *)
Ltac in_list :=
  repeat first [apply list_elem_of_here | apply list_elem_of_further].
Ltac not_in_list H :=
  repeat (apply elem_of_cons in H as [H|H]; [congruence|]);
  by apply elem_of_nil in H.

Section CatalogFacts.
Import Dispatch Catalog.
Context `{Env} {Args Result W : Type}.
Implicit Types (allTools : gmap string (Tool Args Result W)).

(** X25.  [ReadResource] resolves exactly for the URIs that
    [ListResources] lists, with the URI and the MIME type listed; any
    other URI is rejected with [Resource not found: <uri>].  The health
    resource says [healthy], with every service connected, in every
    world: nothing of the stores is looked at. *)
Theorem read_resource_listed allTools uri w :
  (is_ok (ReadResource allTools uri w).1 = true
   <-> uri ∈ map res_uri ListResources)
  /\ (forall cs w', ReadResource allTools uri w = (Ok cs, w') ->
        exists text,
          cs = [mkContents uri "application/json" text]
          /\ mkResource uri
               (if bool_decide (uri = "health://status")
                then "Health Status" else "MCP Hub Configuration")
               (if bool_decide (uri = "health://status")
                then "Current health status of all services"
                else "Current configuration")
               "application/json" ∈ ListResources
          /\ graph w' = graph w /\ fs w' = fs w)
  /\ (uri ∉ map res_uri ListResources ->
      ReadResource allTools uri w
      = (Throw (Error ("Resource not found: " +:+ uri)), w))
  /\ ReadResource allTools "health://status" w
     = (Ok [mkContents "health://status" "application/json"
              (HealthText "healthy" (toISOString (clock w))
                 "connected" "connected" "available")],
        tick w).
Proof.
  unfold ReadResource, ListResources. cbn [map res_uri].
  split; [|split; [|split]].
  - repeat case_bool_decide; subst; cbn; split; intros Hin;
      try reflexivity; try discriminate; try in_list; not_in_list Hin.
  - intros cs w'. repeat case_bool_decide; subst; cbn; intros Heq;
      inversion Heq; subst; eexists; (split; [reflexivity|]);
      (split; [in_list | by split]).
  - intros Hnot. rewrite !bool_decide_eq_false_2; [reflexivity| |];
      intros ->; apply Hnot; in_list.
  - reflexivity.
Qed.

(** X26.  [GetPrompt] resolves exactly for the names that [ListPrompts]
    lists, and rejects any other name with [Prompt not found: <name>].
    No argument is required in fact: without arguments, or without the
    argument that is declared as required, the prompt is made with the
    empty text in its place. *)
Theorem get_prompt_listed name args (w : W) :
  (is_ok (GetPrompt name args w).1 = true <-> name ∈ map pr_name ListPrompts)
  /\ (name ∉ map pr_name ListPrompts ->
      GetPrompt name args w = (Throw (Error ("Prompt not found: " +:+ name)), w))
  /\ (forall p a, p ∈ ListPrompts -> a ∈ pr_arguments p ->
        default None (fmap (fun m => m !! pa_name a) args) = None ->
        exists msgs, GetPrompt (pr_name p) args w = (Ok msgs, w)
                     /\ argument args (pa_name a) = "")
  /\ GetPrompt "analyze-memory" None w
     = (Ok [mkMessage "user" "Analyze the following memory query: "], w).
Proof.
  unfold GetPrompt, ListPrompts. cbn [map pr_name].
  split; [|split; [|split]].
  - repeat case_bool_decide; subst; cbn; split; intros Hin;
      try reflexivity; try discriminate; try in_list; not_in_list Hin.
  - intros Hnot. rewrite !bool_decide_eq_false_2; [reflexivity| |];
      intros ->; apply Hnot; in_list.
  - intros p a Hp Ha Hmissing.
    assert (Harg : argument args (pa_name a) = "").
    { unfold argument. destruct args as [m|]; cbn in *; [|reflexivity].
      by rewrite Hmissing. }
    apply elem_of_cons in Hp as [->|Hp];
      [|apply list_elem_of_singleton in Hp as ->];
      cbn [pr_name]; eexists; (split; [reflexivity | exact Harg]).
  - reflexivity.
Qed.

End CatalogFacts.

(** ** The registry *)

Section RegistryFacts.
Import Dispatch Registry.
Context {Args Result W : Type}
  (neo4j obsidian ollama memory : string -> Args -> M W Result).

Local Abbreviation registry := (allTools neo4j obsidian ollama memory).
Local Abbreviation tools_listed := (ListTools neo4j obsidian ollama memory).

(** X27.  The registry holds 27 tools, and [ListTools] lists them all.
    A tool is called by the key under which its module holds it, and is
    listed by the name in its descriptor: for the tools of the graph
    store, the note store and the memory the two are the same, so that a
    listed name leads to the tool listed.  The six tools of the model
    adapter are listed as [ollama_chat], [ollama_complete] and so on,
    but held under [chat], [complete] and so on: called by the name
    under which it is listed, each is answered with [Unknown tool]. *)
Theorem listed_names_and_keys :
  size registry = 27 /\ List.length tools_listed = 27
  /\ (forall t, t ∈ tools_listed ->
        registry !! tool_name t
        = if Str.startsWith (tool_name t) "ollama_" then None else Some t)
  /\ (forall t args st, t ∈ tools_listed ->
        Str.startsWith (tool_name t) "ollama_" = true ->
        CallToolRequest registry (tool_name t) args st
        = (Throw (Error ("Unknown tool: " +:+ tool_name t)), st))
  /\ (forall t, t ∈ (ollamaTools ollama).*2 ->
        exists key, registry !! key = Some t
                    /\ tool_name t = "ollama_" +:+ key).
Proof.
  split; [vm_compute; reflexivity|]. split; [reflexivity|].
  assert (Hnames : forall t, t ∈ tools_listed ->
            registry !! tool_name t
            = if Str.startsWith (tool_name t) "ollama_" then None else Some t).
  { intros t Ht.
    repeat (apply elem_of_cons in Ht as [->|Ht]; [vm_compute; reflexivity|]).
    by apply elem_of_nil in Ht. }
  split; [exact Hnames|]. split.
  - intros t args [w tr] Ht Hollama. specialize (Hnames t Ht).
    rewrite Hollama in Hnames.
    unfold CallToolRequest.
    rewrite (get_property_unregistered _ _ Hnames); [reflexivity|].
    revert Hollama. clear Hnames.
    repeat (apply elem_of_cons in Ht as [->|Ht];
            [vm_compute; intros Ho; try discriminate Ho;
             intros Hin;
             repeat (apply elem_of_cons in Hin as [Hin|Hin]; [discriminate Hin|]);
             by apply elem_of_nil in Hin|]).
    by apply elem_of_nil in Ht.
  - intros t Ht.
    repeat (apply elem_of_cons in Ht as [->|Ht];
            [eexists; split; [|reflexivity]; vm_compute; reflexivity|]).
    by apply elem_of_nil in Ht.
Qed.

End RegistryFacts.

(** ** The model adapter *)

Section OllamaFacts.
Import Ollama.
Context {W : Type}
  (OLLAMA_BASE_URL : string)
  (axios_post : string -> json -> W -> outcome * W)
  (axios_get : string -> W -> outcome * W)
  (axios_post_stream : string -> json -> W -> reply * W)
  (JSON_stringify : json -> string)
  (JSON_parse : string -> option json)
  (String_of : json -> string)
  (Number_of : json -> option Qc).

Local Abbreviation chat := (Ollama.chat OLLAMA_BASE_URL axios_post JSON_stringify).
Local Abbreviation embed :=
  (Ollama.embed OLLAMA_BASE_URL axios_post JSON_stringify Number_of).
Local Abbreviation list_models :=
  (Ollama.list_models OLLAMA_BASE_URL axios_get).
Local Abbreviation pull_model :=
  (Ollama.pull_model OLLAMA_BASE_URL axios_post_stream JSON_parse String_of).
Local Abbreviation on_line := (Ollama.on_line JSON_parse String_of).
Local Abbreviation on_lines := (Ollama.on_lines JSON_parse String_of).
Local Abbreviation on_data := (Ollama.on_data JSON_parse String_of).

Lemma read_object {V} key fields (w : V) :
  read key (JObj fields) w = (Ok (assoc key fields), w).
Proof. reflexivity. Qed.

Lemma read_field {V} key data (w : V) :
  data <> JNull -> read key data w = (Ok (field key data), w).
Proof. by destruct data. Qed.

Lemma truthy_not_null v : truthy (Some v) = true -> v <> JNull.
Proof. by destruct v. Qed.

(** X28.  [chat] resolves exactly when the server replies with a body
    that has a truthy [message] or a truthy [response]; it then answers
    [success = true] with the model asked for, and the response is the
    content of the message when there is a message, the [response] of
    the body otherwise.  So a reply whose only text is an empty
    [response] is rejected, and so is the body [null]. *)
Theorem chat_resolves_iff args w o w' :
  (forall data,
     axios_post (OLLAMA_BASE_URL +:+ "/api/" +:+ "chat") data w = (o, w')) ->
  ((exists r w1, chat args w = (Ok r, w1))
   <-> exists d, o = Replied d
                 /\ (truthy (field "message" d) || truthy (field "response" d))
                    = true)
  /\ (forall r w1, chat args w = (Ok r, w1) ->
        w1 = w' /\ chr_success r = true /\ chr_model r = ch_model args
        /\ exists d,
             o = Replied d
             /\ chr_response r
                = if truthy (field "message" d)
                  then field "message" d ≫= field "content"
                  else field "response" d).
Proof.
  intros Hpost.
  remember (chat args w) as res eqn:Hres.
  unfold Ollama.chat, bind, ollamaRequest in Hres. rewrite Hpost in Hres.
  destruct o as [d|e status d|e|e];
    try (subst res;
         split; [split; [intros (r & w1 & Heq); discriminate Heq
                        |intros (d' & Heq & _); discriminate Heq]
                |intros r w1 Heq; discriminate Heq]).
  destruct d as [|b|q|s|items|fields];
    try (cbn in Hres; subst res;
         split; [split; [intros (r & w1 & Heq); discriminate Heq
                        |intros (d' & Heq & Ht); inversion Heq; subst;
                         cbn in Ht; discriminate Ht]
                |intros r w1 Heq; discriminate Heq]).
  rewrite !read_object in Hres. cbn [field mbind option_bind].
  destruct (truthy (assoc "message" fields)) eqn:Hm.
  - destruct (assoc "message" fields) as [m|] eqn:Hmsg; [|discriminate Hm].
    pose proof (truthy_not_null _ Hm) as Hnull.
    unfold read_of in Hres. rewrite (read_field _ _ _ Hnull) in Hres.
    rewrite !read_object in Hres. subst res.
    split; [split|].
    + intros _. exists (JObj fields). split; [reflexivity|].
      cbn [field]. by rewrite Hmsg, Hm.
    + intros _. by eexists _, _.
    + intros r w1 Heq. inversion Heq; subst. cbn.
      repeat split. exists (JObj fields). split; [reflexivity|].
      cbn [field]. by rewrite Hmsg, Hm.
  - rewrite !read_object in Hres.
    destruct (truthy (assoc "response" fields)) eqn:Hr.
    + rewrite !read_object in Hres. subst res. split; [split|].
      * intros _. exists (JObj fields). split; [reflexivity|].
        cbn [field]. by rewrite Hm, Hr.
      * intros _. by eexists _, _.
      * intros r w1 Heq. inversion Heq; subst. cbn.
        repeat split. exists (JObj fields). split; [reflexivity|].
        cbn [field]. by rewrite Hm.
    + subst res. split; [split|].
      * intros (r & w1 & Heq). discriminate Heq.
      * intros (d' & Heq & Ht). inversion Heq; subst. cbn [field] in Ht.
        rewrite Hm, Hr in Ht. discriminate Ht.
      * intros r w1 Heq. discriminate Heq.
Qed.

Lemma positive_JNat n : positive Number_of (Some (JNat n)) = (0 <? n)%nat.
Proof.
  unfold positive, JNat. destruct n as [|n]; [reflexivity|].
  cbn [this Q2Qc].
  destruct (Qle_bool _ 0) eqn:Hle; [|reflexivity].
  apply Qle_bool_iff in Hle. rewrite Qred_correct in Hle.
  unfold Qle in Hle. cbn [Qnum Qden inject_Z] in Hle. lia.
Qed.

(** X29.  Of the embeddings that the server returns, [embed] answers
    with the first only, and with its length as the dimension, however
    many there are; a reply without embeddings, or with an empty array of
    them, is rejected with [No embedding returned from Ollama]. *)
Theorem embed_first args w fields w' :
  (forall data,
     axios_post (OLLAMA_BASE_URL +:+ "/api/" +:+ "embed") data w
     = (Replied (JObj fields), w')) ->
  (forall vector others,
     assoc "embeddings" fields = Some (JArr (JArr vector :: others)) ->
     embed args w
     = (Ok (mkEmbedResult true (default "nomic-embed-text" (em_model args))
              (Some (JArr vector)) (Some (JNat (List.length vector)))), w'))
  /\ (assoc "embeddings" fields = None
       \/ assoc "embeddings" fields = Some (JArr []) ->
      embed args w = (Throw (Error "No embedding returned from Ollama"), w')).
Proof.
  intros Hpost.
  remember (embed args w) as res eqn:Hres.
  unfold Ollama.embed, bind, ollamaRequest in Hres. rewrite Hpost in Hres.
  rewrite read_object in Hres. split.
  - intros vector others He. rewrite He in Hres.
    cbn [truthy length_of ret] in Hres. rewrite positive_JNat in Hres.
    cbn in Hres. exact Hres.
  - intros [He|He]; rewrite He in Hres; cbn in Hres; exact Hres.
Qed.

Lemma map_entries_length ms (w : W) es w' :
  map_entries ms w = (Ok es, w') -> List.length es = List.length ms /\ w' = w.
Proof.
  revert es w'. induction ms as [|m ms IH]; intros es w' Hmap.
  - inversion Hmap; by subst.
  - cbn [map_entries] in Hmap. unfold bind at 1 in Hmap.
    destruct (model_entry m w) as [[e|err] w1] eqn:Hentry; [|discriminate Hmap].
    assert (w1 = w) as ->.
    { unfold model_entry, bind in Hentry.
      destruct m; cbn in Hentry; inversion Hentry; reflexivity. }
    unfold bind in Hmap.
    destruct (map_entries ms w) as [[es'|err] w2]; [|discriminate Hmap].
    destruct (IH es' w2 eq_refl) as [Hlen ->].
    inversion Hmap; subst. cbn [List.length]. by rewrite Hlen.
Qed.

(** Whenever [list_models] resolves, [success] is true and the
    count is the number of the models answered; a reply without
    [models], or with a falsy one, gives no model and the count zero. *)
Lemma list_models_count w :
  (forall r w', list_models w = (Ok r, w') ->
     lm_success r = true /\ lm_count r = List.length (lm_models r))
  /\ (forall d w',
        axios_get (OLLAMA_BASE_URL +:+ "/api/" +:+ "tags") w = (Replied d, w') ->
        d <> JNull -> truthy (field "models" d) = false ->
        list_models w = (Ok (mkListModelsResult true [] 0), w')).
Proof.
  split.
  - intros r w' Hr. unfold Ollama.list_models, ollamaGet in Hr.
    unfold bind at 1 in Hr.
    destruct (axios_get _ w) as [[d|e status d|e|e] w1]; try discriminate Hr.
    unfold bind at 1 in Hr.
    destruct (read "models" d w1) as [[models|e] w2] eqn:Hread;
      [|discriminate Hr].
    destruct (if truthy models then models else Some (JArr [])) as [[]|];
      try discriminate Hr.
    unfold bind in Hr.
    destruct (map_entries items w2) as [[es|e] w3] eqn:Hmap; [|discriminate Hr].
    apply map_entries_length in Hmap as [Hlen _].
    inversion Hr; subst. cbn. by split.
  - intros d w' Hget Hd Hfalsy. unfold Ollama.list_models, ollamaGet.
    unfold bind at 1. rewrite Hget. unfold bind at 1.
    rewrite (read_field _ _ _ Hd), Hfalsy. reflexivity.
Qed.

(** *** Pulling a model *)

Lemma on_line_keeps status line :
  ps_success (on_line status line).1 = ps_success status
  /\ ps_model (on_line status line).1 = ps_model status.
Proof.
  unfold Ollama.on_line. destruct (JSON_parse line) as [data|]; [|by split].
  destruct data; try (by split);
    repeat match goal with
           | |- context [if ?c then _ else _] => destruct c
           | |- context [match ?x with Some _ => _ | None => _ end] => destruct x
           end; by split.
Qed.

Lemma on_lines_keeps status lines :
  ps_success (on_lines status lines).1 = ps_success status
  /\ ps_model (on_lines status lines).1 = ps_model status.
Proof.
  revert status. induction lines as [|line lines IH]; intros status; [by split|].
  cbn [Ollama.on_lines]. pose proof (on_line_keeps status line) as [Hs Hm].
  destruct (on_line status line) as [status' [e|]]; cbn [fst] in *; [by split|].
  destruct (IH status') as [Hs' Hm']. split; congruence.
Qed.

Lemma on_data_keeps status p chunks :
  ps_success (on_data status p chunks).1 = ps_success status
  /\ ps_model (on_data status p chunks).1 = ps_model status.
Proof.
  revert status p. induction chunks as [|chunk chunks IH]; intros status p;
    [by split|].
  cbn [Ollama.on_data].
  pose proof (on_lines_keeps status (lines_of chunk)) as [Hs Hm].
  destruct (on_lines status (lines_of chunk)) as [status' rejection].
  cbn [fst] in *. destruct (IH status'
    (match rejection with Some e => settle p (Rejected e) | None => p end))
    as [Hs' Hm'].
  split; congruence.
Qed.

(** A promise that is settled stays as it is. *)
Lemma on_data_settled status p chunks :
  p <> Pending -> (on_data status p chunks).2 = p.
Proof.
  revert status p. induction chunks as [|chunk chunks IH]; intros status p Hp;
    [reflexivity|].
  cbn [Ollama.on_data].
  destruct (on_lines status (lines_of chunk)) as [status' [e|]].
  - rewrite IH; by destruct p.
  - by apply IH.
Qed.

(** The rejection that a line, and the lines of a chunk, bring about. *)
Lemma on_line_error status line :
  (on_line status line).2
  = option_map (fun err => Error ("Pull error: " +:+ String_of err))
      (line_error JSON_parse line).
Proof.
  unfold Ollama.on_line, line_error.
  destruct (JSON_parse line) as [data|]; [|reflexivity].
  destruct data as [|b|q|s|items|fields]; try reflexivity;
    cbn [field];
    try (repeat match goal with
                | |- context [if ?c then _ else _] => destruct c
                end; reflexivity).
  destruct (assoc "error" fields) as [err|]; cbn [default option_map];
    [|reflexivity].
  destruct (truthy (Some err)); reflexivity.
Qed.

Lemma on_lines_error status lines :
  (on_lines status lines).2
  = option_map (fun err => Error ("Pull error: " +:+ String_of err))
      (first_error JSON_parse lines).
Proof.
  revert status. induction lines as [|line lines IH]; intros status;
    [reflexivity|].
  cbn [Ollama.on_lines first_error].
  pose proof (on_line_error status line) as Hline.
  destruct (on_line status line) as [status' [e|]]; cbn [snd] in Hline.
  - destruct (line_error JSON_parse line); [exact Hline | discriminate Hline].
  - destruct (line_error JSON_parse line); [discriminate Hline | apply IH].
Qed.

Lemma first_error_app lines lines' :
  first_error JSON_parse (lines ++ lines')
  = match first_error JSON_parse lines with
    | Some err => Some err
    | None => first_error JSON_parse lines'
    end.
Proof.
  induction lines as [|line lines IH]; [reflexivity|].
  cbn [app first_error]. by destruct (line_error JSON_parse line).
Qed.

(** The promise after the [data] events: rejected by the first line
    that carries an error, and as it was without such a line. *)
Lemma on_data_error status chunks :
  (on_data status Pending chunks).2
  = match first_error JSON_parse (concat (map lines_of chunks)) with
    | Some err => Rejected (Error ("Pull error: " +:+ String_of err))
    | None => Pending
    end.
Proof.
  revert status. induction chunks as [|chunk chunks IH]; intros status;
    [reflexivity|].
  cbn [Ollama.on_data map concat]. rewrite first_error_app.
  pose proof (on_lines_error status (lines_of chunk)) as Hlines.
  destruct (on_lines status (lines_of chunk)) as [status' [e|]];
    cbn [snd] in Hlines.
  - destruct (first_error JSON_parse (lines_of chunk)) as [err|];
      [|discriminate Hlines].
    inversion Hlines; subst e. cbn [settle]. by rewrite on_data_settled.
  - destruct (first_error JSON_parse (lines_of chunk)); [discriminate Hlines|].
    apply IH.
Qed.

(** X30.  What [pull_model] comes to is decided by the lines of the
    stream, chunk by chunk, and by the way the stream ends.  The first
    line that carries a truthy [error] rejects it, with the error
    [Pull error: <error>], whatever follows in the stream and however
    the stream ends.  Without such a line, a stream that ends resolves it
    with [success = true], the model asked for and the status [success],
    whatever the last line said; a stream that breaks rejects it with
    the error of the stream; and while the stream is open it is pending.
    When the request itself fails, the error of [axios] is passed on as
    it is. *)
Theorem pull_model_settles args w w' :
  (forall chunks last,
     (forall data, axios_post_stream (OLLAMA_BASE_URL +:+ "/api/pull") data w
                   = (Stream chunks last, w')) ->
     match first_error JSON_parse (concat (map lines_of chunks)) with
     | Some err =>
         pull_model args w
         = (Rejected (Error ("Pull error: " +:+ String_of err)), w')
     | None =>
         match last with
         | Ended =>
             exists s,
               pull_model args w = (Resolved s, w')
               /\ ps_success s = true /\ ps_model s = pl_model args
               /\ ps_status s = JStr "success"
         | Broken e => pull_model args w = (Rejected e, w')
         | Open => pull_model args w = (Pending, w')
         end
     end)
  /\ (forall e,
        (forall data, axios_post_stream (OLLAMA_BASE_URL +:+ "/api/pull") data w
                      = (NoStream e, w')) ->
        pull_model args w = (Rejected e, w')).
Proof.
  split.
  - intros chunks last Hpost. unfold Ollama.pull_model. rewrite Hpost.
    set (status := mkPullStatus true (pl_model args) (JStr "pulling")
                     JNull JNull JNull).
    pose proof (on_data_keeps status Pending chunks) as [Hs Hm].
    pose proof (on_data_error status chunks) as Hp.
    destruct (on_data status Pending chunks) as [status' p].
    cbn [fst snd] in *. subst p.
    destruct (first_error JSON_parse (concat (map lines_of chunks))) as [err|].
    + by destruct last.
    + destruct last as [|e|]; cbn [settle]; [|reflexivity|reflexivity].
      eexists. split; [reflexivity|]. cbn. by rewrite Hs, Hm.
  - intros e Hpost. unfold Ollama.pull_model. by rewrite Hpost.
Qed.

(** A line of the stream that is no JSON, or is the JSON [null],
    changes nothing: the loop over the lines of a chunk gives what it
    gives without these lines. *)
Lemma on_lines_skips_invalid status lines :
  on_lines status lines
  = on_lines status
      (List.filter (fun line => match JSON_parse line with
                                | None | Some JNull => false
                                | Some _ => true
                                end) lines).
Proof.
  revert status. induction lines as [|line lines IH]; intros status;
    [reflexivity|].
  cbn [List.filter Ollama.on_lines].
  destruct (JSON_parse line) as [data|] eqn:Hparse.
  - destruct data; cbn [Ollama.on_lines];
      try (destruct (on_line status line) as [status' [e|]];
           [reflexivity | apply IH]).
    unfold Ollama.on_line. rewrite Hparse. apply IH.
  - unfold Ollama.on_line. rewrite Hparse. apply IH.
Qed.

End OllamaFacts.

(** ** The further properties at work *)

Section FurtherWitnesses.
Import Graph.

(** X2, witness: the note [/a] is the note [a]. *)
Lemma getFilePath_leading_slash_witness :
  Obsidian.getFilePath (H := Posix.env) "/a"
  = Obsidian.getFilePath (H := Posix.env) "a".
Proof.
  apply (getFilePath_leading_slash (H := Posix.env) "a"). reflexivity.
Defined.

(** X3, witness: a note [n1] written into the empty vault and read back as it is. *)
Lemma write_note_read_raw_witness :
  Obsidian.read_note (H := Posix.env) (Obsidian.mkReadNoteArgs "n1" (Some false))
    (Obsidian.write_note (H := Posix.env)
       (Obsidian.mkWriteNoteArgs "n1" "hello" None None) Posix.empty_world).2
  = (Ok (Obsidian.mkReadNoteResult true "n1" "/vault/n1.md" None "hello"),
     (Obsidian.write_note (H := Posix.env)
        (Obsidian.mkWriteNoteArgs "n1" "hello" None None) Posix.empty_world).2).
Proof.
  refine (proj1 (write_note_read_raw (H := Posix.env)
                   (Obsidian.mkWriteNoteArgs "n1" "hello" None None)
                   _ Posix.empty_world _ _)).
  vm_compute. reflexivity.
Defined.

(** X4, witness: the note [n1] is written and then deleted. *)
Lemma delete_note_after_write_witness :
  exists res w2,
    Obsidian.delete_note (H := Posix.env) (Obsidian.mkDeleteNoteArgs "n1")
      (Obsidian.write_note (H := Posix.env)
         (Obsidian.mkWriteNoteArgs "n1" "hello" None None) Posix.empty_world).2
    = (Ok res, w2)
    /\ res = Obsidian.mkDeleteNoteResult true "n1" true None.
Proof.
  destruct (delete_note_after_write (H := Posix.env)
              (Obsidian.mkWriteNoteArgs "n1" "hello" None None)
              (Obsidian.mkWriteNoteResult true "n1" "/vault/n1.md" 5)
              Posix.empty_world
              (Obsidian.write_note (H := Posix.env)
                 (Obsidian.mkWriteNoteArgs "n1" "hello" None None)
                 Posix.empty_world).2)
    as [_ Hans]; [vm_compute; reflexivity|].
  eexists _, _. split; [vm_compute; reflexivity|].
  eapply proj1, Hans. vm_compute. reflexivity.
Defined.

(** X5, witness: the note [a.md] of the flat vault, once deleted, is not found. *)
Lemma delete_note_removes_witness :
  Obsidian.read_note (H := Posix.env) (Obsidian.mkReadNoteArgs "a" None)
    (Obsidian.delete_note (H := Posix.env) (Obsidian.mkDeleteNoteArgs "a")
       Posix.flat_vault).2
  = (Throw (Error "Note not found: a"),
     (Obsidian.delete_note (H := Posix.env) (Obsidian.mkDeleteNoteArgs "a")
        Posix.flat_vault).2).
Proof.
  refine (proj1 (delete_note_removes (H := Posix.env) "a" None
                   (Obsidian.mkDeleteNoteResult true "a" true None)
                   Posix.flat_vault _ _ _ _)).
  - vm_compute. reflexivity.
  - vm_compute. reflexivity.
  - reflexivity.
Defined.

(** X6, witness: appending to a note that does not exist. *)
Lemma append_note_failure_witness :
  Notes.append_note (H := Posix.env) (Notes.mkAppendNoteArgs "ghost" "more" None)
    Posix.empty_world
  = (Throw (Error "Note not found: ghost. Use write_note to create new notes."),
     Posix.empty_world).
Proof.
  apply (append_note_failure (H := Posix.env)
           (Notes.mkAppendNoteArgs "ghost" "more" None) Posix.empty_world ENOENT).
  vm_compute. reflexivity.
Defined.

(** X7, witness: appending to the note [a.md] of the flat vault. *)
Lemma append_note_appends_witness :
  exists r w',
    Notes.append_note (H := Posix.env) (Notes.mkAppendNoteArgs "a" "more" None)
      Posix.flat_vault = (Ok r, w')
    /\ Obsidian.read_note (H := Posix.env)
         (Obsidian.mkReadNoteArgs "a" (Some false)) w'
       = (Ok (Obsidian.mkReadNoteResult true "a" "/vault/a.md" None
                ("test one" +:+ (Str.LF +:+ Str.LF) +:+ "more")), w')
    /\ r = Notes.mkAppendNoteResult true "a" 8 14.
Proof.
  exists (Notes.mkAppendNoteResult true "a" 8 14),
         (Notes.append_note (H := Posix.env)
            (Notes.mkAppendNoteArgs "a" "more" None) Posix.flat_vault).2.
  split; [vm_compute; reflexivity|].
  destruct (append_note_appends (H := Posix.env)
              (Notes.mkAppendNoteArgs "a" "more" None) "test one"
              (Notes.mkAppendNoteResult true "a" 8 14) Posix.flat_vault
              (Notes.append_note (H := Posix.env)
                 (Notes.mkAppendNoteArgs "a" "more" None) Posix.flat_vault).2)
    as (Hread & Hres & _);
    [reflexivity | vm_compute; reflexivity |].
  split; [exact Hread | reflexivity].
Defined.

(** X8, witness: the flat vault, listed without recursion and with a limit of two. *)
Lemma list_notes_flat_witness :
  Notes.list_notes (H := Posix.env)
    (Notes.mkListNotesArgs None None (Some false) (Some 2)) Posix.flat_vault
  = (Ok (Notes.mkListNotesResult true
           [Notes.mkNoteEntry "a.md" "a.md" ""; Notes.mkNoteEntry "b.md" "b.md" ""]
           2), Posix.flat_vault).
Proof.
  apply (list_notes_flat (H := Posix.env) None None (Some 2)
           [("a.md", Fs.File true "test one");
            ("b.md", Fs.File true "a Test");
            ("c.md", Fs.File true "testtest")] Posix.flat_vault).
  vm_compute. reflexivity.
Defined.

(** X10, witness: the hits for [test] in the sample vault. *)
Lemma search_notes_sound_witness :
  Forall (fun h => Str.endsWith (Obsidian.hit_filename h) ".md" = true
                   /\ 1 <= Obsidian.matchCount h
                   /\ (is_Some (Obsidian.snippets h) <-> false = true))
    (Obsidian.sr_results
       (Obsidian.mkSearchNotesResult true "test"
          (firstn 50 (accumulated (H := Posix.env)
                        (Obsidian.mkSearchNotesArgs "test" None None None)
                        Posix.sample_vault))
          (List.length (accumulated (H := Posix.env)
                          (Obsidian.mkSearchNotesArgs "test" None None None)
                          Posix.sample_vault)))).
Proof.
  apply (search_notes_sound (H := Posix.env)
           (Obsidian.mkSearchNotesArgs "test" None None None)
           Posix.sample_vault _ Posix.sample_vault).
  reflexivity.
Defined.

(** X11, witness: a note with a title, an empty array of tags and a flag. *)
Lemma write_note_read_frontmatter_witness :
  Obsidian.read_note (H := Posix.env) (Obsidian.mkReadNoteArgs "n2" None)
    (Obsidian.write_note (H := Posix.env)
       (Obsidian.mkWriteNoteArgs "n2" "body"
          (Some [("title", Obsidian.FmString "On: colons");
                 ("tags", Obsidian.FmArray []);
                 ("draft", Obsidian.FmBool true)]) None)
       Posix.empty_world).2
  = (Ok (Obsidian.mkReadNoteResult true "n2" "/vault/n2.md"
           (Some (Some (<["draft" := Obsidian.FmBool true]>
                          (<["tags" := Obsidian.FmArray [""]]>
                             (<["title" := Obsidian.FmString "On: colons"]> ∅)))))
           "body"),
     (Obsidian.write_note (H := Posix.env)
        (Obsidian.mkWriteNoteArgs "n2" "body"
           (Some [("title", Obsidian.FmString "On: colons");
                  ("tags", Obsidian.FmArray []);
                  ("draft", Obsidian.FmBool true)]) None)
        Posix.empty_world).2).
Proof.
  refine (proj1 (write_note_read_frontmatter (H := Posix.env) "n2" "body"
                   [("title", Obsidian.FmString "On: colons");
                    ("tags", Obsidian.FmArray []);
                    ("draft", Obsidian.FmBool true)]
                   None None Posix.empty_world _ _ _ _ _ _)).
  - reflexivity.
  - discriminate.
  - repeat constructor.
  - vm_compute. reflexivity.
Defined.

(** X12, witness: a note with an empty front-matter object. *)
Lemma write_note_empty_frontmatter_witness :
  Obsidian.read_note (H := Posix.env) (Obsidian.mkReadNoteArgs "n3" None)
    (Obsidian.write_note (H := Posix.env)
       (Obsidian.mkWriteNoteArgs "n3" "body" (Some []) None)
       Posix.empty_world).2
  = (Ok (Obsidian.mkReadNoteResult true "n3" "/vault/n3.md" (Some None)
           (Str.LF +:+ "body")),
     (Obsidian.write_note (H := Posix.env)
        (Obsidian.mkWriteNoteArgs "n3" "body" (Some []) None)
        Posix.empty_world).2).
Proof.
  eapply (write_note_empty_frontmatter (H := Posix.env) "n3" "body" None None
            Posix.empty_world).
  - reflexivity.
  - vm_compute. reflexivity.
Defined.

(** X13, witness: a note created without tags reads back with one empty tag. *)
Lemma create_note_read_tags_witness :
  exists fm text,
    Obsidian.read_note (H := Posix.env) (Obsidian.mkReadNoteArgs "n4" None)
      (Obsidian.create_note (H := Posix.env)
         (Obsidian.mkCreateNoteArgs "n4" None "body" None None)
         Posix.empty_world).2
    = (Ok (Obsidian.mkReadNoteResult true "n4" "/vault/n4.md"
             (Some (Some fm)) text),
       (Obsidian.create_note (H := Posix.env)
          (Obsidian.mkCreateNoteArgs "n4" None "body" None None)
          Posix.empty_world).2)
    /\ fm !! "created" = Some (Obsidian.FmString "2024-01-01T00:00:00.0Z")
    /\ fm !! "tags" = Some (Obsidian.FmArray [""]).
Proof.
  eapply (create_note_read_tags (H := Posix.env) "n4" None "body" None None None
            Posix.empty_world).
  - reflexivity.
  - vm_compute. reflexivity.
  - discriminate.
  - reflexivity.
  - vm_compute. reflexivity.
Defined.

(** X15, witness: a relationship [knows] between the two concepts is one relationship
    [KNOWS]. *)
Lemma create_relationship_product_witness :
  exists created,
    rels (graph (Neo4j.create_relationship (H := Posix.env)
                   (Neo4j.mkCreateRelationshipArgs "Concept" "A" "Concept" "B"
                      "knows" None) Posix.two_concepts).2)
    = rels (graph Posix.two_concepts) ++ created
    /\ map type created = ["KNOWS"].
Proof.
  destruct (create_relationship_product (H := Posix.env)
              (Neo4j.mkCreateRelationshipArgs "Concept" "A" "Concept" "B"
                 "knows" None) Posix.two_concepts eq_refl eq_refl eq_refl eq_refl)
    as (created & Hrels & Hlen & Hall & _).
  exists created. split; [exact Hrels|].
  destruct created as [|r [|r' created]]; try discriminate Hlen.
  apply Forall_inv in Hall as [Hup _]. cbn [map].
  by rewrite (uppercased_unique _ _ "KNOWS" Hup eq_refl).
Defined.

(** X16, witness: the concept [A] is given a colour. *)
Lemma update_entity_overlays_witness :
  exists res w',
    Neo4j.update_entity (H := Posix.env)
      (Neo4j.mkUpdateEntityArgs 0 {[ "colour" := VStr "red" ]})
      Posix.two_concepts = (Ok res, w')
    /\ Neo4j.uer_properties res !! "colour" = Some (VStr "red").
Proof.
  destruct (update_entity_overlays (H := Posix.env) 0
              {[ "colour" := VStr "red" ]}
              (mkNode 0 ["Concept"]
                 (stored (<["createdAt" := VStr "2024-01-01T00:00:00.0Z"]> ∅
                          ∪ {[ "name" := VStr "A" ]})))
              Posix.two_concepts)
    as (res & w' & Hrun & _ & _ & _ & Hgiven & _).
  - reflexivity.
  - vm_compute. reflexivity.
  - exists res, w'. split; [exact Hrun|].
    apply (Hgiven "colour" (VStr "red")); [discriminate | reflexivity].
Defined.

(** X19, witness: the two concepts, as a server answers with them. *)
Lemma find_entities_answers_witness :
  Entities.find_entities Standins.concepts
    (Entities.mkFindEntitiesArgs (Some "Concept") (Some "A") None)
    Posix.empty_world
  = (Ok (Entities.mkFindEntitiesResult true
           (map Entities.entity_of (nodes (graph Posix.two_concepts))) 2),
     Posix.empty_world).
Proof.
  refine (proj1 (find_entities_answers Standins.concepts
                   (Entities.mkFindEntitiesArgs (Some "Concept") (Some "A") None)
                   Posix.empty_world)
            _ _ (nodes (graph Posix.two_concepts)) eq_refl _).
  repeat constructor.
Defined.

(** X20, witness: one record is enough to make [get_knowledge_graph] fail. *)
Lemma get_knowledge_graph_empty_witness :
  exists r,
    Recollection.get_knowledge_graph Standins.one_record
      (Recollection.mkKnowledgeGraphArgs "A" None None) Posix.empty_world
    = (Ok r, Posix.empty_world)
    /\ Recollection.kgr_success r = false
    /\ Recollection.kgr_error r = Some "record.get is not a function"
    /\ Recollection.kgr_nodes r = [] /\ Recollection.kgr_links r = [].
Proof.
  destruct (get_knowledge_graph_empty Standins.one_record
              (Recollection.mkKnowledgeGraphArgs "A" None None) Posix.empty_world)
    as (r & w' & Hrun & Hw & Hnodes & Hlinks & Hsuccess & Herror).
  cbn in Hw. subst w'. exists r. split; [exact Hrun|].
  split; [|split; [|split; [exact Hnodes | exact Hlinks]]].
  - destruct (Recollection.kgr_success r) eqn:Hs; [|reflexivity].
    destruct (proj1 Hsuccess eq_refl) as (res & Hq & Hnil).
    inversion Hq; subst. discriminate Hnil.
  - exact (Herror _ _ _ eq_refl eq_refl).
Defined.

(** X21, witness: the one record, as a memory without properties. *)
Lemma search_memories_by_date_answers_witness :
  Recollection.search_memories_by_date Standins.one_record
    (Recollection.mkDateSearchArgs "2024-01-01" "2024-12-31" None)
    Posix.empty_world
  = (Ok (Recollection.mkDateSearchResult true (Some "2024-01-01")
           (Some "2024-12-31") None [row_of (mkNode 0 ["Memory"] ∅)] (Some 1)),
     Posix.empty_world).
Proof.
  exact (proj2 (proj2 (search_memories_by_date_answers Standins.one_record
                         (Recollection.mkDateSearchArgs "2024-01-01" "2024-12-31"
                            None) Posix.empty_world))
           _ [mkNode 0 ["Memory"] ∅] _ eq_refl eq_refl).
Defined.

(** X22, witness: no node of the two concepts has the id 7. *)
Lemma update_memory_importance_answers_witness :
  exists w',
    Recollection.update_memory_importance (H := Posix.env)
      (Recollection.with_update_entity (H := Posix.env)
         (Recollection.query_graph Standins.one_record))
      (Recollection.mkImportanceArgs 7 (Q2Qc 1) None) Posix.two_concepts
    = (Ok (Recollection.mkImportanceResult false None None None
             (Some "Entity not found: 7")), w')
    /\ nodes (graph w') = nodes (graph Posix.two_concepts).
Proof.
  apply (proj1 (proj2 (update_memory_importance_answers (H := Posix.env)
                         (Recollection.mkImportanceArgs 7 (Q2Qc 1) None)
                         Posix.two_concepts))).
  - reflexivity.
  - repeat constructor; discriminate.
Defined.

(** X24, witness: the name [toString] is answered with an envelope. *)
Lemma call_tool_throws_iff_witness :
  Dispatch.CallToolRequest Dispatch.demo_tools "toString" tt (0, [])
  = (Ok (Dispatch.mkEnvelope (Dispatch.JsonError "tool.handler is not a function")
           true), (0, [])).
Proof.
  apply (proj2 (call_tool_throws_iff Dispatch.demo_tools "toString" tt 0 [])).
  right. split; [reflexivity|]. unfold Dispatch.object_prototype_keys.
  in_list.
Defined.

(** X25, witness: a resource that is not listed. *)
Lemma read_resource_listed_witness :
  Catalog.ReadResource (H := Posix.env) Dispatch.demo_tools "file://x"
    Posix.empty_world
  = (Throw (Error "Resource not found: file://x"), Posix.empty_world).
Proof.
  apply (proj1 (proj2 (proj2 (read_resource_listed (H := Posix.env)
                                Dispatch.demo_tools "file://x"
                                Posix.empty_world)))).
  intros Hin. unfold Catalog.ListResources in Hin.
  cbn [map Catalog.res_uri] in Hin. not_in_list Hin.
Defined.

(** X26, witness: the prompt [store-observation] without its content. *)
Lemma get_prompt_listed_witness :
  exists msgs,
    Catalog.GetPrompt "store-observation" (Some {[ "tags" := "a,b" ]}) tt
    = (Ok msgs, tt)
    /\ Catalog.argument (Some {[ "tags" := "a,b" ]}) "content" = "".
Proof.
  apply (proj1 (proj2 (proj2 (get_prompt_listed "store-observation"
                                (Some {[ "tags" := "a,b" ]}) tt)))
           (Catalog.mkPrompt "store-observation" "Store a new observation in memory"
              [ Catalog.mkPromptArgument "content" "Content to store" true;
                Catalog.mkPromptArgument "tags" "Comma-separated tags" false ])
           (Catalog.mkPromptArgument "content" "Content to store" true)).
  - unfold Catalog.ListPrompts. in_list.
  - cbn [Catalog.pr_arguments]. in_list.
  - reflexivity.
Defined.

(** X27, witness: the tool listed as [ollama_chat] is not known under that name. *)
Lemma listed_names_and_keys_witness :
  Dispatch.CallToolRequest (Registry.allTools Standins.echo Standins.echo Standins.echo Standins.echo)
    "ollama_chat" tt (tt, [])
  = (Throw (Error "Unknown tool: ollama_chat"), (tt, [])).
Proof.
  apply (proj1 (proj2 (proj2 (proj2 (listed_names_and_keys Standins.echo Standins.echo Standins.echo Standins.echo))))
           (Dispatch.mkTool "ollama_chat"
              "Send a chat message to an Ollama model and get a response"
              (Some (Standins.echo "chat"))) tt (tt, [])).
  - unfold Registry.ListTools. vm_compute. in_list.
  - reflexivity.
Defined.

(** X28, witness: a chat that is answered with a message. *)
Lemma chat_resolves_iff_witness :
  exists r w1,
    Ollama.chat "http://localhost:11434" Standins.chatty (fun _ => "")
      (Ollama.mkChatArgs "llama3.2" "hello" None None None) tt = (Ok r, w1).
Proof.
  apply (proj2 (proj1 (chat_resolves_iff "http://localhost:11434" Standins.chatty
                         (fun _ => "")
                         (Ollama.mkChatArgs "llama3.2" "hello" None None None)
                         tt _ tt (fun _ => eq_refl)))).
  eexists. split; reflexivity.
Defined.

(** X29, witness: the first of two embeddings. *)
Lemma embed_first_witness :
  Ollama.embed "http://localhost:11434" Standins.embedder (fun _ => "") (fun _ => None)
    (Ollama.mkEmbedArgs None "text") tt
  = (Ok (Ollama.mkEmbedResult true "nomic-embed-text"
           (Some (Ollama.JArr [Ollama.JNat 1; Ollama.JNat 2]))
           (Some (Ollama.JNat 2))), tt).
Proof.
  apply (proj1 (embed_first "http://localhost:11434" Standins.embedder (fun _ => "")
                  (fun _ => None) (Ollama.mkEmbedArgs None "text") tt _ tt
                  (fun _ => eq_refl))
           [Ollama.JNat 1; Ollama.JNat 2] [Ollama.JArr [Ollama.JNat 3]]).
  reflexivity.
Defined.

(** X30, witness: a stream of one line of progress that ends, and a stream in which a
    line carries an error. *)
Lemma pull_model_settles_witness :
  (exists s,
     Ollama.pull_model "http://localhost:11434" Standins.one_chunk
       Standins.parse_progress Standins.text_of
       (Ollama.mkPullArgs "llama3.2" None) tt = (Ollama.Resolved s, tt)
     /\ Ollama.ps_success s = true /\ Ollama.ps_model s = "llama3.2"
     /\ Ollama.ps_status s = Ollama.JStr "success")
  /\
  Ollama.pull_model "http://localhost:11434" Standins.two_chunks
    Standins.parse_progress Standins.text_of
    (Ollama.mkPullArgs "llama3.2" None) tt
  = (Ollama.Rejected (Error "Pull error: no space left"), tt).
Proof.
  split.
  - exact (proj1 (pull_model_settles "http://localhost:11434" Standins.one_chunk
                    Standins.parse_progress Standins.text_of
                    (Ollama.mkPullArgs "llama3.2" None) tt tt)
             ["downloading" +:+ Str.LF] Ollama.Ended (fun _ => eq_refl)).
  - exact (proj1 (pull_model_settles "http://localhost:11434" Standins.two_chunks
                    Standins.parse_progress Standins.text_of
                    (Ollama.mkPullArgs "llama3.2" None) tt tt)
             ["downloading" +:+ Str.LF;
              "broken" +:+ Str.LF +:+ "downloading" +:+ Str.LF]
             Ollama.Ended (fun _ => eq_refl)).
Defined.

End FurtherWitnesses.
